(** * Photo Pets annotation tool: the annotator and review client, verified

    A shallow embedding of the React client of the annotation tool
    ([AnnotationPage], [ImageAnnotationPage] and the review tab of the
    admin dashboard) together with the review-workflow engine the
    specification describes.

    The client talks to a FastAPI backend through [api.get], [api.put]
    and [api.patch].  Every handler is embedded as a program over the
    requests it issues: an interaction tree whose nodes are the HTTP
    calls and whose leaves are the resulting React state.  The backend
    is not part of the sources; where a property needs it, it is either
    a parameter of a Section or a definition modelled from the
    specification, and marked as such. *)

From Stdlib Require Import ZArith List String Ascii Bool Lia Permutation.
From stdpp Require Import base option list gmap strings sorting.

Local Open Scope string_scope.
Local Open Scope list_scope.
Local Open Scope Z_scope.

(* ===================================================================== *)
(** ** JavaScript values as the handlers use them *)
(* ===================================================================== *)

Module Js.

(** [x || d] on a string that may be absent: the empty string is falsy. *)
Definition str_or (x : option string) (d : string) : string :=
  match x with
  | Some s => if String.eqb s "" then d else s
  | None => d
  end.

(** [x || d] on a number that may be absent: [0] is falsy. *)
Definition num_or (x : option Z) (d : Z) : Z :=
  match x with
  | Some n => if n =? 0 then d else n
  | None => d
  end.

(** [x || null] on a number that may be absent. *)
Definition num_or_null (x : option Z) : option Z :=
  match x with
  | Some n => if n =? 0 then None else Some n
  | None => None
  end.

(** Truthiness of a number that may be [null]. *)
Definition truthy_num (x : option Z) : bool :=
  match x with
  | Some n => negb (n =? 0)
  | None => false
  end.

(** [s.includes(sub)]. *)
Fixpoint includes (s sub : string) : bool :=
  String.prefix sub s ||
  match s with
  | EmptyString => false
  | String _ rest => includes rest sub
  end.

(** [xs.join(sep)]. *)
Definition join (sep : string) (xs : list string) : string :=
  String.concat sep xs.

(** [xs.includes(x)] on an array of numbers. *)
Definition arr_includes (xs : list Z) (x : Z) : bool :=
  bool_decide (x ∈ xs).

End Js.

(* ===================================================================== *)
(** ** What the backend sends and receives *)
(* ===================================================================== *)

(** [status] of an annotation. *)
Inductive Status := in_progress | completed | skipped.

(** [review_status] of an annotation; [null] (pending) is [None]. *)
Inductive ReviewStatus := approved | rework_requested | rework_completed.

#[global] Instance Status_eq_dec : EqDecision Status.
Proof. solve_decision. Defined.
#[global] Instance ReviewStatus_eq_dec : EqDecision ReviewStatus.
Proof. solve_decision. Defined.

(** An axios failure: [err.response?.status] and
    [err.response?.data?.detail]. *)
Record HttpError := mkHttpError {
  err_status : option Z;
  err_detail : option string
}.

Inductive Http (A : Type) : Type :=
| Ok (a : A)
| Fail (e : HttpError).
Arguments Ok {A} a.
Arguments Fail {A} e.

(** Payload of [GET /annotator/categories/:c/task/:i]. *)
Module TaskWire.
Record CurrentAnnotation := mkCurrentAnnotation {
  selected_option_ids : option (list Z);
  is_duplicate : option bool;
  status : Status;
  time_spent_seconds : option Z
}.
Record Task := mkTask {
  image_id : Z;
  total_images : Z;
  current_annotation : option CurrentAnnotation
}.
(** Body of [PUT .../annotate]. *)
Record AnnotateBody := mkAnnotateBody {
  body_selected_option_ids : list Z;
  body_is_duplicate : option bool;
  body_status : Status;
  body_time_spent_seconds : Z
}.
(** Payload of [GET .../resume-index]. *)
Record Resume := mkResume { index : Z; queue_size : Z }.
End TaskWire.

(** Payload of [GET /annotator/images/:id]. *)
Module ImageWire.
Record Annotation := mkAnnotation {
  selected_option_ids : option (list Z);
  status : Status;
  review_status : option ReviewStatus;
  is_rework : bool;
  time_spent_seconds : Z
}.
Record Category := mkCategory {
  id : Z;
  name : string;
  annotation : option Annotation;
  completed_by_other : bool
}.
Record ImageData := mkImageData {
  can_edit : bool;
  is_improper : bool;
  is_locked : bool;
  data_is_rework : bool;   (* the top-level [is_rework] of the payload *)
  categories : list Category;
  next_image_id : option Z;
  prev_image_id : option Z
}.
(** One entry of [pendingChanges]. *)
Record Pending := mkPending { pending_selected_option_ids : option (list Z) }.
(** Body of [PUT /annotator/images/:id/annotations]. *)
Record SaveBody := mkSaveBody {
  annotations : gmap Z Pending;
  body_time_spent_seconds : Z
}.
End ImageWire.

(** Payload of the review table of the admin dashboard. *)
Module ReviewWire.
Record Cell := mkCell {
  annotation_id : Z;
  review_status : option ReviewStatus;
  selected_options : list Z;
  is_duplicate : option bool
}.
Record Row := mkRow {
  image_id : Z;
  annotations : gmap Z Cell
}.
Record TableData := mkTableData {
  images : list Row;
  categories : list Z
}.
End ReviewWire.

(** The requests the three pages issue, indexed by what comes back. *)
Inductive Request : Type -> Type :=
| GetTask (categoryId index : Z) : Request (Http TaskWire.Task)
| GetResumeIndex (categoryId : Z) : Request (Http TaskWire.Resume)
| GetQueueSize (categoryId : Z) : Request (Http Z)
| PutAnnotate (categoryId imageId : Z) (body : TaskWire.AnnotateBody)
  : Request (Http unit)
| GetImage (imageId : Z) : Request (Http ImageWire.ImageData)
| GetAiDetection (imageId : Z) : Request (Http (option bool))
| PutAnnotations (imageId : Z) (body : ImageWire.SaveBody) : Request (Http unit)
| PatchTime (imageId : Z) (seconds : Z) : Request (Http unit)
| PutApprove (annotationId : Z) : Request (Http unit).

(** Only [GET] is a read. *)
Definition is_write {X} (r : Request X) : bool :=
  match r with
  | PutAnnotate _ _ _ | PutAnnotations _ _ | PatchTime _ _ | PutApprove _ => true
  | _ => false
  end.

(* ===================================================================== *)
(** ** Handlers as programs over requests *)
(* ===================================================================== *)

(** An [async] handler: it ends with a value, or awaits a request and
    continues with the answer. *)
Inductive Prog (A : Type) : Type :=
| Ret (a : A)
| Await {X : Type} (r : Request X) (k : X -> Prog A).
Arguments Ret {A} a.
Arguments Await {A X} r k.

Fixpoint bind {A B} (p : Prog A) (f : A -> Prog B) : Prog B :=
  match p with
  | Ret a => f a
  | Await r k => Await r (fun x => bind (k x) f)
  end.

Definition call {X} (r : Request X) : Prog X := Await r Ret.

(** [x ← call r; rest] reads as [const x = await r; rest]. *)
#[global] Instance Prog_ret : MRet Prog := @Ret.
#[global] Instance Prog_bind : MBind Prog := λ A B f p, bind p f.

(** A backend: how it answers a request and what it stores afterwards. *)
Definition Backend (Store : Type) : Type :=
  forall X, Request X -> Store -> X * Store.

(** One entry of the log of a run: a request that was issued. *)
Inductive Issued : Type :=
| issued : forall X : Type, Request X -> Issued.
Arguments issued {X} r.

Definition issued_write (i : Issued) : bool :=
  match i with issued r => is_write r end.

(** Run a handler against a backend; the result, the final store and the
    requests in the order they were issued. *)
Fixpoint run {Store A} (srv : Backend Store) (p : Prog A) (s : Store)
  : A * Store * list Issued :=
  match p with
  | Ret a => (a, s, [])
  | Await r k =>
      let '(x, s') := srv _ r s in
      let '(a, s'', log) := run srv (k x) s' in
      (a, s'', issued r :: log)
  end.


(* ===================================================================== *)
(** ** AnnotationPage: one category, image after image *)
(* ===================================================================== *)

Module AnnotationPage.
Import TaskWire.

(** The [useState] cells of the component, [savingRef.current], and
    where [navigate] last sent the browser. *)
Record State := mkState {
  task : option Task;
  selectedOptions : list Z;
  isDuplicate : option bool;
  queueIndex : Z;
  loading : bool;
  saving : bool;
  error : string;
  allDone : bool;
  elapsedSeconds : Z;
  savingRef : bool;
  navigated : option string
}.

Definition setTask v (s : State) :=
  mkState v (selectedOptions s) (isDuplicate s) (queueIndex s) (loading s)
          (saving s) (error s) (allDone s) (elapsedSeconds s) (savingRef s)
          (navigated s).
Definition setSelectedOptions v (s : State) :=
  mkState (task s) v (isDuplicate s) (queueIndex s) (loading s)
          (saving s) (error s) (allDone s) (elapsedSeconds s) (savingRef s)
          (navigated s).
Definition setIsDuplicate v (s : State) :=
  mkState (task s) (selectedOptions s) v (queueIndex s) (loading s)
          (saving s) (error s) (allDone s) (elapsedSeconds s) (savingRef s)
          (navigated s).
Definition setQueueIndex v (s : State) :=
  mkState (task s) (selectedOptions s) (isDuplicate s) v (loading s)
          (saving s) (error s) (allDone s) (elapsedSeconds s) (savingRef s)
          (navigated s).
Definition setLoading v (s : State) :=
  mkState (task s) (selectedOptions s) (isDuplicate s) (queueIndex s) v
          (saving s) (error s) (allDone s) (elapsedSeconds s) (savingRef s)
          (navigated s).
Definition setSaving v (s : State) :=
  mkState (task s) (selectedOptions s) (isDuplicate s) (queueIndex s)
          (loading s) v (error s) (allDone s) (elapsedSeconds s)
          (savingRef s) (navigated s).
Definition setError v (s : State) :=
  mkState (task s) (selectedOptions s) (isDuplicate s) (queueIndex s)
          (loading s) (saving s) v (allDone s) (elapsedSeconds s)
          (savingRef s) (navigated s).
Definition setAllDone v (s : State) :=
  mkState (task s) (selectedOptions s) (isDuplicate s) (queueIndex s)
          (loading s) (saving s) (error s) v (elapsedSeconds s)
          (savingRef s) (navigated s).
Definition setElapsedSeconds v (s : State) :=
  mkState (task s) (selectedOptions s) (isDuplicate s) (queueIndex s)
          (loading s) (saving s) (error s) (allDone s) v (savingRef s)
          (navigated s).
Definition setSavingRef v (s : State) :=
  mkState (task s) (selectedOptions s) (isDuplicate s) (queueIndex s)
          (loading s) (saving s) (error s) (allDone s) (elapsedSeconds s) v
          (navigated s).
Definition navigate v (s : State) :=
  mkState (task s) (selectedOptions s) (isDuplicate s) (queueIndex s)
          (loading s) (saving s) (error s) (allDone s) (elapsedSeconds s)
          (savingRef s) (Some v).

(** The state of a freshly mounted component. *)
Definition initial : State :=
  mkState None [] None 0 true false "" false 0 false None.

(** The [catch] of [loadTask]. *)
Definition loadTaskFailed (e : HttpError) (s : State) : State :=
  if bool_decide (err_status e = Some 404) then
    (* Could be "all done" or "index out of range" *)
    let detail := Js.str_or (err_detail e) "" in
    if Js.includes detail "all completed" || Js.includes detail "No images"
    then setAllDone true s
    else setError (Js.str_or (Some detail) "No more images.") s
  else setError (Js.str_or (err_detail e) "Failed to load task") s.

(** The [try] of [loadTask] once the task has arrived. *)
Definition loadTaskArrived (index : Z) (data : Task) (s : State) : State :=
  let s := setQueueIndex index (setTask (Some data) s) in
  (* Restore previous selections and timer if any *)
  match current_annotation data with
  | Some a =>
      setElapsedSeconds (Js.num_or (time_spent_seconds a) 0)
        (setIsDuplicate (is_duplicate a)
           (setSelectedOptions (default [] (selected_option_ids a)) s))
  | None =>
      setElapsedSeconds 0 (setIsDuplicate None (setSelectedOptions [] s))
  end.

(** [timer tick]. *)
Definition tick (s : State) : State :=
  setElapsedSeconds (elapsedSeconds s + 1) s.

(** The updater [toggleOption] hands to [setSelectedOptions]. *)
Definition toggleOption (optionId : Z) (prev : list Z) : list Z :=
  if Js.arr_includes prev optionId
  then filter (λ id, id ≠ optionId) prev
  else prev ++ [optionId].

Definition handleToggle (optionId : Z) (s : State) : State :=
  setSelectedOptions (toggleOption optionId (selectedOptions s)) s.

(** [Save & Next] is disabled when nothing is selected. *)
Definition saveNextDisabled (s : State) : bool :=
  saving s || bool_decide (selectedOptions s = []).

Section WithCategory.
Variable categoryId : Z.

Definition loadTask (index : Z) (s : State) : Prog State :=
  let s := setAllDone false (setError "" (setLoading true s)) in
  res ← call (GetTask categoryId index);
  Ret (setLoading false
         (match res with
          | Ok data => loadTaskArrived index data s
          | Fail e => loadTaskFailed e s
          end)).

(** The mount effect: resume where the annotator left off. *)
Definition mount (s : State) : Prog State :=
  res ← call (GetResumeIndex categoryId);
  match res with
  | Ok r => loadTask (index r) s
  | Fail _ => loadTask 0 s
  end.

Definition saveAnnotation (status : Status) (s : State)
  : Prog (bool * State) :=
  match task s with
  | None => Ret (false, s)
  | Some t =>
      if savingRef s then Ret (false, s)
      else
        let s := setSaving true (setSavingRef true s) in
        res ← call (PutAnnotate categoryId (image_id t)
                             (mkAnnotateBody (selectedOptions s)
                                (isDuplicate s) status
                                (elapsedSeconds s)));
        let finally s := setSavingRef false (setSaving false s) in
        match res with
        | Ok _ => Ret (true, finally s)
        | Fail e =>
            Ret (false,
                 finally (setError (Js.str_or (err_detail e)
                                      "Failed to save") s))
        end
  end.

(** The part of [handleNext] and [handleSkip] that asks
    [resume-index] where to go. *)
Definition resumeOrFinish (s : State) : Prog State :=
  res ← call (GetResumeIndex categoryId);
  match res with
  | Ok r =>
      if queue_size r =? 0 then Ret (setAllDone true s)
      else loadTask (index r) s
  | Fail _ => Ret (navigate "/annotator" s)
  end.

Definition handleNext (s : State) : Prog State :=
  saved ← saveAnnotation completed s;
  let '(ok, s) := saved in
  if negb ok then Ret s
  else
    (* The completed image stays in the queue, so advance. *)
    let nextIndex := queueIndex s + 1 in
    res ← call (GetQueueSize categoryId);
    match res with
    | Ok newSize =>
        if (newSize =? 0) || (newSize <=? nextIndex)
        then resumeOrFinish s
        else loadTask nextIndex s
    | Fail _ => Ret (navigate "/annotator" s)
    end.

(** [task?.current_annotation?.status === 'completed']. *)
Definition alreadyCompleted (s : State) : bool :=
  match task s with
  | Some t =>
      match current_annotation t with
      | Some a => bool_decide (status a = completed)
      | None => false
      end
  | None => false
  end.

(** Move to the next image, the second half of [handleSkip]. *)
Definition skipAhead (s : State) : Prog State :=
  match task s with
  | Some t =>
      if queueIndex s <? total_images t - 1
      then loadTask (queueIndex s + 1) s
      else resumeOrFinish s
  | None => Ret s   (* not reached: without a task the save was refused *)
  end.

Definition handleSkip (s : State) : Prog State :=
  (* Only save as "skipped" if the image is NOT already completed. *)
  if alreadyCompleted s then skipAhead s
  else
    saved ← saveAnnotation skipped s;
    let '(ok, s) := saved in
    if negb ok then Ret s else skipAhead s.

Definition handleBack (s : State) : Prog State :=
  if 0 <? queueIndex s then loadTask (queueIndex s - 1) s else Ret s.

(** The keys the page listens to. *)
Inductive Key := ArrowRight | Enter | ArrowLeft | KeyS | OtherKey.

Definition onKeyDown (inInput : bool) (k : Key) (s : State) : Prog State :=
  if inInput then Ret s
  else if savingRef s then Ret s
  else match k with
       | ArrowRight | Enter =>
           if bool_decide (selectedOptions s = []) then Ret s
           else handleNext s
       | ArrowLeft => handleBack s
       | KeyS => handleSkip s
       | OtherKey => Ret s
       end.
End WithCategory.

End AnnotationPage.

(* ===================================================================== *)
(** ** ImageAnnotationPage: one image, all of its categories *)
(* ===================================================================== *)

Module ImageAnnotationPage.
Import ImageWire.

(** *** CategoryDropdown *)

(** Single selection - store only one option ID (or null). *)
Record Dropdown := mkDropdown {
  isOpen : bool;
  selectedOption : option Z
}.

(** [annotation?.selected_option_ids?.[0] || null]. *)
Definition firstSelected (a : option Annotation) : option Z :=
  Js.num_or_null
    (match a with
     | Some a =>
         match selected_option_ids a with
         | Some (first :: _) => Some first
         | _ => None
         end
     | None => None
     end).

Definition mountDropdown (a : option Annotation) : Dropdown :=
  mkDropdown false (firstSelected a).

(** [newSelected ? [newSelected] : []]. *)
Definition asArray (newSelected : option Z) : list Z :=
  match newSelected with
  | Some n => if Js.truthy_num (Some n) then [n] else []
  | None => []
  end.

(** [selectOption]: the new dropdown, and the [onChange] call if one is
    made (category id and the value handed over). *)
Definition selectOption (disabled : bool) (categoryId optionId : Z)
    (d : Dropdown) : Dropdown * option (Z * Pending) :=
  if disabled then (d, None)
  else
    (* clicking the same option deselects it, otherwise select the new one *)
    let newSelected :=
      if bool_decide (selectedOption d = Some optionId) then None
      else Some optionId in
    (mkDropdown (isOpen d) newSelected,
     (* Still pass as array for API compatibility *)
     Some (categoryId, mkPending (Some (asArray newSelected)))).

(** *** The page *)

Record State := mkState {
  data : option ImageData;
  loading : bool;
  saving : bool;
  error : string;
  pendingChanges : gmap Z Pending;
  isAIGenerated : option bool;
  maxAnnotationTime : Z;
  maxReworkTime : Z;
  isReworkMode : bool;
  elapsedSeconds : Z;
  showTimeWarning : bool
}.

Definition setData v (s : State) :=
  mkState v (loading s) (saving s) (error s) (pendingChanges s)
          (isAIGenerated s) (maxAnnotationTime s) (maxReworkTime s)
          (isReworkMode s) (elapsedSeconds s) (showTimeWarning s).
Definition setLoading v (s : State) :=
  mkState (data s) v (saving s) (error s) (pendingChanges s)
          (isAIGenerated s) (maxAnnotationTime s) (maxReworkTime s)
          (isReworkMode s) (elapsedSeconds s) (showTimeWarning s).
Definition setSaving v (s : State) :=
  mkState (data s) (loading s) v (error s) (pendingChanges s)
          (isAIGenerated s) (maxAnnotationTime s) (maxReworkTime s)
          (isReworkMode s) (elapsedSeconds s) (showTimeWarning s).
Definition setError v (s : State) :=
  mkState (data s) (loading s) (saving s) v (pendingChanges s)
          (isAIGenerated s) (maxAnnotationTime s) (maxReworkTime s)
          (isReworkMode s) (elapsedSeconds s) (showTimeWarning s).
Definition setPendingChanges v (s : State) :=
  mkState (data s) (loading s) (saving s) (error s) v
          (isAIGenerated s) (maxAnnotationTime s) (maxReworkTime s)
          (isReworkMode s) (elapsedSeconds s) (showTimeWarning s).
Definition setIsAIGenerated v (s : State) :=
  mkState (data s) (loading s) (saving s) (error s) (pendingChanges s)
          v (maxAnnotationTime s) (maxReworkTime s)
          (isReworkMode s) (elapsedSeconds s) (showTimeWarning s).
Definition setIsReworkMode v (s : State) :=
  mkState (data s) (loading s) (saving s) (error s) (pendingChanges s)
          (isAIGenerated s) (maxAnnotationTime s) (maxReworkTime s)
          v (elapsedSeconds s) (showTimeWarning s).
Definition setElapsedSeconds v (s : State) :=
  mkState (data s) (loading s) (saving s) (error s) (pendingChanges s)
          (isAIGenerated s) (maxAnnotationTime s) (maxReworkTime s)
          (isReworkMode s) v (showTimeWarning s).
Definition setShowTimeWarning v (s : State) :=
  mkState (data s) (loading s) (saving s) (error s) (pendingChanges s)
          (isAIGenerated s) (maxAnnotationTime s) (maxReworkTime s)
          (isReworkMode s) (elapsedSeconds s) v.

(** The state of a freshly mounted component: both limits are 120. *)
Definition initial : State :=
  mkState None true false "" ∅ None 120 120 false 0 false.

(** Compute the current max time based on mode. *)
Definition currentMaxTime (s : State) : Z :=
  if isReworkMode s then maxReworkTime s else maxAnnotationTime s.

(** Timer tick. *)
Definition tick (s : State) : State :=
  setElapsedSeconds (elapsedSeconds s + 1) s.

(** Check for time warning whenever elapsed changes. *)
Definition checkTimeWarning (s : State) : State :=
  if (currentMaxTime s <=? elapsedSeconds s) && negb (showTimeWarning s)
  then setShowTimeWarning true s
  else s.

(** Persist time to DB (fire-and-forget): nothing is sent without an
    image id or for a non-positive time; a failure is swallowed. *)
Definition persistTime (imgId : option Z) (seconds : Z) : Prog unit :=
  match imgId with
  | None => Ret tt
  | Some i =>
      if seconds <=? 0 then Ret tt
      else _ ← call (PatchTime i seconds); Ret tt
  end.

Definition handleCategoryChange (categoryId : Z) (value : Pending)
    (s : State) : State :=
  setPendingChanges (<[categoryId := value]> (pendingChanges s)) s.

(** One round of the [forEach] of [loadImage]: the entry of [initial]
    and the running [maxSavedTime]. *)
Definition loadCategory (acc : gmap Z Pending * Z) (cat : Category)
  : gmap Z Pending * Z :=
  match annotation cat with
  | Some a =>
      (<[id cat := mkPending (selected_option_ids a)]> acc.1,
       (* Track the max time_spent_seconds across all categories *)
       if acc.2 <? time_spent_seconds a then time_spent_seconds a else acc.2)
  | None => acc
  end.

Definition loadCategories (cats : list Category) : gmap Z Pending * Z :=
  fold_left loadCategory cats (∅, 0).

(** Detect if this is a rework. *)
Definition hasRework (d : ImageData) : bool :=
  data_is_rework d ||
  existsb (λ cat,
             match annotation cat with
             | Some a => bool_decide (review_status a = Some rework_requested)
                         || is_rework a
             | None => false
             end) (categories d).

(** [loadImage] is memoised with no dependencies, so the limits it
    reads are those of the first render. *)
Definition mountMaxAnnotationTime : Z := maxAnnotationTime initial.
Definition mountMaxReworkTime : Z := maxReworkTime initial.

(** The [try] of [loadImage] once the image and the AI status have
    arrived. *)
Definition loadImageArrived (d : ImageData) (ai : Http (option bool))
    (s : State) : State :=
  let '(initial, maxSavedTime) := loadCategories (categories d) in
  let s := setPendingChanges initial (setData (Some d) s) in
  let s := setIsAIGenerated (match ai with Ok v => v | Fail _ => None end) s in
  let s := setIsReworkMode (hasRework d) s in
  (* Resume timer from DB-saved value *)
  let s := setElapsedSeconds maxSavedTime s in
  (* Check if we're already over the limit *)
  let effectiveMaxTime :=
    if hasRework d then mountMaxReworkTime else mountMaxAnnotationTime in
  setShowTimeWarning (effectiveMaxTime <=? maxSavedTime) s.

Definition loadImage (imgId : Z) (s : State) : Prog State :=
  let s := setPendingChanges ∅ (setError "" (setLoading true s)) in
  res ← call (GetImage imgId);
  match res with
  | Ok d =>
      ai ← call (GetAiDetection imgId);
      Ret (setLoading false (loadImageArrived d ai s))
  | Fail e =>
      Ret (setLoading false
             (setError (Js.str_or (err_detail e) "Failed to load image") s))
  end.

(** Does the loop of [validateAllCategoriesSelected] push this
    category's name? *)
Definition lacksSelection (pc : gmap Z Pending) (cat : Category) : bool :=
  (* Skip if completed by other annotator *)
  if completed_by_other cat && bool_decide (pc !! id cat = None) then false
  else
    match pc !! id cat with
    | None => true
    | Some pending =>
        match pending_selected_option_ids pending with
        | None => true
        | Some ids => bool_decide (length ids = 0%nat)
        end
    end.

Record Validation := mkValidation { valid : bool; missing : list string }.

(** Check if all categories have at least one option selected. *)
Definition validateAllCategoriesSelected (s : State) : Validation :=
  match data s with
  | None => mkValidation false []
  | Some d =>
      let missing :=
        fold_left (λ (missing : list string) cat,
                     if lacksSelection (pendingChanges s) cat
                     then missing ++ [name cat] else missing)
                  (categories d) [] in
      mkValidation (bool_decide (length missing = 0%nat)) missing
  end.

(** [saving || !data?.can_edit || data?.is_improper]. *)
Definition saveRefused (s : State) : bool :=
  saving s ||
  negb (from_option can_edit false (data s)) ||
  from_option is_improper false (data s).

Section WithImage.
Variable imageId : Z.

Definition handleSave (s : State) : Prog (bool * State) :=
  if saveRefused s then Ret (false, s)
  else
    (* Validate all categories have selections *)
    let validation := validateAllCategoriesSelected s in
    if negb (valid validation) then
      Ret (false,
           setError ("Please select an option for: "
                     +:+ Js.join ", " (missing validation)) s)
    else
      let s := setError "" (setSaving true s) in
      res ← call (PutAnnotations imageId
                    (mkSaveBody (pendingChanges s) (elapsedSeconds s)));
      match res with
      | Ok _ =>
          s ← loadImage imageId s;
          Ret (true, setSaving false s)
      | Fail e =>
          Ret (false,
               setSaving false
                 (setError (Js.str_or (err_detail e) "Failed to save") s))
      end.
End WithImage.

End ImageAnnotationPage.

(* ===================================================================== *)
(** ** The review tab of the admin dashboard *)
(* ===================================================================== *)

Module AdminReview.
Import ReviewWire.

(** *** ImageDetailModal *)

(** Local edit state of one category. *)
Record Edit := mkEdit { selections : list Z; isDuplicate : option bool }.

Definition hasChangesForCat (row : Row) (edits : gmap Z Edit) (catId : Z)
  : bool :=
  match annotations row !! catId, edits !! catId with
  | Some cell, Some e =>
      let origIds : gset Z := list_to_set (selected_options cell) in
      if bool_decide (length (selections e) ≠ size origIds) then true
      else if existsb (λ id, bool_decide (id ∉ origIds)) (selections e)
           then true
      else bool_decide (isDuplicate e ≠ is_duplicate cell)
  | _, _ => false
  end.

(** Include null/undefined, rework_requested, and rework_completed as
    "pending" (approvable). *)
Definition pendingAnnotations (categories : list Z) (row : Row) : list Cell :=
  omap (λ cat, annotations row !! cat)
    (List.filter
       (λ cat, match annotations row !! cat with
               | Some cell => bool_decide (review_status cell ≠ Some approved)
               | None => false
               end)
       categories).

(** What the admin sees of the page around the table. *)
Record State := mkState {
  tableData : option TableData;
  modalRow : option Row;
  selectedRows : list Z;         (* a [Set], in insertion order *)
  bulkApproving : bool;
  saving : bool;
  alerts : list string;          (* every [alert], oldest first *)
  refreshes : nat                (* reloads [refreshData] has started *)
}.

Definition setModalRow v (s : State) :=
  mkState (tableData s) v (selectedRows s) (bulkApproving s) (saving s)
          (alerts s) (refreshes s).
Definition setSelectedRows v (s : State) :=
  mkState (tableData s) (modalRow s) v (bulkApproving s) (saving s)
          (alerts s) (refreshes s).
Definition setBulkApproving v (s : State) :=
  mkState (tableData s) (modalRow s) (selectedRows s) v (saving s)
          (alerts s) (refreshes s).
Definition setSaving v (s : State) :=
  mkState (tableData s) (modalRow s) (selectedRows s) (bulkApproving s) v
          (alerts s) (refreshes s).
Definition alert (msg : string) (s : State) :=
  mkState (tableData s) (modalRow s) (selectedRows s) (bulkApproving s)
          (saving s) (alerts s ++ [msg]) (refreshes s).
(** [refreshData] starts [loadTable] (or [loadCards]) and returns at
    once: nobody awaits it, and what it loads arrives later.  The page
    records that one more reload was started; what a reload does to the
    page when its answers arrive is [ReviewTable.reload] below. *)
Definition refreshData (s : State) :=
  mkState (tableData s) (modalRow s) (selectedRows s) (bulkApproving s)
          (saving s) (alerts s) (S (refreshes s)).

(** Optimistically update modalRow to show approved status immediately. *)
Definition showApproved (annId : Z) (row : Row) : Row :=
  mkRow (image_id row)
    ((λ cell,
        if bool_decide (annotation_id cell = annId)
        then mkCell (annotation_id cell) (Some approved)
                    (selected_options cell) (is_duplicate cell)
        else cell) <$> annotations row).

(** [handleApprove]: one request; a failure ends in an [alert]. *)
Definition handleApprove (annotationId : Z) (s : State) : Prog State :=
  res ← call (PutApprove annotationId);
  match res with
  | Ok _ => Ret s
  | Fail e => Ret (alert (Js.str_or (err_detail e) "Failed") s)
  end.

(** The [onApprove] the dashboard hands to the modal.  It is a closure
    of the render that made it: [shown] is the [modalRow] of that
    render, and the optimistic update rewrites the open row from it,
    whatever the page holds when the answer arrives. *)
Definition onApprove (shown : option Row) (annotationId : Z) (s : State)
  : Prog State :=
  s ← handleApprove annotationId s;
  Ret (refreshData
         (match shown with
          | Some row => setModalRow (Some (showApproved annotationId row)) s
          | None => s
          end)).

(** The loop of [handleApproveAll] over the cells still to visit.  The
    modal calls the [onApprove] it was rendered with all along, the
    one that closes over its own [row]. *)
Fixpoint approveEach (row : Row) (edits : gmap Z Edit) (cells : list Cell)
    (s : State) : Prog State :=
  match cells with
  | [] => Ret s
  | cell :: rest =>
      if hasChangesForCat row edits (annotation_id cell)
      then approveEach row edits rest s
      else s ← onApprove (Some row) (annotation_id cell) s;
           approveEach row edits rest s
  end.

Definition handleApproveAll (categories : list Z) (row : Row)
    (edits : gmap Z Edit) (s : State) : Prog State :=
  s ← approveEach row edits (pendingAnnotations categories row)
        (setSaving true s);
  Ret (setSaving false s).

(** *** Bulk approve *)

(** The annotation ids [handleBulkApprove] pushes a request for, in
    the order of its two loops. *)
Definition bulkTargets (td : TableData) (selected : list Z) : list Z :=
  flat_map
    (λ imgId,
       match List.find (λ r, bool_decide (image_id r = imgId)) (images td) with
       | None => []
       | Some row =>
           omap (λ cat,
                   match annotations row !! cat with
                   | Some cell =>
                       (* [cell && !cell.review_status] *)
                       match review_status cell with
                       | None => Some (annotation_id cell)
                       | Some _ => None
                       end
                   | None => None
                   end)
                (categories td)
       end)
    selected.

(** Every request is started before any answer is awaited; the
    answers, one per request, in the order the requests were made. *)
Fixpoint startAll (ids : list Z) : Prog (list (Z * Http unit)) :=
  match ids with
  | [] => Ret []
  | annotationId :: rest =>
      res ← call (PutApprove annotationId);
      results ← startAll rest;
      Ret ((annotationId, res) :: results)
  end.

Definition succeeded {A} (res : Http A) : bool :=
  match res with Ok _ => true | Fail _ => false end.

(** [Promise.all] fulfils when every promise does. *)
Definition allFulfilled (results : list (Z * Http unit)) : bool :=
  forallb (λ r, succeeded r.2) results.

(** What [handleBulkApprove] does with the answers. *)
Definition bulkSettled (results : list (Z * Http unit)) (s : State) : State :=
  setBulkApproving false
    (if allFulfilled results
     then refreshData (setSelectedRows [] s)
     else alert "Some approvals failed" s).

Definition handleBulkApprove (s : State) : Prog State :=
  match tableData s with
  | None => Ret s
  | Some td =>
      let s := setBulkApproving true s in
      results ← startAll (bulkTargets td (selectedRows s));
      Ret (bulkSettled results s)
  end.

End AdminReview.

(* ===================================================================== *)
(** ** The review-workflow engine behind the requests *)
(* ===================================================================== *)

(** The backend is not among the sources.  What follows is written from
    the specification of the engine (sections 3, 4.2, 4.3, 4.6 and 7). *)
Module Engine.

(** Modelled from the spec: the error taxonomy of section 7; the
    backend that raises these errors is missing from the sources. *)
Inductive Error :=
| ValidationError | ConflictError | StateError
| AuthorizationError | NotFoundError.

#[global] Instance Error_eq_dec : EqDecision Error.
Proof. solve_decision. Defined.

(** Modelled from the spec: the Annotation record of section 3, with
    the attributes the transitions below read or write; the table
    that holds it is missing from the sources. *)
Record Annotation := mkAnnotation {
  image_id : Z;
  category_id : Z;
  annotator_id : Z;
  selected_option_ids : list Z;
  status : Status;
  review_status : option ReviewStatus;
  is_rework : bool;
  time_spent_seconds : Z
}.

Definition setReviewStatus v (a : Annotation) :=
  mkAnnotation (image_id a) (category_id a) (annotator_id a)
               (selected_option_ids a) (status a) v (is_rework a)
               (time_spent_seconds a).
Definition setTimeSpent v (a : Annotation) :=
  mkAnnotation (image_id a) (category_id a) (annotator_id a)
               (selected_option_ids a) (status a) (review_status a)
               (is_rework a) v.

(** Modelled from the spec: [Approve] of section 4.3, "allowed only
    when review_status is null or rework_completed; re-approving an
    already-approved record raises StateError"; illegal transitions
    raise [StateError].  The endpoint [PUT /admin/review/:id/approve]
    that implements it is missing from the sources. *)
Definition Approve (a : Annotation) : Error + Annotation :=
  match review_status a with
  | None | Some rework_completed => inr (setReviewStatus (Some approved) a)
  | Some approved | Some rework_requested => inl StateError
  end.

Definition setStatus v (a : Annotation) :=
  mkAnnotation (image_id a) (category_id a) (annotator_id a)
               (selected_option_ids a) v (review_status a) (is_rework a)
               (time_spent_seconds a).

(** Modelled from the spec: the guard of [Skip] in section 4.3,
    "allowed only when the record is not already completed", on the
    status of the record if there is one. *)
Definition SkipAllowed (current : option Status) : bool :=
  negb (bool_decide (current = Some completed)).

(** Modelled from the spec: [Skip] of section 4.3 on an existing
    record; an illegal transition raises [StateError] and writes
    nothing.  The endpoint [PUT .../annotate] that implements it is
    missing from the sources. *)
Definition Skip (a : Annotation) : Error + Annotation :=
  if SkipAllowed (Some (status a)) then inr (setStatus skipped a)
  else inl StateError.

(** Modelled from the spec: [RequestRework] of section 4.3 on one
    record of the image, "allowed from any non-rework_requested state
    with a non-empty reason; sets review_status=rework_requested and
    is_rework=true".  The endpoint [POST /admin/annotations/:id/rework]
    is missing from the sources. *)
Definition RequestRework (reason : string) (a : Annotation)
  : Error + Annotation :=
  if String.eqb reason "" then inl ValidationError
  else match review_status a with
       | Some rework_requested => inl StateError
       | _ =>
           inr (mkAnnotation (image_id a) (category_id a) (annotator_id a)
                             (selected_option_ids a) (status a)
                             (Some rework_requested) true
                             (time_spent_seconds a))
       end.

(** Modelled from the spec: [Approve(adminId, annotationId)] against
    the annotation table; an unknown id is a [NotFoundError]
    (section 7).  A rejected transition writes nothing. *)
Definition approveById (annotationId : Z) (table : gmap Z Annotation)
  : (Error + unit) * gmap Z Annotation :=
  match table !! annotationId with
  | None => (inl NotFoundError, table)
  | Some a =>
      match Approve a with
      | inr a' => (inr tt, <[annotationId := a']> table)
      | inl e => (inl e, table)
      end
  end.

(** One admin approve operation as it was observed: the id, the
    review status the record had when the operation began, and the
    answer. *)
Record Observed := mkObserved {
  target : Z;
  before : option (option ReviewStatus);
  answer : Error + unit
}.

(** A sequence of admin approve operations, one after the other. *)
Fixpoint approveSeq (ids : list Z) (table : gmap Z Annotation)
  : list Observed * gmap Z Annotation :=
  match ids with
  | [] => ([], table)
  | annotationId :: rest =>
      let '(r, table') := approveById annotationId table in
      let '(log, table'') := approveSeq rest table' in
      (mkObserved annotationId (review_status <$> table !! annotationId) r
         :: log,
       table'')
  end.

(** Modelled from the spec: an entry of the category-scoped queue of
    section 4.2, an image with the status of its authoritative
    annotation for the category, if there is one. *)
Record QueueEntry := mkQueueEntry {
  entry_image_id : Z;
  authoritative : option Status
}.

Definition is_completed (e : QueueEntry) : bool :=
  bool_decide (authoritative e = Some completed).

(** Modelled from the spec: [ResumeIndex] of section 4.2, "the index
    of the first image in the ordered queue whose authoritative
    Annotation for that category is not completed; if every image is
    completed, returns queue_size as a sentinel".  The endpoint
    [GET .../resume-index] is missing from the sources. *)
Fixpoint ResumeIndex (queue : list QueueEntry) : nat :=
  match queue with
  | [] => 0%nat
  | e :: rest => if is_completed e then S (ResumeIndex rest) else 0%nat
  end.

Definition QueueSize (queue : list QueueEntry) : nat := length queue.

(** Modelled from the spec: what [GetResumeIndex] answers, an index
    or the sentinel, never an error. *)
Definition GetResumeIndex (queue : list QueueEntry) : Error + TaskWire.Resume :=
  inr (TaskWire.mkResume (Z.of_nat (ResumeIndex queue))
                         (Z.of_nat (QueueSize queue))).

(** Modelled from the spec: [TaskAt] of section 4.2, with its failure
    mode "NotFoundError when index is out of range".  The endpoint
    [GET .../task/:index] is missing from the sources. *)
Definition TaskAt (queue : list QueueEntry) (index : Z)
  : Error + QueueEntry :=
  if index <? 0 then inl NotFoundError
  else match queue !! Z.to_nat index with
       | Some e => inr e
       | None => inl NotFoundError
       end.

(** Modelled from the spec: the time limits of section 4.6, "both
    admin-configurable ... consumed as config". *)
Record TimeLimits := mkTimeLimits {
  max_annotation_time_seconds : Z;
  max_rework_time_seconds : Z
}.

(** Modelled from the spec: [capForMode] of section 4.6. *)
Definition capForMode (cfg : TimeLimits) (a : Annotation) : Z :=
  if is_rework a then max_rework_time_seconds cfg
  else max_annotation_time_seconds cfg.

(** Modelled from the spec: [RecordElapsed] of section 4.6, "resolved
    by max(stored, min(raw, cap))".  The endpoint
    [PATCH /annotator/images/:id/time] is missing from the sources. *)
Definition RecordElapsed (cfg : TimeLimits) (rawSeconds : Z)
    (a : Annotation) : Annotation :=
  setTimeSpent
    (Z.max (time_spent_seconds a) (Z.min rawSeconds (capForMode cfg a)))
    a.

(** A run of [RecordElapsed] calls on one annotation under one
    configuration. *)
Definition recordAll (cfg : TimeLimits) (raws : list Z) (a : Annotation)
  : Annotation :=
  fold_left (λ a raw, RecordElapsed cfg raw a) raws a.

End Engine.

(* ===================================================================== *)
(** ** Backends to run the handlers against *)
(* ===================================================================== *)

Module Backends.

(** Modelled from the spec: how an engine error travels over HTTP.
    The spec is transport-agnostic; the status codes follow the
    taxonomy of section 7 and the client's own reading of 404. *)
Definition httpError (e : Engine.Error) (detail : string) : HttpError :=
  mkHttpError
    (Some match e with
          | Engine.ValidationError => 422
          | Engine.ConflictError => 409
          | Engine.StateError => 409
          | Engine.AuthorizationError => 403
          | Engine.NotFoundError => 404
          end)
    (Some detail).

Definition unsupported {A} : Http A := Fail (mkHttpError (Some 501) None).

(** *** One annotator's category queue *)

(** An image of the queue with the annotator's record for it. *)
Record Slot := mkSlot {
  slot_image : Z;
  slot_annotation : option TaskWire.CurrentAnnotation
}.

Definition entryOf (sl : Slot) : Engine.QueueEntry :=
  Engine.mkQueueEntry (slot_image sl)
                      (TaskWire.status <$> slot_annotation sl).

Definition slotStatus (sl : Slot) : option Status :=
  TaskWire.status <$> slot_annotation sl.

(** Modelled from the spec: [SubmitAnnotation] of section 6 seen from
    one annotator.  The record of the image is created or overwritten
    with what was sent, except that a submission with status skipped
    is [Skip] and leaves a completed record alone. *)
Definition submitTo (imageId : Z) (body : TaskWire.AnnotateBody) (sl : Slot)
  : Slot :=
  if bool_decide (slot_image sl = imageId) then
    if bool_decide (TaskWire.body_status body = skipped)
       && negb (Engine.SkipAllowed (slotStatus sl))
    then sl
    else mkSlot imageId
           (Some (TaskWire.mkCurrentAnnotation
                    (Some (TaskWire.body_selected_option_ids body))
                    (TaskWire.body_is_duplicate body)
                    (TaskWire.body_status body)
                    (Some (TaskWire.body_time_spent_seconds body))))
  else sl.

Definition submit (imageId : Z) (body : TaskWire.AnnotateBody)
    (queue : list Slot) : list Slot :=
  submitTo imageId body <$> queue.

(** Modelled from the spec: the submission is a [Skip] the guard of
    section 4.3 refuses. *)
Definition skipRefused (imageId : Z) (body : TaskWire.AnnotateBody)
    (queue : list Slot) : bool :=
  bool_decide (TaskWire.body_status body = skipped)
  && existsb (λ sl, bool_decide (slot_image sl = imageId)
                    && negb (Engine.SkipAllowed (slotStatus sl)))
             queue.

(** Modelled from the spec: the resolver of section 4.2 behind the
    endpoints of [AnnotationPage].  An index out of range is a
    [NotFoundError], a 404 for the client.  The spec says nothing of
    the text that comes with the error, so it is a parameter:
    [notFound queue index] is the detail the backend writes when
    [index] is asked for on [queue], if it writes one. *)
Definition serveQueue (notFound : list Slot → Z → option string)
  : Backend (list Slot) :=
  λ X r queue,
    match r in Request X return X * list Slot with
    | GetTask _ index =>
        (match Engine.TaskAt (entryOf <$> queue) index,
               queue !! Z.to_nat index with
         | inr _, Some sl =>
             Ok (TaskWire.mkTask (slot_image sl) (Z.of_nat (length queue))
                                 (slot_annotation sl))
         | _, _ => Fail (mkHttpError (Some 404) (notFound queue index))
         end, queue)
    | GetResumeIndex _ =>
        (match Engine.GetResumeIndex (entryOf <$> queue) with
         | inr res => Ok res
         | inl e => Fail (httpError e "")
         end, queue)
    | GetQueueSize _ => (Ok (Z.of_nat (length queue)), queue)
    | PutAnnotate _ imageId body =>
        (if skipRefused imageId body queue
         then Fail (httpError Engine.StateError "Annotation already completed")
         else Ok tt,
         submit imageId body queue)
    | GetImage _ => (unsupported, queue)
    | GetAiDetection _ => (unsupported, queue)
    | PutAnnotations _ _ => (unsupported, queue)
    | PatchTime _ _ => (unsupported, queue)
    | PutApprove _ => (unsupported, queue)
    end.

(** *** One image *)

(** A backend that serves one image, accepts every save and keeps the
    last body it was sent. *)
Definition serveImage (d : ImageWire.ImageData)
  : Backend (option ImageWire.SaveBody) :=
  λ X r saved,
    match r in Request X return X * option ImageWire.SaveBody with
    | GetImage _ => (Ok d, saved)
    | GetAiDetection _ => (Ok None, saved)
    | PutAnnotations _ body => (Ok tt, Some body)
    | PatchTime _ _ => (Ok tt, saved)
    | GetTask _ _ => (unsupported, saved)
    | GetResumeIndex _ => (unsupported, saved)
    | GetQueueSize _ => (unsupported, saved)
    | PutAnnotate _ _ _ => (unsupported, saved)
    | PutApprove _ => (unsupported, saved)
    end.

(** *** The annotation table under review *)

(** The approve endpoint over the engine's [approveById]. *)
Definition serveReview : Backend (gmap Z Engine.Annotation) :=
  λ X r table,
    match r in Request X return X * gmap Z Engine.Annotation with
    | PutApprove annotationId =>
        match Engine.approveById annotationId table with
        | (inr _, table') => (Ok tt, table')
        | (inl e, table') => (Fail (httpError e "Cannot approve"), table')
        end
    | GetTask _ _ => (unsupported, table)
    | GetResumeIndex _ => (unsupported, table)
    | GetQueueSize _ => (unsupported, table)
    | PutAnnotate _ _ _ => (unsupported, table)
    | GetImage _ => (unsupported, table)
    | GetAiDetection _ => (unsupported, table)
    | PutAnnotations _ _ => (unsupported, table)
    | PatchTime _ _ => (unsupported, table)
    end.

(** *** A backend that refuses some approvals *)

(** It refuses to approve the annotations of a list, approves every
    other one and keeps the ids it approved, latest first. *)
Definition refusing (refused : list Z) : Backend (list Z) :=
  λ X r approvedIds,
    match r in Request X return X * list Z with
    | PutApprove annotationId =>
        if bool_decide (annotationId ∈ refused)
        then (Fail (httpError Engine.StateError "Cannot approve"), approvedIds)
        else (Ok tt, annotationId :: approvedIds)
    | GetTask _ _ => (unsupported, approvedIds)
    | GetResumeIndex _ => (unsupported, approvedIds)
    | GetQueueSize _ => (unsupported, approvedIds)
    | PutAnnotate _ _ _ => (unsupported, approvedIds)
    | GetImage _ => (unsupported, approvedIds)
    | GetAiDetection _ => (unsupported, approvedIds)
    | PutAnnotations _ _ => (unsupported, approvedIds)
    | PatchTime _ _ => (unsupported, approvedIds)
    end.

End Backends.

(* ===================================================================== *)
(** ** Notions the properties are stated with *)
(* ===================================================================== *)

Module Notions.
Import ImageWire.

(** The [time_spent_seconds] of the category annotations that exist. *)
Definition savedTimes (d : ImageData) : list Z :=
  omap (λ cat, time_spent_seconds <$> annotation cat) (categories d).

(** The pending changes hold at least one selected option for the
    category. *)
Definition hasSelection (pc : gmap Z Pending) (cat : Category) : Prop :=
  ∃ pending ids, pc !! id cat = Some pending ∧
                 pending_selected_option_ids pending = Some ids ∧ ids ≠ [].

(** The category needs a selection of this annotator: every category
    does, except one another annotator has completed and this one has
    not touched. *)
Definition required (pc : gmap Z Pending) (cat : Category) : Prop :=
  ¬ (completed_by_other cat = true ∧ pc !! id cat = None).

(** A handler that only reads: every request it can come to issue,
    whatever the answers, is a [GET]. *)
Inductive ReadOnly {A : Type} : Prog A → Prop :=
| ReadOnly_Ret (a : A) : ReadOnly (Ret a)
| ReadOnly_Await {X : Type} (r : Request X) (k : X → Prog A) :
    is_write r = false → (∀ x, ReadOnly (k x)) → ReadOnly (Await r k).

(** A request that reads, or that submits a record as skipped. *)
Definition readsOrSkips {X : Type} (r : Request X) : bool :=
  match r with
  | PutAnnotate _ _ body => bool_decide (TaskWire.body_status body = skipped)
  | PutAnnotations _ _ | PatchTime _ _ | PutApprove _ => false
  | _ => true
  end.

(** A handler whose only writes are skips. *)
Inductive SkipsOnly {A : Type} : Prog A → Prop :=
| SkipsOnly_Ret (a : A) : SkipsOnly (Ret a)
| SkipsOnly_Await {X : Type} (r : Request X) (k : X → Prog A) :
    readsOrSkips r = true → (∀ x, SkipsOnly (k x)) → SkipsOnly (Await r k).

(** A backend whose store only changes on writes. *)
Definition ReadsKeepStore {Store : Type} (srv : Backend Store) : Prop :=
  ∀ X (r : Request X) store, is_write r = false → (srv X r store).2 = store.

(** The details of a 404 that [loadTask] reads as "all done". *)
Definition saysAllDone (detail : string) : bool :=
  Js.includes detail "all completed" || Js.includes detail "No images".

(** The approve requests for a list of annotation ids, as a log. *)
Definition approveRequests (ids : list Z) : list Issued :=
  (λ annotationId, issued (PutApprove annotationId)) <$> ids.

(** The approve operations of a log that succeeded on one id. *)
Definition successes (annotationId : Z) (log : list Engine.Observed)
  : list Engine.Observed :=
  filter (λ o, Engine.target o = annotationId ∧ Engine.answer o = inr tt) log.

(** Does the handler start by writing to the backend? *)
Definition submits {A : Type} (p : Prog A) : bool :=
  match p with
  | Await r _ => is_write r
  | Ret _ => false
  end.

(** A click on an option in the dropdown of a category: whether the
    dropdown is disabled, the category and the option, and the dropdown
    as it is then. *)
Record Click := mkClick {
  click_disabled : bool;
  click_category : Z;
  click_option : Z;
  click_dropdown : ImageAnnotationPage.Dropdown
}.

(** The click goes through [selectOption] and, when that calls
    [onChange], through [handleCategoryChange]. *)
Definition click (s : ImageAnnotationPage.State) (c : Click)
  : ImageAnnotationPage.State :=
  match (ImageAnnotationPage.selectOption (click_disabled c)
           (click_category c) (click_option c) (click_dropdown c)).2 with
  | Some (cat, value) => ImageAnnotationPage.handleCategoryChange cat value s
  | None => s
  end.

(** Was the dropdown of the category used, while enabled, in these
    clicks? *)
Definition used (categoryId : Z) (clicks : list Click) : bool :=
  existsb (λ c, negb (click_disabled c)
                && bool_decide (click_category c = categoryId)) clicks.

End Notions.

(** ** Looking at a run without its times *)

(** Everything below forgets the elapsed time and what derives from it:
    the timer and the warning of the pages, the [time_spent_seconds] of
    bodies and of the annotations the backend returns. *)
Module TimeBlind.
Import ImageWire.

Definition blindAnnotation (a : Annotation) : Annotation :=
  mkAnnotation (selected_option_ids a) (status a) (review_status a)
               (is_rework a) 0.

Definition blindCategory (c : Category) : Category :=
  mkCategory (id c) (name c) (blindAnnotation <$> annotation c)
             (completed_by_other c).

Definition blindImage (d : ImageData) : ImageData :=
  mkImageData (can_edit d) (is_improper d) (is_locked d) (data_is_rework d)
              (blindCategory <$> categories d) (next_image_id d)
              (prev_image_id d).

Definition blindState (s : ImageAnnotationPage.State)
  : ImageAnnotationPage.State :=
  ImageAnnotationPage.mkState
    (blindImage <$> ImageAnnotationPage.data s)
    (ImageAnnotationPage.loading s) (ImageAnnotationPage.saving s)
    (ImageAnnotationPage.error s) (ImageAnnotationPage.pendingChanges s)
    (ImageAnnotationPage.isAIGenerated s)
    (ImageAnnotationPage.maxAnnotationTime s)
    (ImageAnnotationPage.maxReworkTime s)
    (ImageAnnotationPage.isReworkMode s) 0 false.

Definition blindPage (s : AnnotationPage.State) : AnnotationPage.State :=
  AnnotationPage.setElapsedSeconds 0 s.

Definition blindRequest {X : Type} (r : Request X) : Request X :=
  match r in Request X return Request X with
  | PutAnnotate c i body =>
      PutAnnotate c i
        (TaskWire.mkAnnotateBody (TaskWire.body_selected_option_ids body)
           (TaskWire.body_is_duplicate body) (TaskWire.body_status body) 0)
  | PutAnnotations i body => PutAnnotations i (mkSaveBody (annotations body) 0)
  | PatchTime i _ => PatchTime i 0
  | GetTask c i => GetTask c i
  | GetResumeIndex c => GetResumeIndex c
  | GetQueueSize c => GetQueueSize c
  | GetImage i => GetImage i
  | GetAiDetection i => GetAiDetection i
  | PutApprove i => PutApprove i
  end.

Definition blindAnswer {X : Type} (r : Request X) : X → X :=
  match r in Request X return X → X with
  | GetImage _ =>
      λ res, match res with Ok d => Ok (blindImage d) | Fail e => Fail e end
  | GetTask _ _ => λ res, res
  | GetResumeIndex _ => λ res, res
  | GetQueueSize _ => λ res, res
  | PutAnnotate _ _ _ => λ res, res
  | GetAiDetection _ => λ res, res
  | PutAnnotations _ _ => λ res, res
  | PatchTime _ _ => λ res, res
  | PutApprove _ => λ res, res
  end.

(** Two handlers that cannot be told apart without the times: they end
    with results that are the [same], or issue requests that agree up
    to the times and go on alike on answers that agree up to the times. *)
Inductive Alike {A : Type} (same : A → A → Prop) : Prog A → Prog A → Prop :=
| Alike_Ret (a1 a2 : A) : same a1 a2 → Alike same (Ret a1) (Ret a2)
| Alike_Await {X : Type} (r1 r2 : Request X) (k1 k2 : X → Prog A) :
    blindRequest r1 = blindRequest r2 →
    (∀ x1 x2, blindAnswer r1 x1 = blindAnswer r1 x2 →
              Alike same (k1 x1) (k2 x2)) →
    Alike same (Await r1 k1) (Await r2 k2).

(** The outcome of a save, up to the times. *)
Definition sameSave (o1 o2 : bool * ImageAnnotationPage.State) : Prop :=
  o1.1 = o2.1 ∧ blindState o1.2 = blindState o2.2.

Definition sameSaved (o1 o2 : bool * AnnotationPage.State) : Prop :=
  o1.1 = o2.1 ∧ blindPage o1.2 = blindPage o2.2.

End TimeBlind.

(** ** Sample data *)

Module Samples.

(** An image with three categories: two annotated (30 and 75 seconds),
    one not yet. *)
Definition threeCategories : ImageWire.ImageData :=
  ImageWire.mkImageData true false false false
    [ ImageWire.mkCategory 1 "Lighting"
        (Some (ImageWire.mkAnnotation (Some [11]) completed None false 30))
        false;
      ImageWire.mkCategory 2 "Angle" None false;
      ImageWire.mkCategory 3 "Occlusion"
        (Some (ImageWire.mkAnnotation (Some [31]) completed None false 75))
        false ]
    None None.

(** The record of image 7 for category 1, with a given review status. *)
Definition sampleAnnotation (rs : option ReviewStatus) : Engine.Annotation :=
  Engine.mkAnnotation 7 1 3 [11] completed rs false 40.

(** The review table with image 7 and its two pending cells,
    annotations 1 and 2. *)
Definition twoPendingTable : ReviewWire.TableData :=
  ReviewWire.mkTableData
    [ ReviewWire.mkRow 7
        (<[1 := ReviewWire.mkCell 1 None [11] None]>
           (<[2 := ReviewWire.mkCell 2 None [21] None]> ∅)) ]
    [1; 2].

(** The dashboard with that table and image 7 selected. *)
Definition twoPending : AdminReview.State :=
  AdminReview.mkState (Some twoPendingTable) None [7] false false [] 0.

(** The image page with [threeCategories] loaded and nothing selected
    for "Angle". *)
Definition angleMissing : ImageAnnotationPage.State :=
  ImageAnnotationPage.mkState (Some threeCategories) false false ""
    (<[1 := ImageWire.mkPending (Some [11])]>
       (<[3 := ImageWire.mkPending (Some [31])]> ∅))
    None 120 120 false 75 false.

(** An image whose only category has two options stored, from before
    the dropdown allowed one. *)
Definition storedPair : ImageWire.ImageData :=
  ImageWire.mkImageData true false false false
    [ ImageWire.mkCategory 1 "Lighting"
        (Some (ImageWire.mkAnnotation (Some [11; 12]) completed None false 30))
        false ]
    None None.

(** The annotator's record of image 7: completed with option 11. *)
Definition doneSeven : TaskWire.CurrentAnnotation :=
  TaskWire.mkCurrentAnnotation (Some [11]) (Some false) completed (Some 40).

(** A queue of two images: 7 is completed, 8 is untouched. *)
Definition oneLeft : list Backends.Slot :=
  [ Backends.mkSlot 7 (Some doneSeven); Backends.mkSlot 8 None ].

(** The category page showing image 7, the first of the two. *)
Definition onSeven : AnnotationPage.State :=
  AnnotationPage.mkState (Some (TaskWire.mkTask 7 2 (Some doneSeven)))
    [11] (Some false) 0 false false "" false 40 false None.

(** The category page showing image 8, the last one, with option 21
    picked. *)
Definition onEight : AnnotationPage.State :=
  AnnotationPage.mkState (Some (TaskWire.mkTask 8 2 None))
    [21] None 1 false false "" false 12 false None.

(** The image page with [threeCategories] loaded, an option selected
    for each category and a given time on the timer. *)
Definition readyToSave (elapsed : Z) : ImageAnnotationPage.State :=
  ImageAnnotationPage.mkState (Some threeCategories) false false ""
    (<[1 := ImageWire.mkPending (Some [11])]>
       (<[2 := ImageWire.mkPending (Some [21])]>
          (<[3 := ImageWire.mkPending (Some [31])]> ∅)))
    None 120 120 false elapsed (bool_decide (120 ≤ elapsed)).

End Samples.

(* ===================================================================== *)
(** ** More of the client: pagination, routes, views and the review table *)
(* ===================================================================== *)

(** *** Pagination (admin dashboard and annotator home) *)

Module Pagination.

(** What [getPages] pushes: a page number or the string "...". *)
Inductive PageItem := PageNo (n : Z) | Ellipsis.

#[global] Instance PageItem_eq_dec : EqDecision PageItem.
Proof. solve_decision. Defined.

Definition maxVisible : Z := 5.

(** [start] and [end] of the window once [getPages] has settled them. *)
Definition window (currentPage totalPages : Z) : Z * Z :=
  let start := Z.max 1 (currentPage - maxVisible / 2) in
  let end_ := Z.min totalPages (start + maxVisible - 1) in
  let start :=
    if end_ - start + 1 <? maxVisible then Z.max 1 (end_ - maxVisible + 1)
    else start in
  (start, end_).

Definition getPages (currentPage totalPages : Z) : list PageItem :=
  let '(start, end_) := window currentPage totalPages in
  (if 1 <? start
   then PageNo 1 :: (if 2 <? start then [Ellipsis] else [])
   else [])
  ++ (PageNo <$> seqZ start (end_ - start + 1))
  ++ (if end_ <? totalPages
      then (if end_ <? totalPages - 1 then [Ellipsis] else [])
           ++ [PageNo totalPages]
      else []).

(** The page buttons of a list of items, left to right. *)
Definition pageNumbers (items : list PageItem) : list Z :=
  omap (λ item, match item with PageNo n => Some n | Ellipsis => None end) items.

(** [Prev] and [Next] are disabled on the first and on the last page. *)
Definition prevDisabled (currentPage : Z) : bool := bool_decide (currentPage = 1).
Definition nextDisabled (currentPage totalPages : Z) : bool :=
  bool_decide (currentPage = totalPages).

End Pagination.

(** *** The routes of the application *)

Module Routes.

Record User := mkUser { role : string }.

(** What [useAuth] gives a route. *)
Record Auth := mkAuth { user : option User; loading : bool }.

(** The paths of the route table. *)
Inductive Path :=
| Root                         (* "/" *)
| Login                        (* "/login" *)
| Admin                        (* "/admin/*" *)
| AnnotatorHome                (* "/annotator" *)
| AnnotatorCategory (categoryId : Z)
| AnnotatorImage (imageId : Z).

(** The pages behind the routes. *)
Inductive Page :=
| LoginPage | AdminDashboard | AnnotatorHomePage
| AnnotationPage (categoryId : Z) | ImageAnnotationPage (imageId : Z).

(** What a route element renders. *)
Inductive Rendered :=
| Spinner                      (* the loading screen of [ProtectedRoute] *)
| Nothing                      (* [null] *)
| Navigate (to : Path)
| Show (page : Page).

Definition ProtectedRoute (auth : Auth) (required : option string)
    (children : Page) : Rendered :=
  if loading auth then Spinner
  else match user auth with
       | None => Navigate Login
       | Some u =>
           match required with
           | Some r =>
               if negb (String.eqb r "") && negb (String.eqb (role u) r)
               then Navigate Root
               else Show children
           | None => Show children
           end
       end.

Definition RootRedirect (auth : Auth) : Rendered :=
  if loading auth then Nothing
  else match user auth with
       | None => Navigate Login
       | Some u =>
           if String.eqb (role u) "admin" then Navigate Admin
           else Navigate AnnotatorHome
       end.

(** The route table of [App]. *)
Definition App (auth : Auth) (path : Path) : Rendered :=
  match path with
  | Root => RootRedirect auth
  | Login => Show LoginPage
  | Admin => ProtectedRoute auth (Some "admin") AdminDashboard
  | AnnotatorHome => ProtectedRoute auth (Some "annotator") AnnotatorHomePage
  | AnnotatorCategory c =>
      ProtectedRoute auth (Some "annotator") (AnnotationPage c)
  | AnnotatorImage i =>
      ProtectedRoute auth (Some "annotator") (ImageAnnotationPage i)
  end.

(** The role a page is meant for, if any. *)
Definition audience (page : Page) : option string :=
  match page with
  | LoginPage => None
  | AdminDashboard => Some "admin"
  | AnnotatorHomePage | AnnotationPage _ | ImageAnnotationPage _ =>
      Some "annotator"
  end.

(** Where the login page sends a user who has just logged in. *)
Definition afterLogin (u : User) : Path :=
  if String.eqb (role u) "admin" then Admin else AnnotatorHome.

(** Follow the redirects from a path, at most [hops] of them. *)
Fixpoint settle (hops : nat) (auth : Auth) (path : Path) : Rendered :=
  match App auth path with
  | Navigate to =>
      match hops with
      | O => Navigate to
      | S hops => settle hops auth to
      end
  | rendered => rendered
  end.

End Routes.

(** *** What the image page derives from its state *)

Module ImagePageView.
Import ImageWire ImageAnnotationPage.

(** [data?.is_improper]. *)
Definition isImproper (s : State) : bool :=
  from_option is_improper false (data s).

(** [data?.is_locked && !data?.can_edit]. *)
Definition isLocked (s : State) : bool :=
  from_option is_locked false (data s)
  && negb (from_option can_edit false (data s)).

(** [data?.can_edit && !isImproper]. *)
Definition canEdit (s : State) : bool :=
  from_option can_edit false (data s) && negb (isImproper s).

(** [disabled] of the [Save] and [Save & Next] buttons. *)
Definition saveDisabled (s : State) : bool := saving s || negb (canEdit s).

(** The performance warning is drawn when [showTimeWarning && !isLocked]. *)
Definition warningDrawn (s : State) : bool :=
  showTimeWarning s && negb (isLocked s).

(** Compute remaining time for countdown display. *)
Definition remainingSeconds (s : State) : Z :=
  currentMaxTime s - elapsedSeconds s.

(** The colours of the countdown. *)
Inductive Tone := red | amber | emerald.

Definition countdownTone (s : State) : Tone :=
  if remainingSeconds s <=? 0 then red
  else if remainingSeconds s <=? 30 then amber
  else emerald.

(** [pending?.selected_option_ids?.length > 0]. *)
Definition hasPendingSelection (pc : gmap Z Pending) (catId : Z) : bool :=
  match pc !! catId with
  | Some pending =>
      match pending_selected_option_ids pending with
      | Some ids => bool_decide (0 < length ids)%nat
      | None => false
      end
  | None => false
  end.

(** The counter [completedCount] of the header. *)
Definition completedCount (s : State) : nat :=
  match data s with
  | Some d =>
      length (List.filter
                (λ cat, hasPendingSelection (pendingChanges s) (id cat)
                        || completed_by_other cat)
                (categories d))
  | None => 0%nat
  end.

(** The callback of [hasChanges] for one key of [pendingChanges]. *)
Definition changedEntry (d : option ImageData) (catId : Z) (pending : Pending)
  : bool :=
  match d ≫= λ d, List.find (λ c, bool_decide (id c = catId)) (categories d) with
  | None => false
  | Some cat =>
      match annotation cat with
      | None =>
          match pending_selected_option_ids pending with
          | Some ids => bool_decide (0 < length ids)%nat
          | None => false
          end
      | Some existing =>
          let existingIds : gset Z :=
            list_to_set (default [] (selected_option_ids existing)) in
          let pendingIds : gset Z :=
            list_to_set (default [] (pending_selected_option_ids pending)) in
          if bool_decide (size existingIds ≠ size pendingIds) then true
          else existsb (λ i, bool_decide (i ∉ pendingIds)) (elements existingIds)
      end
  end.

Definition hasChanges (s : State) : bool :=
  existsb (λ entry, changedEntry (data s) entry.1 entry.2)
          (map_to_list (pendingChanges s)).

(** The [.then] and [.catch] of the fetch of the time limits: each
    limit is what came, or 120 when it is missing or 0. *)
Definition timeLimitsArrived (res : Http (option Z * option Z)) (s : State)
  : State :=
  let '(annotationLimit, reworkLimit) :=
    match res with
    | Ok (a, r) => (Js.num_or a 120, Js.num_or r 120)
    | Fail _ => (120, 120)
    end in
  mkState (data s) (loading s) (saving s) (error s) (pendingChanges s)
          (isAIGenerated s) annotationLimit reworkLimit
          (isReworkMode s) (elapsedSeconds s) (showTimeWarning s).

(** [n] seconds on the page: each tick of the timer is followed by the
    effect that checks for the time warning. *)
Fixpoint secondsPass (n : nat) (s : State) : State :=
  match n with
  | O => s
  | S n => secondsPass n (checkTimeWarning (tick s))
  end.

(** The auto-save of the timer, every 10 seconds:
    [persistTime(imageIdRef.current, elapsedRef.current)]. *)
Definition autoSave (imageId : Z) (s : State) : Prog unit :=
  persistTime (Some imageId) (elapsedSeconds s).

(** Where [navigate] sends the browser from the image page. *)
Inductive Target := ToImage (imageId : Z) | ToAnnotatorHome.

(** The page and where the browser was last sent. *)
Record Browser := mkBrowser { page : State; navigated : option Target }.

Section WithImage.
Variable imageId : Z.

(** [handleBack]: report the time, go to the annotator home. *)
Definition handleBack (b : Browser) : Prog Browser :=
  _ ← persistTime (Some imageId) (elapsedSeconds (page b));
  Ret (mkBrowser (page b) (Some ToAnnotatorHome)).

(** [handleNavigate(id)]: nothing without an id. *)
Definition handleNavigate (target : option Z) (b : Browser) : Prog Browser :=
  match target with
  | Some i =>
      if Js.truthy_num (Some i) then
        _ ← persistTime (Some imageId) (elapsedSeconds (page b));
        Ret (mkBrowser (page b) (Some (ToImage i)))
      else Ret b
  | None => Ret b
  end.

(** [handleSaveAndNext]: the handlers it calls are those of the render
    it belongs to, so they see the page as it was before the save. *)
Definition handleSaveAndNext (b : Browser) : Prog Browser :=
  '(success, s') ← handleSave imageId (page b);
  if success : bool then
    match data (page b) ≫= next_image_id with
    | Some next =>
        if Js.truthy_num (Some next)
        then Ret (mkBrowser s' (Some (ToImage next)))
        else b' ← handleBack b; Ret (mkBrowser s' (navigated b'))
    | None => b' ← handleBack b; Ret (mkBrowser s' (navigated b'))
    end
  else Ret (mkBrowser s' (navigated b)).

(** The keys the page listens to. *)
Inductive Key := ArrowLeft | ArrowRight | Enter | KeyS | OtherKey.

Definition onKeyDown (inInput : bool) (key : Key) (ctrlKey : bool)
    (b : Browser) : Prog Browser :=
  if inInput then Ret b
  else if saveRefused (page b) then Ret b
  else
    let prev := data (page b) ≫= prev_image_id in
    let next := data (page b) ≫= next_image_id in
    match key with
    | ArrowLeft =>
        if Js.truthy_num prev then handleNavigate prev b else Ret b
    | ArrowRight =>
        if Js.truthy_num next then handleNavigate next b else Ret b
    | Enter | KeyS =>
        if ctrlKey then
          saved ← handleSave imageId (page b);
          Ret (mkBrowser saved.2 (navigated b))
        else Ret b
    | OtherKey => Ret b
    end.

End WithImage.

End ImagePageView.

(** *** More of the review tab *)

Module ReviewTable.
Import ReviewWire AdminReview.

(** **** Row selection *)

(** [new Set(ids)]: each id once, in the order of its first occurrence. *)
Definition newSet (ids : list Z) : list Z :=
  fold_left (λ set i, if bool_decide (i ∈ set) then set else set ++ [i]) ids [].

(** The updater of [toggleRowSelect]. *)
Definition toggleRow (imageId : Z) (prev : list Z) : list Z :=
  if bool_decide (imageId ∈ prev)
  then filter (λ i, i ≠ imageId) prev
  else prev ++ [imageId].

Definition toggleRowSelect (imageId : Z) (s : State) : State :=
  setSelectedRows (toggleRow imageId (selectedRows s)) s.

Definition toggleSelectAll (s : State) : State :=
  match tableData s with
  | None => s
  | Some td =>
      if bool_decide (length (selectedRows s) = length (images td))
      then setSelectedRows [] s
      else setSelectedRows (newSet (image_id <$> images td)) s
  end.

(** [cell && !cell.review_status]. *)
Definition isPendingCell (row : Row) (cat : Z) : bool :=
  match annotations row !! cat with
  | Some cell => bool_decide (review_status cell = None)
  | None => false
  end.

(** Count pending annotations in selected rows. *)
Definition selectedPendingCount (s : State) : nat :=
  match tableData s with
  | None => 0%nat
  | Some td =>
      fold_left
        (λ count imgId,
           match List.find (λ r, bool_decide (image_id r = imgId)) (images td) with
           | None => count
           | Some row =>
               fold_left (λ count cat,
                            if isPendingCell row cat then S count else count)
                         (categories td) count
           end)
        (selectedRows s) 0%nat
  end.

(** The floating bar shows the approve button when the count is positive. *)
Definition bulkButtonShown (s : State) : bool :=
  bool_decide (0 < length (selectedRows s))%nat
  && bool_decide (0 < selectedPendingCount s)%nat.

(** **** Keyboard shortcuts *)

(** The review tab around the page: the highlighted row, the help
    overlay and whether the table view is on. *)
Record Board := mkBoard {
  page : State;
  highlightedIdx : Z;
  showShortcuts : bool;
  tableView : bool
}.

Definition setPage v (b : Board) :=
  mkBoard v (highlightedIdx b) (showShortcuts b) (tableView b).
Definition setHighlightedIdx v (b : Board) :=
  mkBoard (page b) v (showShortcuts b) (tableView b).
Definition setShowShortcuts v (b : Board) :=
  mkBoard (page b) (highlightedIdx b) v (tableView b).

Inductive Key :=
| Question | Escape | ArrowLeft | ArrowRight | ArrowUp | ArrowDown
| KeyA | Enter | OtherKey.

(** [rows.findIndex(r => r.image_id === imageId)], -1 when there is none. *)
Fixpoint findIndex (imageId : Z) (rows : list Row) : Z :=
  match rows with
  | [] => -1
  | r :: rest =>
      if bool_decide (image_id r = imageId) then 0
      else let i := findIndex imageId rest in
           if i <? 0 then -1 else i + 1
  end.

(** [rows[i]], [undefined] out of range. *)
Definition rowAt (rows : list Row) (i : Z) : option Row :=
  if i <? 0 then None else rows !! Z.to_nat i.

(** The cells the [A] shortcut approves. *)
Definition shortcutPending (td : TableData) (row : Row) : list Cell :=
  List.filter (λ cell, bool_decide (review_status cell = None))
              (omap (λ cat, annotations row !! cat) (categories td)).

(** [Promise.all(pending.map(handleApprove))]: every request is made,
    a failure ends in its own [alert]. *)
Fixpoint approveCells (cells : list Cell) (s : State) : Prog State :=
  match cells with
  | [] => Ret s
  | cell :: rest =>
      s ← handleApprove (annotation_id cell) s;
      approveCells rest s
  end.

Definition handleKeyDown (inField : bool) (key : Key) (b : Board)
  : Prog Board :=
  (* Don't intercept when typing in inputs *)
  if inField then Ret b
  else match key with
  | Question => Ret (setShowShortcuts (negb (showShortcuts b)) b)
  | _ =>
    match modalRow (page b), tableData (page b) with
    | Some row, Some td =>
        (* Modal-specific shortcuts *)
        let idx := findIndex (image_id row) (images td) in
        match key with
        | Escape => Ret (setPage (setModalRow None (page b)) b)
        | ArrowLeft =>
            if 0 <? idx
            then Ret (setPage (setModalRow (rowAt (images td) (idx - 1))
                                           (page b)) b)
            else Ret b
        | ArrowRight =>
            if idx <? Z.of_nat (length (images td)) - 1
            then Ret (setPage (setModalRow (rowAt (images td) (idx + 1))
                                           (page b)) b)
            else Ret b
        | KeyA =>
            match shortcutPending td row with
            | [] => Ret b
            | pending =>
                s ← approveCells pending (page b);
                Ret (setPage (refreshData s) b)
            end
        | _ => Ret b
        end
    | _, Some td =>
        (* Table-specific shortcuts (no modal) *)
        if tableView b && bool_decide (0 < length (images td))%nat then
          match key with
          | ArrowDown =>
              Ret (setHighlightedIdx
                     (Z.min (highlightedIdx b + 1)
                            (Z.of_nat (length (images td)) - 1)) b)
          | ArrowUp =>
              Ret (setHighlightedIdx (Z.max (highlightedIdx b - 1) 0) b)
          | Enter =>
              if 0 <=? highlightedIdx b
              then Ret (setPage (setModalRow
                                   (rowAt (images td) (highlightedIdx b))
                                   (page b)) b)
              else Ret b
          | Escape =>
              Ret (setHighlightedIdx (-1)
                     (setPage (setSelectedRows [] (page b)) b))
          | _ => Ret b
          end
        else Ret b
    | _, None => Ret b
    end
  end.

(** Sync modalRow with latest tableData after refresh. *)
Definition syncModalRow (s : State) : State :=
  match modalRow s, tableData s with
  | Some row, Some td =>
      setModalRow
        (List.find (λ img, bool_decide (image_id img = image_id row)) (images td))
        s
  | _, _ => s
  end.

(** **** Reloads *)

Definition setTableData v (s : State) :=
  mkState v (modalRow s) (selectedRows s) (bulkApproving s) (saving s)
          (alerts s) (refreshes s).

(** [loadTable] once its answers are there ([res] is the table when
    the four requests succeeded; the stats, categories and users that
    come with it are not part of the page modelled here): the table is
    replaced, the selection emptied and the highlight taken away.  A
    failure is only logged. *)
Definition loadTableArrived (res : Http TableData) (b : Board) : Board :=
  match res with
  | Ok td =>
      setHighlightedIdx (-1)
        (setPage (setSelectedRows [] (setTableData (Some td) (page b))) b)
  | Fail _ => b
  end.

(** One reload that [refreshData] started, carried out: in the table
    view it is [loadTable], and a new table sets off the effect that
    syncs the open row; in the cards view it is [loadCards], which
    leaves the table alone. *)
Definition reload (res : Http TableData) (b : Board) : Board :=
  if tableView b then
    match res with
    | Ok _ =>
        let b := loadTableArrived res b in
        setPage (syncModalRow (page b)) b
    | Fail _ => b
    end
  else b.

(** **** Edits in the detail modal *)

Definition editOfCell (cell : Cell) : Edit :=
  mkEdit (selected_options cell) (is_duplicate cell).

Definition getEditsForCat (row : Row) (edits : gmap Z Edit) (catId : Z)
  : option Edit :=
  match edits !! catId with
  | Some e => Some e
  | None => editOfCell <$> annotations row !! catId
  end.

(** The two fields [setEditForCat] is called with. *)
Inductive Field := Selections (v : list Z) | IsDuplicate (v : option bool).

(** [setEditForCat]; without an edit and without a cell the updater
    reads [selected_options] of [undefined] and throws ([None]). *)
Definition setEditForCat (row : Row) (catId : Z) (field : Field)
    (prev : gmap Z Edit) : option (gmap Z Edit) :=
  match getEditsForCat row prev catId with
  | Some current =>
      Some (<[catId :=
                match field with
                | Selections v => mkEdit v (isDuplicate current)
                | IsDuplicate v => mkEdit (selections current) v
                end]> prev)
  | None => None
  end.

(** [toggleOption(catId, optId)] of the modal. *)
Definition toggleOption (row : Row) (catId optId : Z) (edits : gmap Z Edit)
  : gmap Z Edit :=
  match getEditsForCat row edits catId with
  | None => edits
  | Some current =>
      let newSels :=
        if Js.arr_includes (selections current) optId
        then filter (λ i, i ≠ optId) (selections current)
        else selections current ++ [optId] in
      default edits (setEditForCat row catId (Selections newSels) edits)
  end.

Definition hasAnyChanges (categories : list Z) (row : Row)
    (edits : gmap Z Edit) : bool :=
  existsb (hasChangesForCat row edits) categories.

(** What approvals change of the page up to the return of the handler
    that makes them: [n] reloads more are started and at most [n]
    alerts more are shown. *)
Definition approvedSome (n : nat) (s s' : State) : Prop :=
  selectedRows s' = selectedRows s ∧
  bulkApproving s' = bulkApproving s ∧ saving s' = saving s ∧
  refreshes s' = (refreshes s + n)%nat ∧
  (length (alerts s) ≤ length (alerts s') ≤ length (alerts s) + n)%nat.

(** The cells [handleApproveAll] does not pass over. *)
Definition notPassedOver (row : Row) (edits : gmap Z Edit) (cells : list Cell)
  : list Cell :=
  List.filter (λ cell, negb (hasChangesForCat row edits (annotation_id cell)))
              cells.

End ReviewTable.

(** *** CellEditPopover of the review table *)

Module CellEditPopover.
Import ReviewWire.

(** The two [useState] cells of the popover. *)
Record State := mkState { selections : list Z; isDuplicate : option bool }.

(** Both start from the cell. *)
Definition mount (cell : Cell) : State :=
  mkState (selected_options cell) (is_duplicate cell).

Definition toggleOpt (id : Z) (s : State) : State :=
  mkState (if Js.arr_includes (selections s) id
           then filter (λ x, x ≠ id) (selections s)
           else selections s ++ [id])
          (isDuplicate s).

(** [setIsDuplicate((v) => !v)]; [!null] is [true]. *)
Definition toggleDuplicate (s : State) : State :=
  mkState (selections s) (Some (negb (default false (isDuplicate s)))).

(** [checked={isDuplicate || false}]. *)
Definition duplicateChecked (s : State) : bool :=
  default false (isDuplicate s).

Definition hasChanges (cell : Cell) (s : State) : bool :=
  let origIds : gset Z := list_to_set (selected_options cell) in
  if bool_decide (length (selections s) ≠ size origIds) then true
  else if existsb (λ id, bool_decide (id ∉ origIds)) (selections s) then true
  else bool_decide (isDuplicate s ≠ is_duplicate cell).

(** What the green button calls when clicked. *)
Inductive Action :=
| onSave (annotationId : Z) (selectedIds : list Z) (isDuplicate : option bool)
| onApprove (annotationId : Z).

Definition greenButton (cell : Cell) (s : State) : Action :=
  if hasChanges cell s
  then onSave (annotation_id cell) (selections s) (isDuplicate s)
  else onApprove (annotation_id cell).

End CellEditPopover.

(** *** Notifications of the annotator home *)

Module AnnotatorHome.

Record Notification := mkNotification {
  id : Z;
  is_read : bool;
  image_id : option Z
}.

(** The notifications and the count on the bell. *)
Record State := mkState {
  notifications : list Notification;
  unreadCount : Z
}.

Definition initial : State := mkState [] 0.

(** [n => !n.is_read]. *)
Definition unread (ns : list Notification) : list Notification :=
  List.filter (λ n, negb (is_read n)) ns.

(** [loadNotifications] once the answer is there; a failure is only
    logged. *)
Definition loadNotifications (res : Http (list Notification)) (s : State)
  : State :=
  match res with
  | Ok data => mkState data (Z.of_nat (length (unread data)))
  | Fail _ => s
  end.

Definition loadUnreadCount (res : Http Z) (s : State) : State :=
  match res with
  | Ok count => mkState (notifications s) count
  | Fail _ => s
  end.

Definition markRead (n : Notification) : Notification :=
  mkNotification (id n) true (image_id n).

(** [markAsRead(id)] once the answer is there. *)
Definition markAsRead (notificationId : Z) (res : Http unit) (s : State)
  : State :=
  match res with
  | Ok _ =>
      mkState ((λ n, if bool_decide (id n = notificationId)
                     then markRead n else n) <$> notifications s)
              (Z.max 0 (unreadCount s - 1))
  | Fail _ => s
  end.

Definition markAllAsRead (res : Http unit) (s : State) : State :=
  match res with
  | Ok _ => mkState (markRead <$> notifications s) 0
  | Fail _ => s
  end.

(** The click on a notification: the id [markAsRead] is called with,
    if it is, and the image the browser is sent to, if any. *)
Definition onClick (n : Notification) : option Z * option Z :=
  (if negb (is_read n) then Some (id n) else None,
   match image_id n with
   | Some i => if Js.truthy_num (Some i) then Some i else None
   | None => None
   end).

(** The badge of the bell: nothing, the count, or "9+". *)
Inductive Badge := NoBadge | Count (n : Z) | NinePlus.

Definition badge (s : State) : Badge :=
  if 0 <? unreadCount s
  then if 9 <? unreadCount s then NinePlus else Count (unreadCount s)
  else NoBadge.

End AnnotatorHome.

(** *** What a handler can end with *)

Module Outcomes.

(** Every result the handler can end with, whatever the answers. *)
Inductive Ends {A : Type} (P : A → Prop) : Prog A → Prop :=
| Ends_Ret (a : A) : P a → Ends P (Ret a)
| Ends_Await {X : Type} (r : Request X) (k : X → Prog A) :
    (∀ x, Ends P (k x)) → Ends P (Await r k).

(** The handler issues no request at all. *)
Definition silent {A : Type} (p : Prog A) : bool :=
  match p with Ret _ => true | Await _ _ => false end.

End Outcomes.

(** *** More sample data *)

Module MoreSamples.

(** An image with one category, annotated with a given time, and a
    second category another annotator has completed. *)
Definition savedFor (seconds : Z) : ImageWire.ImageData :=
  ImageWire.mkImageData true false false false
    [ ImageWire.mkCategory 1 "Lighting"
        (Some (ImageWire.mkAnnotation (Some [11]) completed None false seconds))
        false;
      ImageWire.mkCategory 2 "Angle" None true ]
    None (Some 8).

(** Image 7 in review: one cell never reviewed, one back from rework. *)
Definition reworkedRow : ReviewWire.Row :=
  ReviewWire.mkRow 7
    (<[1 := ReviewWire.mkCell 101 None [11] None]>
       (<[2 := ReviewWire.mkCell 102 (Some rework_completed) [21] None]> ∅)).

(** A table of two images, the second without annotations. *)
Definition reworkedTable : ReviewWire.TableData :=
  ReviewWire.mkTableData [reworkedRow; ReviewWire.mkRow 8 ∅] [1; 2].

(** The review tab on [reworkedTable] with a given row open. *)
Definition reviewing (open : option ReviewWire.Row) : ReviewTable.Board :=
  ReviewTable.mkBoard
    (AdminReview.mkState (Some reworkedTable) open [] false false [] 0)
    (-1) false true.

End MoreSamples.
(* ===================================================================== *)
(** * Properties *)
(* ===================================================================== *)

(** ** Selections of the category page *)

Section ToggleOption.
Import AnnotationPage.

Lemma arr_includes_true (xs : list Z) (x : Z) :
  Js.arr_includes xs x = true ↔ x ∈ xs.
Proof. unfold Js.arr_includes. by rewrite bool_decide_eq_true. Qed.

Lemma arr_includes_false (xs : list Z) (x : Z) :
  Js.arr_includes xs x = false ↔ x ∉ xs.
Proof. unfold Js.arr_includes. by rewrite bool_decide_eq_false. Qed.

Lemma toggleOption_present (optionId : Z) (prev : list Z) :
  optionId ∈ prev →
  toggleOption optionId prev = filter (λ id, id ≠ optionId) prev.
Proof.
  intros Hin. unfold toggleOption.
  by rewrite (proj2 (arr_includes_true prev optionId) Hin).
Qed.

Lemma toggleOption_absent (optionId : Z) (prev : list Z) :
  optionId ∉ prev → toggleOption optionId prev = prev ++ [optionId].
Proof.
  intros Hin. unfold toggleOption.
  by rewrite (proj2 (arr_includes_false prev optionId) Hin).
Qed.

(** Filtering an id out of a list that does not hold it changes nothing. *)
Lemma filter_out_absent (optionId : Z) (l : list Z) :
  optionId ∉ l → filter (λ id, id ≠ optionId) l = l.
Proof.
  induction l as [|x l IH]; intros Hnot; [done|].
  apply not_elem_of_cons in Hnot as [Hne Hl].
  rewrite filter_cons_True by congruence. by rewrite IH.
Qed.

(** A duplicate-free list is its [optionId]-free part with [optionId]
    put back, up to order. *)
Lemma filter_out_present (optionId : Z) (l : list Z) :
  NoDup l → optionId ∈ l →
  filter (λ id, id ≠ optionId) l ++ [optionId] ≡ₚ l.
Proof.
  induction 1 as [|x l Hx Hnd IH]; intros Hin.
  - by apply elem_of_nil in Hin.
  - destruct (decide (x = optionId)) as [->|Hne].
    + rewrite filter_cons_False by (intros Hne; by apply Hne).
      rewrite filter_out_absent by done.
      symmetry. apply Permutation_cons_append.
    + rewrite filter_cons_True by done.
      apply elem_of_cons in Hin as [?|Hin]; [congruence|].
      simpl. by rewrite IH.
Qed.

Lemma toggleOption_elem_of (optionId x : Z) (prev : list Z) :
  x ∈ toggleOption optionId prev ↔
  (x ≠ optionId ∧ x ∈ prev) ∨ (x = optionId ∧ optionId ∉ prev).
Proof.
  destruct (decide (optionId ∈ prev)) as [Hin|Hout].
  - rewrite toggleOption_present by done.
    rewrite list_elem_of_filter. split.
    + intros [Hne Hx]. by left.
    + intros [[Hne Hx]|[_ Hout]]; done.
  - rewrite toggleOption_absent by done.
    rewrite elem_of_app, list_elem_of_singleton. split.
    + intros [Hx| ->]; [left|right]; split; try done.
      intros ->. done.
    + intros [[_ Hx]|[-> _]]; [by left|by right].
Qed.

Lemma toggleOption_NoDup (optionId : Z) (prev : list Z) :
  NoDup prev → NoDup (toggleOption optionId prev).
Proof.
  intros Hnd. destruct (decide (optionId ∈ prev)) as [Hin|Hout].
  - rewrite toggleOption_present by done. by apply NoDup_filter.
  - rewrite toggleOption_absent by done.
    apply NoDup_app. split_and!; [done| |apply NoDup_singleton].
    intros x Hx ->%list_elem_of_singleton. done.
Qed.

(** Every selection reached from the empty one by toggling is free of
    duplicates. *)
Lemma toggled_NoDup (clicks : list Z) :
  NoDup (fold_left (λ sel optionId, toggleOption optionId sel) clicks []).
Proof.
  assert (∀ sel, NoDup sel →
            NoDup (fold_left (λ sel optionId, toggleOption optionId sel)
                             clicks sel)) as Hgen.
  { induction clicks as [|c clicks IH]; intros sel Hsel; [done|].
    simpl. apply IH. by apply toggleOption_NoDup. }
  apply Hgen, NoDup_nil_2.
Qed.

(** C9, as written, fails on the order of the list: toggling the
    first of two selected options twice moves it to the end. *)
Lemma toggleOption_twice_reorders :
  NoDup [1; 2] ∧
  toggleOption 1 (toggleOption 1 [1; 2]) = [2; 1] ∧
  toggleOption 1 (toggleOption 1 [1; 2]) ≠ [1; 2].
Proof.
  split_and!; [|reflexivity|discriminate].
  apply NoDup_cons; split; [|apply NoDup_singleton].
  by intros ?%list_elem_of_singleton.
Qed.

(** C9, amended.  [toggleOption] removes the option id if it is in
    the selection and appends it otherwise.  On a selection without
    duplicates, toggling the same id twice gives back the same
    options, possibly in another order (the very same list when the
    id was not selected), and toggling keeps the selection free of
    duplicates. *)
Theorem toggleOption_involutive_up_to_order (optionId : Z) (prev : list Z) :
  (optionId ∈ prev →
     toggleOption optionId prev = filter (λ id, id ≠ optionId) prev
     ∧ optionId ∉ toggleOption optionId prev) ∧
  (optionId ∉ prev → toggleOption optionId prev = prev ++ [optionId]) ∧
  (optionId ∉ prev →
     toggleOption optionId (toggleOption optionId prev) = prev) ∧
  (NoDup prev →
     toggleOption optionId (toggleOption optionId prev) ≡ₚ prev
     ∧ NoDup (toggleOption optionId prev)
     ∧ NoDup (toggleOption optionId (toggleOption optionId prev))).
Proof.
  split_and!.
  - intros Hin. split; [by apply toggleOption_present|].
    rewrite toggleOption_elem_of. intros [[Hne _]|[_ Hout]]; done.
  - apply toggleOption_absent.
  - intros Hout. rewrite (toggleOption_absent _ _ Hout).
    rewrite toggleOption_present by set_solver.
    rewrite filter_app, filter_out_absent by done.
    rewrite filter_cons_False by (intros Hne; by apply Hne).
    by rewrite filter_nil, app_nil_r.
  - intros Hnd. split_and!.
    + destruct (decide (optionId ∈ prev)) as [Hin|Hout].
      * rewrite (toggleOption_present _ _ Hin).
        rewrite toggleOption_absent.
        { by apply filter_out_present. }
        rewrite list_elem_of_filter. intros [Hne _]. done.
      * rewrite (toggleOption_absent _ _ Hout).
        rewrite toggleOption_present by set_solver.
        rewrite filter_app, filter_out_absent by done.
        rewrite filter_cons_False by (intros Hne; by apply Hne).
        by rewrite filter_nil, app_nil_r.
    + by apply toggleOption_NoDup.
    + by do 2 apply toggleOption_NoDup.
Qed.

Lemma toggleOption_involutive_up_to_order_witness :
  toggleOption 1 (toggleOption 1 [1; 2]) ≡ₚ [1; 2] ∧
  toggleOption 3 (toggleOption 3 [1; 2]) = [1; 2].
Proof.
  split.
  - apply (toggleOption_involutive_up_to_order 1 [1; 2]).
    apply NoDup_cons; split; [|apply NoDup_singleton].
    by intros ?%list_elem_of_singleton.
  - apply (toggleOption_involutive_up_to_order 3 [1; 2]).
    intros Hin. repeat (apply elem_of_cons in Hin as [?|Hin]; [done|]).
    by apply elem_of_nil in Hin.
Defined.

End ToggleOption.

(** ** The single-selection dropdown of the image page *)

Section SelectOption.
Import ImageWire ImageAnnotationPage Notions Samples.

Lemma asArray_length (newSelected : option Z) :
  (length (asArray newSelected) ≤ 1)%nat.
Proof.
  destruct newSelected as [n|]; simpl; [|lia].
  destruct (n =? 0); simpl; lia.
Qed.

Lemma asArray_truthy (n : Z) : n ≠ 0 → asArray (Some n) = [n].
Proof.
  intros Hn. simpl. by rewrite (proj2 (Z.eqb_neq n 0) Hn).
Qed.

(** A disabled dropdown hands nothing over and stays as it is. *)
Lemma selectOption_disabled (categoryId optionId : Z) (d : Dropdown) :
  selectOption true categoryId optionId d = (d, None).
Proof. reflexivity. Qed.

(** What one click hands over: nothing from a disabled dropdown, else
    an entry for the category with zero or one option id. *)
Lemma selectOption_hands_over
    (disabled : bool) (categoryId optionId : Z) (d : Dropdown) (s : State) :
  match (selectOption disabled categoryId optionId d).2 with
  | None => disabled = true
  | Some (cat, value) =>
      disabled = false ∧ cat = categoryId ∧
      pendingChanges (handleCategoryChange cat value s) !! categoryId
        = Some value ∧
      ∃ ids, pending_selected_option_ids value = Some ids ∧
             (length ids ≤ 1)%nat ∧
             (selectedOption d = Some optionId →
                ids = [] ∧
                selectedOption (selectOption disabled categoryId optionId d).1
                  = None) ∧
             (selectedOption d ≠ Some optionId → optionId ≠ 0 →
                ids = [optionId] ∧
                selectedOption (selectOption disabled categoryId optionId d).1
                  = Some optionId)
  end.
Proof.
  destruct disabled; [reflexivity|].
  unfold selectOption. cbn [snd fst].
  split_and!; [done|done|apply lookup_insert_eq|].
  eexists. split; [reflexivity|]. split_and!.
  - apply asArray_length.
  - intros Hsel. by rewrite bool_decide_eq_true_2.
  - intros Hsel Hid. rewrite bool_decide_eq_false_2 by done.
    split; [by apply asArray_truthy|done].
Qed.

(** A click changes the entry of its own category at most. *)
Lemma click_entry (s : State) (c : Click) (categoryId : Z) :
  if negb (click_disabled c) && bool_decide (click_category c = categoryId)
  then ∃ ids, pendingChanges (click s c) !! categoryId
              = Some (mkPending (Some ids)) ∧ (length ids ≤ 1)%nat
  else pendingChanges (click s c) !! categoryId
       = pendingChanges s !! categoryId.
Proof.
  unfold click, selectOption. destruct (click_disabled c); cbn; [done|].
  case_bool_decide as Hcat.
  - subst categoryId. eexists. split; [apply lookup_insert_eq|].
    apply asArray_length.
  - by apply lookup_insert_ne.
Qed.

Lemma clicks_entry (clicks : list Click) (s0 : State) (categoryId : Z) :
  if used categoryId clicks
  then ∃ ids, pendingChanges (fold_left click clicks s0) !! categoryId
              = Some (mkPending (Some ids)) ∧ (length ids ≤ 1)%nat
  else pendingChanges (fold_left click clicks s0) !! categoryId
       = pendingChanges s0 !! categoryId.
Proof.
  induction clicks as [|c clicks IH] using rev_ind; [done|].
  unfold used in *. rewrite fold_left_app, existsb_app. cbn.
  rewrite orb_false_r.
  pose proof (click_entry (fold_left click clicks s0) c categoryId) as Hc.
  destruct (negb (click_disabled c)
            && bool_decide (click_category c = categoryId)).
  - by rewrite orb_true_r.
  - rewrite orb_false_r, Hc.
    by destruct (existsb _ clicks).
Qed.

Lemma click_keeps_page (s : State) (c : Click) :
  data (click s c) = data s ∧ saving (click s c) = saving s ∧
  elapsedSeconds (click s c) = elapsedSeconds s.
Proof.
  unfold click. by destruct (selectOption _ _ _ _).2 as [[cat value]|].
Qed.

(** C8, as written, fails on what is sent: an image comes with two
    options stored for its category, [loadImage] seeds the pending
    changes with them, and [handleSave], with no click made, sends
    both.  It also fails on an option whose id is 0: selecting it
    hands over the empty list, since the code tests the new selection
    for truthiness. *)
Lemma stored_pair_is_sent :
  pendingChanges (loadImageArrived storedPair (Ok None) initial) !! 1
  = Some (mkPending (Some [11; 12])) ∧
  (∃ k, handleSave 9 (loadImageArrived storedPair (Ok None) initial)
        = Await (PutAnnotations 9
                   (mkSaveBody
                      (pendingChanges
                         (loadImageArrived storedPair (Ok None) initial))
                      30)) k) ∧
  selectOption false 1 0 (mkDropdown true (Some 11))
  = (mkDropdown true (Some 0), Some (1, mkPending (Some []))).
Proof. split_and!; [reflexivity| |reflexivity]. eexists. reflexivity. Qed.

(** C8.  Whatever [selectOption] hands to [onChange] holds zero or one
    option id: the option clicked when it was not the selected one
    (for an option id other than 0), and nothing when the selected
    option is clicked again; a disabled dropdown hands nothing over.
    So after any clicks the entry of a category whose dropdown was
    used holds zero or one option id, while the entry of a category
    whose dropdown was not used is what it was before them, which
    after [loadImage] is the stored selection, whatever its length.
    [handleSave], when it sends, sends these entries as they are. *)
Theorem selectOption_at_most_one
    (imageId : Z) (s0 : State) (clicks : list Click) (categoryId : Z) :
  (∀ disabled optionId d s,
     match (selectOption disabled categoryId optionId d).2 with
     | None => disabled = true
     | Some (cat, value) =>
         disabled = false ∧ cat = categoryId ∧
         pendingChanges (handleCategoryChange cat value s) !! categoryId
           = Some value ∧
         ∃ ids, pending_selected_option_ids value = Some ids ∧
                (length ids ≤ 1)%nat ∧
                (selectedOption d = Some optionId →
                   ids = [] ∧
                   selectedOption
                     (selectOption disabled categoryId optionId d).1 = None) ∧
                (selectedOption d ≠ Some optionId → optionId ≠ 0 →
                   ids = [optionId] ∧
                   selectedOption
                     (selectOption disabled categoryId optionId d).1
                   = Some optionId)
     end) ∧
  (used categoryId clicks = true →
   ∃ ids, pendingChanges (fold_left click clicks s0) !! categoryId
          = Some (mkPending (Some ids)) ∧ (length ids ≤ 1)%nat) ∧
  (used categoryId clicks = false →
   pendingChanges (fold_left click clicks s0) !! categoryId
   = pendingChanges s0 !! categoryId) ∧
  (saveRefused (fold_left click clicks s0) = false →
   valid (validateAllCategoriesSelected (fold_left click clicks s0)) = true →
   ∃ k, handleSave imageId (fold_left click clicks s0)
        = Await (PutAnnotations imageId
                   (mkSaveBody (pendingChanges (fold_left click clicks s0))
                               (elapsedSeconds (fold_left click clicks s0))))
                k).
Proof.
  pose proof (clicks_entry clicks s0 categoryId) as Hentry.
  split_and!.
  - intros disabled optionId d s. apply selectOption_hands_over.
  - intros Hused. by rewrite Hused in Hentry.
  - intros Hused. by rewrite Hused in Hentry.
  - intros Href Hvalid. unfold handleSave. rewrite Href, Hvalid. cbn.
    eexists. reflexivity.
Qed.

Lemma selectOption_at_most_one_witness :
  (∃ ids, pendingChanges
            (fold_left click [mkClick false 1 12 (mkDropdown true (Some 11))]
               (loadImageArrived storedPair (Ok None) initial)) !! 1
          = Some (mkPending (Some ids)) ∧ (length ids ≤ 1)%nat) ∧
  pendingChanges
    (fold_left click [mkClick false 2 12 (mkDropdown true None)]
       (loadImageArrived storedPair (Ok None) initial)) !! 1
  = Some (mkPending (Some [11; 12])).
Proof.
  split.
  - destruct (selectOption_at_most_one 9
                (loadImageArrived storedPair (Ok None) initial)
                [mkClick false 1 12 (mkDropdown true (Some 11))] 1)
      as (_ & Hused & _).
    by apply Hused.
  - destruct (selectOption_at_most_one 9
                (loadImageArrived storedPair (Ok None) initial)
                [mkClick false 2 12 (mkDropdown true None)] 1)
      as (_ & _ & Hnot & _).
    rewrite Hnot; reflexivity.
Defined.

End SelectOption.

(** ** The timer of the image page *)

Section LoadImageTimer.
Import ImageWire ImageAnnotationPage Notions Samples.

Lemma loadCategory_time (acc : gmap Z Pending * Z) (cat : Category) :
  (loadCategory acc cat).2
  = match annotation cat with
    | Some a => Z.max acc.2 (time_spent_seconds a)
    | None => acc.2
    end.
Proof.
  unfold loadCategory. destruct (annotation cat) as [a|]; [|done].
  cbn [snd]. destruct (Z.ltb_spec acc.2 (time_spent_seconds a)); lia.
Qed.

Lemma loadCategories_time_from (cats : list Category)
    (acc : gmap Z Pending * Z) :
  (fold_left loadCategory cats acc).2
  = fold_left Z.max (omap (λ cat, time_spent_seconds <$> annotation cat) cats)
              acc.2.
Proof.
  revert acc. induction cats as [|cat cats IH]; intros acc; [done|].
  cbn [fold_left]. rewrite IH, loadCategory_time.
  destruct (annotation cat) as [a|] eqn:Ea; csimpl; rewrite Ea; reflexivity.
Qed.

Lemma fold_max_ge_start (ts : list Z) (m : Z) : m ≤ fold_left Z.max ts m.
Proof.
  revert m. induction ts as [|t ts IH]; intros m; simpl; [lia|].
  specialize (IH (Z.max m t)). lia.
Qed.

Lemma fold_max_upper (ts : list Z) (m : Z) :
  Forall (λ t, t ≤ fold_left Z.max ts m) ts.
Proof.
  revert m. induction ts as [|t ts IH]; intros m; simpl; constructor.
  - pose proof (fold_max_ge_start ts (Z.max m t)). lia.
  - apply IH.
Qed.

Lemma fold_max_attained (ts : list Z) (m : Z) :
  fold_left Z.max ts m = m ∨ fold_left Z.max ts m ∈ ts.
Proof.
  revert m. induction ts as [|t ts IH]; intros m; simpl; [by left|].
  destruct (IH (Z.max m t)) as [Heq|Hin].
  - rewrite Heq. destruct (Z.max_spec m t) as [[_ ->]|[_ ->]].
    + right. apply elem_of_cons. by left.
    + by left.
  - right. apply elem_of_cons. by right.
Qed.

(** The timer [loadImage] resumes from. *)
Lemma loadImageArrived_elapsed (d : ImageData) (ai : Http (option bool))
    (s : State) :
  elapsedSeconds (loadImageArrived d ai s)
  = fold_left Z.max (savedTimes d) 0.
Proof.
  unfold loadImageArrived, loadCategories, savedTimes.
  rewrite <- (loadCategories_time_from (categories d) (∅, 0)).
  destruct (fold_left loadCategory (categories d) (∅, 0)); reflexivity.
Qed.

Section WithBackend.
Context {Store : Type} (srv : Backend Store).

(** C10.  When [loadImage] gets the image, the timer is set to the
    largest [time_spent_seconds] among the category annotations of
    the image, counted from 0: it is 0 when there is no annotation,
    it is never below a stored value, and it is one of the stored
    values as soon as one of them is positive (or they are all
    non-negative and there is one). *)
Theorem loadImage_resumes_timer (imgId : Z) (d : ImageData) (s : State)
    (store store' : Store) :
  srv _ (GetImage imgId) store = (Ok d, store') →
  let loaded := (run srv (loadImage imgId s) store).1.1 in
  data loaded = Some d ∧
  elapsedSeconds loaded = fold_left Z.max (savedTimes d) 0 ∧
  Forall (λ t, t ≤ elapsedSeconds loaded) (savedTimes d) ∧
  (∀ cat a, cat ∈ categories d → annotation cat = Some a →
            time_spent_seconds a ≤ elapsedSeconds loaded) ∧
  (savedTimes d = [] → elapsedSeconds loaded = 0) ∧
  (elapsedSeconds loaded = 0 ∨ elapsedSeconds loaded ∈ savedTimes d) ∧
  (savedTimes d ≠ [] → Forall (λ t, 0 ≤ t) (savedTimes d) →
   elapsedSeconds loaded ∈ savedTimes d).
Proof.
  intros Hget loaded.
  assert (∃ ai, loaded = setLoading false
                  (loadImageArrived d ai
                     (setPendingChanges ∅ (setError "" (setLoading true s)))))
    as [ai Hloaded].
  { subst loaded. unfold loadImage. cbn. rewrite Hget. cbn.
    destruct (srv _ (GetAiDetection imgId) store') as [ai store''].
    by exists ai. }
  assert (elapsedSeconds loaded = fold_left Z.max (savedTimes d) 0) as He.
  { rewrite Hloaded. cbn [elapsedSeconds setLoading].
    apply loadImageArrived_elapsed. }
  assert (Forall (λ t, t ≤ elapsedSeconds loaded) (savedTimes d)) as Hup.
  { rewrite He. apply fold_max_upper. }
  split_and!; try done.
  - rewrite Hloaded. unfold loadImageArrived.
    destruct (loadCategories (categories d)); reflexivity.
  - intros cat a Hcat Ha. rewrite Forall_forall in Hup. apply Hup.
    unfold savedTimes. apply list_elem_of_omap. exists cat.
    split; [done|]. by rewrite Ha.
  - intros Hnone. by rewrite He, Hnone.
  - rewrite He. apply fold_max_attained.
  - intros Hsome Hpos. rewrite He.
    destruct (fold_max_attained (savedTimes d) 0) as [Hz|Hin]; [|done].
    destruct (savedTimes d) as [|t ts] eqn:Ets; [done|].
    rewrite Hz. apply Forall_cons in Hpos as [Ht Hts].
    pose proof (fold_max_upper (t :: ts) 0) as Hle.
    rewrite Hz in Hle. apply Forall_cons in Hle as [Ht0 _].
    assert (t = 0) as -> by lia. apply elem_of_cons. by left.
Qed.
End WithBackend.

Lemma loadImage_resumes_timer_witness :
  elapsedSeconds
    (run (Backends.serveImage threeCategories) (loadImage 9 initial) None).1.1
  = 75.
Proof.
  pose proof (loadImage_resumes_timer (Backends.serveImage threeCategories)
                9 threeCategories initial None None eq_refl) as H.
  cbv zeta in H. destruct H as (_ & -> & _). reflexivity.
Defined.

End LoadImageTimer.

(** ** Approve, as the engine guards it *)

Section ApproveGuard.
Import Engine Notions.

Lemma Approve_ok (a a' : Annotation) :
  Approve a = inr a' →
  (review_status a = None ∨ review_status a = Some rework_completed) ∧
  a' = setReviewStatus (Some approved) a.
Proof.
  unfold Approve. destruct (review_status a) as [[| |]|]; intros Heq;
    try discriminate; injection Heq as <-; auto.
Qed.

Lemma Approve_allowed (a : Annotation) :
  review_status a = None ∨ review_status a = Some rework_completed →
  Approve a = inr (setReviewStatus (Some approved) a).
Proof. unfold Approve. by intros [-> | ->]. Qed.

Lemma Approve_approved (a : Annotation) :
  review_status a = Some approved → Approve a = inl StateError.
Proof. unfold Approve. by intros ->. Qed.

Lemma approveById_ok (annotationId : Z) (table table' : gmap Z Annotation) :
  approveById annotationId table = (inr tt, table') →
  ∃ a, table !! annotationId = Some a ∧
       (review_status a = None ∨ review_status a = Some rework_completed) ∧
       table' = <[annotationId := setReviewStatus (Some approved) a]> table.
Proof.
  unfold approveById. destruct (table !! annotationId) as [a|]; [|done].
  destruct (Approve a) as [e|a'] eqn:Ha; intros Heq; [done|].
  apply Approve_ok in Ha as [Hst ->]. injection Heq as <-. eauto.
Qed.

Lemma approveById_approved (annotationId : Z) (table : gmap Z Annotation) :
  review_status <$> table !! annotationId = Some (Some approved) →
  approveById annotationId table = (inl StateError, table).
Proof.
  unfold approveById. destruct (table !! annotationId) as [a|]; [|done].
  simpl. intros [= Hst]. by rewrite (Approve_approved a Hst).
Qed.

(** An approved record stays approved whatever is approved next. *)
Lemma approveById_keeps_approved (annotationId other : Z)
    (table : gmap Z Annotation) :
  review_status <$> table !! annotationId = Some (Some approved) →
  review_status <$> (approveById other table).2 !! annotationId
  = Some (Some approved).
Proof.
  intros Happ. unfold approveById.
  destruct (table !! other) as [b|] eqn:Hb; [|done].
  destruct (Approve b) as [e|b'] eqn:HA; [done|].
  apply Approve_ok in HA as [Hst ->]. cbn [snd].
  destruct (decide (other = annotationId)) as [->|Hne].
  - rewrite Hb in Happ. simpl in Happ. injection Happ as Happ.
    destruct Hst as [Hst|Hst]; congruence.
  - by rewrite lookup_insert_ne.
Qed.

Lemma approveSeq_cons (annotationId : Z) (rest : list Z)
    (table : gmap Z Annotation) :
  approveSeq (annotationId :: rest) table
  = (mkObserved annotationId (review_status <$> table !! annotationId)
       (approveById annotationId table).1
       :: (approveSeq rest (approveById annotationId table).2).1,
     (approveSeq rest (approveById annotationId table).2).2).
Proof.
  cbn [approveSeq]. destruct (approveById annotationId table) as [r table'].
  cbn [fst snd]. by destruct (approveSeq rest table').
Qed.

Lemma approveSeq_guarded (ids : list Z) (table : gmap Z Annotation) :
  Forall (λ o, (before o = Some (Some approved) → answer o = inl StateError) ∧
               (answer o = inr tt →
                before o = Some None ∨ before o = Some (Some rework_completed)))
         (approveSeq ids table).1.
Proof.
  revert table. induction ids as [|i ids IH]; intros table.
  - constructor.
  - rewrite approveSeq_cons. cbn [fst]. constructor; [|apply IH].
    cbn [before answer]. split.
    + intros Hb. by rewrite (approveById_approved i table Hb).
    + destruct (approveById i table) as [r table'] eqn:Hr. cbn [fst].
      intros ->. apply approveById_ok in Hr as (a & -> & [Hst|Hst] & _);
        simpl; rewrite Hst; auto.
Qed.

Lemma approveSeq_none_after_approved (annotationId : Z) (ids : list Z)
    (table : gmap Z Annotation) :
  review_status <$> table !! annotationId = Some (Some approved) →
  successes annotationId (approveSeq ids table).1 = [].
Proof.
  revert table. induction ids as [|i ids IH]; intros table Happ; [done|].
  rewrite approveSeq_cons. cbn [fst]. unfold successes.
  rewrite filter_cons_False.
  - apply IH. by apply approveById_keeps_approved.
  - cbn [target answer]. intros [-> Hok].
    rewrite (approveById_approved _ _ Happ) in Hok. discriminate.
Qed.

Lemma approveSeq_at_most_once (annotationId : Z) (ids : list Z)
    (table : gmap Z Annotation) :
  (length (successes annotationId (approveSeq ids table).1) ≤ 1)%nat.
Proof.
  revert table. induction ids as [|i ids IH]; intros table; [simpl; lia|].
  rewrite approveSeq_cons. cbn [fst]. unfold successes.
  destruct (decide (i = annotationId ∧ (approveById i table).1 = inr tt))
    as [[-> Hok]|Hno].
  - rewrite filter_cons_True by done. cbn [length].
    destruct (approveById annotationId table) as [r table'] eqn:Hr.
    cbn [fst snd] in *. subst r.
    apply approveById_ok in Hr as (a & Ha & _ & ->).
    fold (successes annotationId
            (approveSeq ids
               (<[annotationId:=setReviewStatus (Some approved) a]> table)).1).
    rewrite approveSeq_none_after_approved; [simpl; lia|].
    by rewrite lookup_insert_eq.
  - rewrite filter_cons_False by done. apply IH.
Qed.

End ApproveGuard.

(** ** What the dashboard asks to approve *)

Section ApproveRequests.
Import ReviewWire AdminReview.

(** [Approve All] only visits cells the modal does not show as approved. *)
Lemma pendingAnnotations_not_approved (categories : list Z) (row : Row)
    (cell : Cell) :
  cell ∈ pendingAnnotations categories row →
  review_status cell ≠ Some approved ∧
  ∃ cat, cat ∈ categories ∧ annotations row !! cat = Some cell.
Proof.
  unfold pendingAnnotations. intros (cat & Hcat & Hcell)%list_elem_of_omap.
  apply list_elem_of_In, filter_In in Hcat as [Hcat Hkeep].
  rewrite Hcell in Hkeep. apply bool_decide_eq_true in Hkeep.
  split; [done|]. exists cat. by rewrite list_elem_of_In.
Qed.

(** The bulk approve only asks for cells the table shows as pending
    ([review_status] null). *)
Lemma bulkTargets_pending (td : TableData) (selected : list Z)
    (annotationId : Z) :
  annotationId ∈ bulkTargets td selected →
  ∃ row cat cell,
    row ∈ images td ∧ image_id row ∈ selected ∧ cat ∈ categories td ∧
    annotations row !! cat = Some cell ∧
    annotation_id cell = annotationId ∧ review_status cell = None.
Proof.
  unfold bulkTargets. rewrite list_elem_of_In, in_flat_map.
  intros (imgId & Hsel & Hin).
  destruct (find _ (images td)) as [row|] eqn:Hfind; [|done].
  apply find_some in Hfind as [Hrow Himg].
  apply bool_decide_eq_true in Himg.
  apply list_elem_of_In, list_elem_of_omap in Hin as (cat & Hcat & Hcell).
  destruct (annotations row !! cat) as [cell|] eqn:Ecell; [|done].
  destruct (review_status cell) eqn:Est; [done|]. injection Hcell as <-.
  exists row, cat, cell. split_and!; try done.
  - by apply list_elem_of_In.
  - rewrite Himg. by apply list_elem_of_In.
Qed.

End ApproveRequests.

Section ApproveClaim.
Import Engine Notions Samples.

(** C1.  [Approve] succeeds only from a review status of null or
    rework_completed and then leaves the record approved; on an
    already approved record it raises [StateError].  In every sequence
    of admin approve operations, run one after the other on any table,
    an operation that meets an approved record is answered with
    [StateError], every operation that succeeds met a pending or
    rework-completed record, and no record is approved twice.  The
    dashboard, for its part, asks for no approval of a cell it shows
    as approved: [Approve All] skips approved cells and the bulk
    approve takes the cells with a null review status only. *)
Theorem Approve_never_reapproves
    (a : Annotation) (ids : list Z) (table : gmap Z Annotation)
    (categories : list Z) (row : ReviewWire.Row) (td : ReviewWire.TableData)
    (selected : list Z) :
  (∀ a', Approve a = inr a' →
     (review_status a = None ∨ review_status a = Some rework_completed) ∧
     review_status a' = Some approved) ∧
  (review_status a = None ∨ review_status a = Some rework_completed →
     ∃ a', Approve a = inr a') ∧
  (review_status a = Some approved → Approve a = inl StateError) ∧
  Forall (λ o, (before o = Some (Some approved) → answer o = inl StateError) ∧
               (answer o = inr tt →
                before o = Some None ∨ before o = Some (Some rework_completed)))
         (approveSeq ids table).1 ∧
  (∀ annotationId,
     (length (successes annotationId (approveSeq ids table).1) ≤ 1)%nat) ∧
  (∀ cell, cell ∈ AdminReview.pendingAnnotations categories row →
     ReviewWire.review_status cell ≠ Some approved) ∧
  (∀ annotationId, annotationId ∈ AdminReview.bulkTargets td selected →
     ∃ row cat cell,
       row ∈ ReviewWire.images td ∧
       ReviewWire.annotations row !! cat = Some cell ∧
       ReviewWire.annotation_id cell = annotationId ∧
       ReviewWire.review_status cell = None).
Proof.
  split_and!.
  - intros a' [Hst ->]%Approve_ok. done.
  - intros Hst. eexists. by apply Approve_allowed.
  - apply Approve_approved.
  - apply approveSeq_guarded.
  - intros annotationId. apply approveSeq_at_most_once.
  - intros cell Hcell. by apply pendingAnnotations_not_approved in Hcell as [? _].
  - intros annotationId Hid.
    apply bulkTargets_pending in Hid as (r & cat & cell & ? & _ & _ & ? & ? & ?).
    by exists r, cat, cell.
Qed.

Lemma Approve_never_reapproves_witness :
  Approve (sampleAnnotation (Some approved)) = inl StateError ∧
  (∃ a', Approve (sampleAnnotation None) = inr a').
Proof.
  split.
  - apply (Approve_never_reapproves (sampleAnnotation (Some approved)) [] ∅ []
             (ReviewWire.mkRow 0 ∅) (ReviewWire.mkTableData [] []) []).
    reflexivity.
  - apply (Approve_never_reapproves (sampleAnnotation None) [] ∅ []
             (ReviewWire.mkRow 0 ∅) (ReviewWire.mkTableData [] []) []).
    by left.
Defined.

End ApproveClaim.

(** ** Elapsed time, as the engine stores it *)

Section RecordElapsedClaim.
Import Engine Samples.

Lemma RecordElapsed_time (cfg : TimeLimits) (raw : Z) (a : Annotation) :
  time_spent_seconds (RecordElapsed cfg raw a)
  = Z.max (time_spent_seconds a) (Z.min raw (capForMode cfg a)).
Proof. reflexivity. Qed.

Lemma RecordElapsed_cap (cfg : TimeLimits) (raw : Z) (a : Annotation) :
  capForMode cfg (RecordElapsed cfg raw a) = capForMode cfg a.
Proof. reflexivity. Qed.

(** Under one configuration, a run of calls never lowers the stored
    time and keeps it within the cap once it is within the cap. *)
Lemma recordAll_bounds (cfg : TimeLimits) (raws : list Z) (a : Annotation) :
  time_spent_seconds a ≤ time_spent_seconds (recordAll cfg raws a) ∧
  capForMode cfg (recordAll cfg raws a) = capForMode cfg a ∧
  (time_spent_seconds a ≤ capForMode cfg a →
   time_spent_seconds (recordAll cfg raws a) ≤ capForMode cfg a).
Proof.
  unfold recordAll. revert a.
  induction raws as [|raw raws IH]; intros a; [by split_and!; try lia|].
  cbn [fold_left]. destruct (IH (RecordElapsed cfg raw a)) as (Hmono & Hcap & Hle).
  rewrite RecordElapsed_cap, RecordElapsed_time in *.
  split_and!; [lia|done|]. intros Ha. apply Hle. lia.
Qed.

(** C6, as written, fails on its last part.  With an annotation limit
    of 120 seconds and a rework limit of 60, a record that has 100
    seconds stored and is then sent back for rework keeps its 100
    seconds at the next call: the formula holds and the stored time is
    above the cap of the mode. *)
Lemma RecordElapsed_above_cap :
  let cfg := mkTimeLimits 120 60 in
  let first := RecordElapsed cfg 100 (mkAnnotation 7 1 3 [11] completed None false 0) in
  ∃ reworked,
    time_spent_seconds first = 100 ∧
    time_spent_seconds first ≤ capForMode cfg first ∧
    RequestRework "blurry" first = inr reworked ∧
    capForMode cfg reworked = 60 ∧
    time_spent_seconds (RecordElapsed cfg 10 reworked)
    = Z.max (time_spent_seconds reworked) (Z.min 10 (capForMode cfg reworked)) ∧
    time_spent_seconds (RecordElapsed cfg 10 reworked) = 100 ∧
    ¬ time_spent_seconds (RecordElapsed cfg 10 reworked)
      ≤ capForMode cfg reworked.
Proof.
  cbv zeta. eexists. split_and!; try reflexivity; cbn; lia.
Qed.

(** C6, amended.  After [RecordElapsed] the stored time is
    max(previous, min(raw, cap)) with the cap of the annotation's mode;
    it never decreases, it never exceeds the larger of the cap and the
    previous value, and so stays within the cap whenever the previous
    value was within it, call after call under one configuration. *)
Theorem RecordElapsed_stored
    (cfg : TimeLimits) (rawSeconds : Z) (a : Annotation) (raws : list Z) :
  let cap := capForMode cfg a in
  let stored := time_spent_seconds (RecordElapsed cfg rawSeconds a) in
  cap = (if is_rework a then max_rework_time_seconds cfg
         else max_annotation_time_seconds cfg) ∧
  stored = Z.max (time_spent_seconds a) (Z.min rawSeconds cap) ∧
  time_spent_seconds a ≤ stored ∧
  stored ≤ Z.max (time_spent_seconds a) cap ∧
  (time_spent_seconds a ≤ cap → stored ≤ cap) ∧
  (time_spent_seconds a ≤ cap →
   time_spent_seconds a ≤ time_spent_seconds (recordAll cfg raws a) ≤ cap).
Proof.
  intros cap stored. subst cap stored. rewrite RecordElapsed_time.
  split_and!; try reflexivity; try lia.
  intros Hle. destruct (recordAll_bounds cfg raws a) as (? & _ & ?). lia.
Qed.

Lemma RecordElapsed_stored_witness :
  time_spent_seconds
    (RecordElapsed (mkTimeLimits 120 60) 500 (sampleAnnotation None)) = 120 ∧
  time_spent_seconds
    (recordAll (mkTimeLimits 120 60) [500; 10; 90] (sampleAnnotation None))
  ≤ 120.
Proof.
  pose proof (RecordElapsed_stored (mkTimeLimits 120 60) 500
                (sampleAnnotation None) [500; 10; 90]) as H.
  cbv zeta in H. destruct H as (_ & Hst & _ & _ & _ & Hrun).
  split; [rewrite Hst; reflexivity|].
  apply Hrun. cbn. lia.
Defined.

End RecordElapsedClaim.

(** ** Elapsed time, as the image page reports it *)

Section PersistTime.
Import ImageAnnotationPage.

(** [persistTime] sends the seconds it is given, uncapped, and only
    when they are positive and an image is known. *)
Lemma persistTime_sends (imgId : option Z) (seconds : Z) :
  persistTime imgId seconds
  = match imgId with
    | Some i => if 0 <? seconds
                then Await (PatchTime i seconds) (λ _, Ret tt)
                else Ret tt
    | None => Ret tt
    end.
Proof.
  unfold persistTime. destruct imgId as [i|]; [|done].
  destruct (Z.leb_spec seconds 0), (Z.ltb_spec 0 seconds); try lia; done.
Qed.

End PersistTime.

(** ** Running handlers *)

Section Running.
Context {Store : Type} (srv : Backend Store).

Lemma run_bind {A B} (p : Prog A) (f : A → Prog B) (store : Store) :
  run srv (p ≫= f) store
  = let '(a, store', log) := run srv p store in
    let '(b, store'', log') := run srv (f a) store' in
    (b, store'', log ++ log').
Proof.
  revert store. induction p as [a|X r k IH]; intros store.
  - cbn. by destruct (run srv (f a) store) as [[b store''] log'].
  - change (Await r k ≫= f) with (Await r (λ x, k x ≫= f)).
    cbn [run]. destruct (srv X r store) as [x store1]. rewrite IH.
    destruct (run srv (k x) store1) as [[a store2] log].
    by destruct (run srv (f a) store2) as [[b store3] log'].
Qed.

Lemma run_call {X} (r : Request X) (store : Store) :
  run srv (call r) store
  = ((srv X r store).1, (srv X r store).2, [issued r]).
Proof. cbn. by destruct (srv X r store). Qed.

End Running.

(** ** Bulk approve *)

Section BulkApprove.
Import ReviewWire AdminReview Notions Samples.

Section WithBackend.
Context {Store : Type} (srv : Backend Store).

Lemma run_startAll (ids : list Z) (store : Store) :
  (run srv (startAll ids) store).2 = approveRequests ids ∧
  (run srv (startAll ids) store).1.1.*1 = ids.
Proof.
  revert store. induction ids as [|i ids IH]; intros store; [done|].
  cbn [startAll]. rewrite run_bind, run_call.
  destruct (srv _ (PutApprove i) store) as [res store1]. cbn [fst snd].
  rewrite run_bind. destruct (IH store1) as [Hlog Hids].
  destruct (run srv (startAll ids) store1) as [[results store2] log].
  simpl in *. rewrite app_nil_r. by subst.
Qed.

Lemma run_handleBulkApprove (s : State) (td : TableData) (store : Store) :
  tableData s = Some td →
  run srv (handleBulkApprove s) store
  = let '(results, store', log) :=
      run srv (startAll (bulkTargets td (selectedRows s))) store in
    (bulkSettled results (setBulkApproving true s), store', log).
Proof.
  intros Htd. unfold handleBulkApprove. rewrite Htd.
  cbn [selectedRows setBulkApproving]. rewrite run_bind.
  destruct (run srv (startAll _) store) as [[results store'] log].
  cbn. by rewrite app_nil_r.
Qed.

End WithBackend.

(** Against the engine, the table after a bulk approve is the table
    after [Approve] of each target in turn: what succeeded stays
    approved, and each answer is the engine's for that id. *)
Lemma serveReview_startAll (ids : list Z) (table : gmap Z Engine.Annotation) :
  (run Backends.serveReview (startAll ids) table).1.2
  = (Engine.approveSeq ids table).2 ∧
  (λ r, (r.1, succeeded r.2)) <$> (run Backends.serveReview (startAll ids) table).1.1
  = (λ o, (Engine.target o, bool_decide (Engine.answer o = inr tt)))
      <$> (Engine.approveSeq ids table).1.
Proof.
  revert table. induction ids as [|i ids IH]; intros table; [done|].
  cbn [startAll]. rewrite run_bind, run_call, approveSeq_cons.
  cbn [Backends.serveReview].
  destruct (Engine.approveById i table) as [[e|[]] table1] eqn:Hi;
    cbn [fst snd]; rewrite run_bind; destruct (IH table1) as [Ht Hr];
    destruct (run Backends.serveReview (startAll ids) table1)
      as [[results table2] log];
    cbn in *; by rewrite Ht, Hr.
Qed.

(** C3, as written, fails on the report.  With image 7 selected and
    its two pending annotations 1 and 2, a backend that refuses the
    first approval and one that refuses the second leave the page in
    the same state, with the same single alert: the approvals that
    went through differ, and what is reported does not tell which. *)
Lemma handleBulkApprove_one_alert :
  let run1 := run (Backends.refusing [1]) (handleBulkApprove twoPending) [] in
  let run2 := run (Backends.refusing [2]) (handleBulkApprove twoPending) [] in
  bulkTargets twoPendingTable [7] = [1; 2] ∧
  run1.1.2 = [2] ∧ run2.1.2 = [1] ∧
  run1.1.1 = run2.1.1 ∧
  alerts run1.1.1 = ["Some approvals failed"] ∧
  selectedRows run1.1.1 = [7] ∧ refreshes run1.1.1 = 0%nat.
Proof. cbv zeta. split_and!; vm_compute; reflexivity. Qed.

(** C3, amended.  The bulk approve sends one approve request for every
    pending cell of the selected rows, each on its own: all of them are
    sent whatever the answers are, nothing else is sent and nothing is
    taken back, so the backend is left as these requests leave it.
    The outcome is reported as a whole: when every request succeeded
    the selection is cleared and the table refreshed, otherwise there
    is one alert, "Some approvals failed", without a result per id. *)
Theorem handleBulkApprove_attempts_all
    {Store : Type} (srv : Backend Store) (s : State) (td : TableData)
    (store : Store) :
  tableData s = Some td →
  let targets := bulkTargets td (selectedRows s) in
  let results := (run srv (startAll targets) store).1.1 in
  let s' := (run srv (handleBulkApprove s) store).1.1 in
  (run srv (handleBulkApprove s) store).2 = approveRequests targets ∧
  results.*1 = targets ∧
  (run srv (handleBulkApprove s) store).1.2
    = (run srv (startAll targets) store).1.2 ∧
  bulkApproving s' = false ∧
  (allFulfilled results = true →
     alerts s' = alerts s ∧ selectedRows s' = [] ∧
     refreshes s' = S (refreshes s)) ∧
  (allFulfilled results = false →
     alerts s' = alerts s ++ ["Some approvals failed"] ∧
     selectedRows s' = selectedRows s ∧ refreshes s' = refreshes s).
Proof.
  intros Htd targets results s'. subst targets results s'.
  rewrite !(run_handleBulkApprove _ s td) by done.
  destruct (run_startAll srv (bulkTargets td (selectedRows s)) store)
    as [Hlog Hids].
  destruct (run srv (startAll _) store) as [[results store'] log].
  cbn [fst snd] in *. unfold bulkSettled.
  split_and!; try done.
  - by intros ->.
  - by intros ->.
Qed.

Lemma handleBulkApprove_attempts_all_witness :
  (run (Backends.refusing [1]) (handleBulkApprove twoPending) []).2
  = [issued (PutApprove 1); issued (PutApprove 2)].
Proof.
  pose proof (handleBulkApprove_attempts_all (Backends.refusing [1]) twoPending
                twoPendingTable [] eq_refl) as H.
  cbv zeta in H. destruct H as (-> & _). reflexivity.
Defined.

End BulkApprove.

(** ** Save & Next on the category page *)

Section SaveNextGuard.
Import AnnotationPage.

(** With nothing selected, [Save & Next] is disabled and the keys that
    stand for it do nothing. *)
Lemma saveNext_needs_selection (categoryId : Z) (s : State) :
  selectedOptions s = [] →
  saveNextDisabled s = true ∧
  onKeyDown categoryId false Enter s = Ret s ∧
  onKeyDown categoryId false ArrowRight s = Ret s.
Proof.
  intros Hnone. unfold saveNextDisabled, onKeyDown. rewrite Hnone.
  rewrite orb_true_r. by destruct (savingRef s).
Qed.

End SaveNextGuard.

(** ** Validation before a save on the image page *)

Section Validation.
Import ImageWire ImageAnnotationPage Notions Samples.

Lemma lacksSelection_spec (pc : gmap Z Pending) (cat : Category) :
  lacksSelection pc cat = true ↔ required pc cat ∧ ¬ hasSelection pc cat.
Proof.
  unfold lacksSelection, required, hasSelection.
  destruct (completed_by_other cat) eqn:Hother;
    destruct (pc !! id cat) as [[[ids|]]|] eqn:Hpc; cbn.
  - rewrite bool_decide_eq_true. split.
    + intros Hlen. split; [by intros [_ ?]|].
      intros (p & ids' & [= <-] & [= <-] & Hne).
      by destruct ids.
    + intros [_ Hno]. destruct ids as [|i ids]; [done|].
      exfalso. apply Hno. by exists (mkPending (Some (i :: ids))), (i :: ids).
  - split; [|done]. intros _. split; [by intros [_ ?]|].
    by intros (p & ids' & [= <-] & ? & _).
  - split; [done|]. intros [Hreq _]. by exfalso; apply Hreq.
  - rewrite bool_decide_eq_true. split.
    + intros Hlen. split; [by intros [? _]|].
      intros (p & ids' & [= <-] & [= <-] & Hne).
      by destruct ids.
    + intros [_ Hno]. destruct ids as [|i ids]; [done|].
      exfalso. apply Hno. by exists (mkPending (Some (i :: ids))), (i :: ids).
  - split; [|done]. intros _. split; [by intros [? _]|].
    by intros (p & ids' & [= <-] & ? & _).
  - split; [|done]. intros _. split; [by intros [? _]|].
    by intros (p & ids' & ? & _).
Qed.

(** The loop of the validation collects the names of the categories
    that lack a selection, in the order of the page. *)
Lemma missing_loop (pc : gmap Z Pending) (cats : list Category)
    (acc : list string) :
  fold_left (λ (missing : list string) cat,
               if lacksSelection pc cat then missing ++ [name cat] else missing)
            cats acc
  = acc ++ (name <$> List.filter (lacksSelection pc) cats).
Proof.
  revert acc. induction cats as [|cat cats IH]; intros acc.
  - by rewrite app_nil_r.
  - cbn [fold_left List.filter]. rewrite IH.
    destruct (lacksSelection pc cat); [|done].
    by rewrite <- app_assoc.
Qed.

Lemma validate_loaded (s : State) (d : ImageData) :
  data s = Some d →
  missing (validateAllCategoriesSelected s)
  = name <$> List.filter (lacksSelection (pendingChanges s)) (categories d) ∧
  valid (validateAllCategoriesSelected s)
  = bool_decide (missing (validateAllCategoriesSelected s) = []).
Proof.
  intros Hd. unfold validateAllCategoriesSelected. rewrite Hd.
  cbn [missing valid]. rewrite missing_loop. cbn [app]. split; [done|].
  apply bool_decide_ext. by destruct (name <$> _).
Qed.

(** C4.  On the image page, with an image that can be edited, a save
    needs at least one selected option for every required category
    (every category but those another annotator completed and this one
    left untouched; no category allows an empty selection).  If a
    required category lacks a selection, nothing is sent to the
    backend, the save returns false and the error message lists the
    names of exactly the categories that lack one, in page order;
    otherwise the annotations are sent.  On the category page, with
    nothing selected, [Save & Next] is disabled and its keys do
    nothing. *)
Theorem handleSave_names_missing
    (imageId categoryId : Z) (s : State) (d : ImageData)
    (p : AnnotationPage.State) :
  data s = Some d → saveRefused s = false →
  let lacking := name <$> List.filter (lacksSelection (pendingChanges s))
                                      (categories d) in
  (∀ cat, lacksSelection (pendingChanges s) cat = true ↔
          required (pendingChanges s) cat ∧ ¬ hasSelection (pendingChanges s) cat) ∧
  (∀ n, n ∈ lacking ↔
        ∃ cat, cat ∈ categories d ∧ name cat = n ∧
               required (pendingChanges s) cat ∧
               ¬ hasSelection (pendingChanges s) cat) ∧
  (lacking ≠ [] →
     handleSave imageId s
     = Ret (false,
            setError ("Please select an option for: " +:+ Js.join ", " lacking)
                     s) ∧
     ∀ Store (srv : Backend Store) store,
       (run srv (handleSave imageId s) store).1.2 = store ∧
       (run srv (handleSave imageId s) store).2 = []) ∧
  (lacking = [] →
     ∃ k, handleSave imageId s
          = Await (PutAnnotations imageId
                     (mkSaveBody (pendingChanges s) (elapsedSeconds s))) k) ∧
  (AnnotationPage.selectedOptions p = [] →
     AnnotationPage.saveNextDisabled p = true ∧
     AnnotationPage.onKeyDown categoryId false AnnotationPage.Enter p = Ret p ∧
     AnnotationPage.onKeyDown categoryId false AnnotationPage.ArrowRight p
     = Ret p).
Proof.
  intros Hd Hok lacking.
  destruct (validate_loaded s d Hd) as [Hmissing Hvalid].
  fold lacking in Hmissing.
  split_and!.
  - intros cat. apply lacksSelection_spec.
  - intros n. subst lacking. rewrite list_elem_of_fmap. split.
    + intros (cat & -> & Hcat).
      apply list_elem_of_In, filter_In in Hcat as [Hcat Hlack].
      apply lacksSelection_spec in Hlack as [Hreq Hno].
      exists cat. by rewrite list_elem_of_In.
    + intros (cat & Hcat & <- & Hreq & Hno). exists cat. split; [done|].
      apply list_elem_of_In, filter_In. split; [by apply list_elem_of_In|].
      by apply lacksSelection_spec.
  - intros Hne.
    assert (handleSave imageId s
            = Ret (false,
                   setError ("Please select an option for: "
                             +:+ Js.join ", " lacking) s)) as Hret.
    { unfold handleSave. rewrite Hok, Hvalid, Hmissing.
      by rewrite bool_decide_eq_false_2. }
    split; [done|]. intros Store srv store. by rewrite Hret.
  - intros Hnil. unfold handleSave. rewrite Hok, Hvalid, Hmissing.
    rewrite bool_decide_eq_true_2 by done. cbn. eauto.
  - apply saveNext_needs_selection.
Qed.

Lemma handleSave_names_missing_witness :
  handleSave 9 angleMissing
  = Ret (false, setError "Please select an option for: Angle" angleMissing).
Proof.
  pose proof (handleSave_names_missing 9 1 angleMissing threeCategories
                AnnotationPage.initial eq_refl eq_refl) as H.
  cbv zeta in H. destruct H as (_ & _ & Hmiss & _).
  destruct Hmiss as [-> _]; [by vm_compute|].
  f_equal.
Defined.

End Validation.


(** ** Handlers that only read *)

Section ReadOnlyHandlers.
Import Notions.

Lemma ReadOnly_bind {A B} (p : Prog A) (f : A → Prog B) :
  ReadOnly p → (∀ a, ReadOnly (f a)) → ReadOnly (p ≫= f).
Proof.
  intros Hp Hf. induction Hp as [a|X r k Hr Hk IH]; [apply Hf|].
  change (Await r k ≫= f) with (Await r (λ x, k x ≫= f)).
  by constructor.
Qed.

Lemma ReadOnly_call {X} (r : Request X) : is_write r = false → ReadOnly (call r).
Proof. intros Hr. constructor; [done|]. intros x. constructor. Qed.

Lemma run_ReadOnly {Store A} (srv : Backend Store) (p : Prog A) (store : Store) :
  ReadsKeepStore srv → ReadOnly p →
  (run srv p store).1.2 = store ∧
  Forall (λ i, issued_write i = false) (run srv p store).2.
Proof.
  intros Hsrv Hp. revert store.
  induction Hp as [a|X r k Hr Hk IH]; intros store; [by split|].
  cbn [run]. pose proof (Hsrv X r store Hr) as Hkeep.
  destruct (srv X r store) as [x store1]. cbn [snd] in Hkeep. subst store1.
  destruct (IH x store) as [Hst Hlog].
  destruct (run srv (k x) store) as [[a store2] log]. cbn [fst snd] in *.
  split; [done|]. by constructor.
Qed.

Lemma serveQueue_reads (notFound : list Backends.Slot → Z → option string) :
  ReadsKeepStore (Backends.serveQueue notFound).
Proof. intros X r store Hr. by destruct r. Qed.

End ReadOnlyHandlers.

(** ** Skip on the category page *)

Section Skip.
Import TaskWire AnnotationPage Notions Samples.

Lemma loadTask_ReadOnly (categoryId index : Z) (s : State) :
  ReadOnly (loadTask categoryId index s).
Proof.
  unfold loadTask. apply ReadOnly_bind; [by apply ReadOnly_call|].
  intros res. constructor.
Qed.

Lemma resumeOrFinish_ReadOnly (categoryId : Z) (s : State) :
  ReadOnly (resumeOrFinish categoryId s).
Proof.
  unfold resumeOrFinish. apply ReadOnly_bind; [by apply ReadOnly_call|].
  intros [r|e]; [|constructor].
  destruct (queue_size r =? 0); [constructor|apply loadTask_ReadOnly].
Qed.

Lemma skipAhead_ReadOnly (categoryId : Z) (s : State) :
  ReadOnly (skipAhead categoryId s).
Proof.
  unfold skipAhead. destruct (task s) as [t|]; [|constructor].
  destruct (_ <? _); [apply loadTask_ReadOnly|apply resumeOrFinish_ReadOnly].
Qed.

Lemma alreadyCompleted_spec (s : State) :
  alreadyCompleted s = true ↔
  ∃ t a, task s = Some t ∧ current_annotation t = Some a ∧ status a = completed.
Proof.
  unfold alreadyCompleted. destruct (task s) as [t|].
  - destruct (current_annotation t) as [a|] eqn:Ea.
    + rewrite bool_decide_eq_true. split.
      * intros Hst. by exists t, a.
      * intros (t' & a' & [= <-] & Ha' & ?). congruence.
    + split; [done|]. intros (t' & a' & [= <-] & Ha' & _). congruence.
  - split; [done|]. by intros (? & ? & ? & _).
Qed.

(** The guard is what holds the write back: on a record that is not
    completed, and with no save under way, [handleSkip] does send the
    record as skipped. *)
Lemma handleSkip_saves_otherwise (categoryId : Z) (s : State) (t : Task) :
  task s = Some t → savingRef s = false → alreadyCompleted s = false →
  ∃ k, handleSkip categoryId s
       = Await (PutAnnotate categoryId (image_id t)
                  (mkAnnotateBody (selectedOptions s) (isDuplicate s) skipped
                                  (elapsedSeconds s))) k.
Proof.
  intros Ht Href Hno. unfold handleSkip, saveAnnotation.
  rewrite Hno, Ht, Href. cbn. eauto.
Qed.

(** *** Skips against the engine's guard *)

Lemma ReadOnly_SkipsOnly {A} (p : Prog A) : ReadOnly p → SkipsOnly p.
Proof.
  induction 1 as [a|X r k Hr Hk IH]; constructor; [|done].
  by destruct r.
Qed.

Lemma SkipsOnly_bind {A B} (p : Prog A) (f : A → Prog B) :
  SkipsOnly p → (∀ a, SkipsOnly (f a)) → SkipsOnly (p ≫= f).
Proof.
  intros Hp Hf. induction Hp as [a|X r k Hr Hk IH]; [apply Hf|].
  change (Await r k ≫= f) with (Await r (λ x, k x ≫= f)).
  by constructor.
Qed.

Lemma handleSkip_SkipsOnly (categoryId : Z) (s : State) :
  SkipsOnly (handleSkip categoryId s).
Proof.
  pose proof (λ s, ReadOnly_SkipsOnly _ (skipAhead_ReadOnly categoryId s))
    as Hahead.
  unfold handleSkip. destruct (alreadyCompleted s); [apply Hahead|].
  apply SkipsOnly_bind.
  - unfold saveAnnotation. destruct (task s) as [t|]; [|constructor].
    destruct (savingRef s); [constructor|].
    apply SkipsOnly_bind.
    + constructor; [by apply bool_decide_eq_true|]. intros x. constructor.
    + intros [[]|e]; constructor.
  - intros [[] s']; [apply Hahead|constructor].
Qed.

Lemma submitTo_keeps_completed (imageId : Z) (body : AnnotateBody)
    (sl : Backends.Slot) :
  body_status body = skipped → Backends.slotStatus sl = Some completed →
  Backends.submitTo imageId body sl = sl.
Proof.
  intros Hskip Hdone. unfold Backends.submitTo, Engine.SkipAllowed.
  rewrite Hskip, Hdone. by case_bool_decide.
Qed.

(** The engine's guard: serving a read or a skip leaves every
    completed record of the queue as it was. *)
Lemma serveQueue_keeps_completed {X}
    (notFound : list Backends.Slot → Z → option string) (r : Request X)
    (queue : list Backends.Slot) (i : nat) (sl : Backends.Slot) :
  readsOrSkips r = true →
  queue !! i = Some sl → Backends.slotStatus sl = Some completed →
  (Backends.serveQueue notFound X r queue).2 !! i = Some sl.
Proof.
  intros Hr Hsl Hdone. destruct r; try done. cbn in *.
  apply bool_decide_eq_true in Hr. unfold Backends.submit.
  rewrite list_lookup_fmap, Hsl. cbn.
  by rewrite submitTo_keeps_completed.
Qed.

Lemma run_SkipsOnly {A}
    (notFound : list Backends.Slot → Z → option string) (p : Prog A)
    (queue : list Backends.Slot) (i : nat) (sl : Backends.Slot) :
  SkipsOnly p →
  queue !! i = Some sl → Backends.slotStatus sl = Some completed →
  (run (Backends.serveQueue notFound) p queue).1.2 !! i = Some sl.
Proof.
  intros Hp. revert queue.
  induction Hp as [a|X r k Hr Hk IH]; intros queue Hsl Hdone; [done|].
  cbn [run].
  pose proof (serveQueue_keeps_completed notFound r queue i sl Hr Hsl Hdone)
    as Hkeep.
  destruct (Backends.serveQueue notFound X r queue) as [x queue1].
  cbn [snd] in Hkeep.
  specialize (IH x queue1 Hkeep Hdone).
  by destruct (run (Backends.serveQueue notFound) (k x) queue1)
    as [[a queue2] log].
Qed.

Lemma Skip_completed (record : Engine.Annotation) :
  Engine.status record = completed →
  Engine.Skip record = inl Engine.StateError.
Proof. unfold Engine.Skip, Engine.SkipAllowed. by intros ->. Qed.

(** With the guard of the engine behind it, a skip leaves every
    completed record of the queue as it was, whatever the page holds. *)
Lemma skip_leaves_completed_records
    (notFound : list Backends.Slot → Z → option string) (categoryId : Z)
    (page : State) (queue : list Backends.Slot) (i : nat)
    (sl : Backends.Slot) :
  queue !! i = Some sl → Backends.slotStatus sl = Some completed →
  (run (Backends.serveQueue notFound) (handleSkip categoryId page) queue).1.2
    !! i
  = Some sl.
Proof. apply run_SkipsOnly, handleSkip_SkipsOnly. Qed.

(** The guard of [handleSkip] at work: when the record the page holds
    for the image is completed, [handleSkip] writes nothing, it issues
    no request but reads, so the backend stores after the skip what it
    stored before and answers every read as it would have before. *)
Lemma handleSkip_reads_on_completed_copy
    {Store : Type} (srv : Backend Store) (categoryId : Z) (s : State)
    (t : Task) (a : CurrentAnnotation) (store : Store) :
  ReadsKeepStore srv →
  task s = Some t → current_annotation t = Some a → status a = completed →
  let after := (run srv (handleSkip categoryId s) store).1.2 in
  ReadOnly (handleSkip categoryId s) ∧
  Forall (λ i, issued_write i = false)
         (run srv (handleSkip categoryId s) store).2 ∧
  after = store ∧
  ∀ X (r : Request X), (srv X r after).1 = (srv X r store).1.
Proof.
  intros Hsrv Ht Ha Hst after.
  assert (ReadOnly (handleSkip categoryId s)) as Hro.
  { unfold handleSkip.
    rewrite (proj2 (alreadyCompleted_spec s)) by eauto.
    apply skipAhead_ReadOnly. }
  destruct (run_ReadOnly srv _ store Hsrv Hro) as [Hkeep Hlog].
  subst after. split_and!; try done.
  intros X r. by rewrite Hkeep.
Qed.

End Skip.

(** ** The resolver of the category queue *)

Section Resolver.
Import Engine.

Lemma ResumeIndex_le (queue : list QueueEntry) :
  (ResumeIndex queue ≤ QueueSize queue)%nat.
Proof.
  unfold QueueSize. induction queue as [|e queue IH]; simpl; [lia|].
  destruct (is_completed e); simpl; lia.
Qed.

(** The sentinel comes back exactly when every image is completed. *)
Lemma ResumeIndex_sentinel (queue : list QueueEntry) :
  ResumeIndex queue = QueueSize queue ↔
  Forall (λ e, authoritative e = Some completed) queue.
Proof.
  unfold QueueSize. induction queue as [|e queue IH]; simpl.
  - split; [constructor|done].
  - rewrite Forall_cons. unfold is_completed. case_bool_decide as He.
    + rewrite <- IH. split; [intros [= ?]; by split|intros [_ ?]; by f_equal].
    + split; [done|]. by intros [? _].
Qed.

(** Short of the sentinel, the index is that of the first image that
    is not completed. *)
Lemma ResumeIndex_first (queue : list QueueEntry) :
  (ResumeIndex queue < QueueSize queue)%nat →
  (∃ e, queue !! ResumeIndex queue = Some e ∧
        authoritative e ≠ Some completed) ∧
  ∀ j e, (j < ResumeIndex queue)%nat → queue !! j = Some e →
         authoritative e = Some completed.
Proof.
  unfold QueueSize. induction queue as [|e queue IH]; simpl; [lia|].
  unfold is_completed. case_bool_decide as He.
  - intros Hlt. destruct IH as [(e' & He' & Hne) Hbefore]; [lia|].
    split; [by exists e'|].
    intros [|j] e0 Hj He0; simpl in He0; [congruence|].
    apply (Hbefore j); [lia|done].
  - intros _. split; [by exists e|]. intros j e0 Hj. lia.
Qed.

Lemma TaskAt_outside (queue : list QueueEntry) (index : Z) :
  ¬ (0 ≤ index < Z.of_nat (QueueSize queue)) →
  TaskAt queue index = inl NotFoundError.
Proof.
  unfold TaskAt, QueueSize. intros Hout.
  destruct (Z.ltb_spec index 0); [done|].
  rewrite lookup_ge_None_2; [done|lia].
Qed.

Lemma TaskAt_inside (queue : list QueueEntry) (index : Z) :
  0 ≤ index < Z.of_nat (QueueSize queue) →
  ∃ e, TaskAt queue index = inr e ∧ queue !! Z.to_nat index = Some e.
Proof.
  unfold TaskAt, QueueSize. intros Hin.
  destruct (Z.ltb_spec index 0); [lia|].
  destruct (lookup_lt_is_Some_2 queue (Z.to_nat index)) as [e He]; [lia|].
  exists e. by rewrite He.
Qed.

End Resolver.

(** ** How the category page reads the end of the queue *)

Section EndOfQueue.
Import TaskWire AnnotationPage Notions Samples.

(** A 404 that says "all done" ends in the completion screen and no
    error; any other 404 ends in an error and no completion. *)
Lemma loadTaskFailed_404 (detail : option string) (s : State) :
  let s' := loadTaskFailed (mkHttpError (Some 404) detail) s in
  (saysAllDone (Js.str_or detail "") = true →
     allDone s' = true ∧ error s' = error s) ∧
  (saysAllDone (Js.str_or detail "") = false →
     allDone s' = allDone s ∧ error s' ≠ "").
Proof.
  cbv zeta. unfold loadTaskFailed, saysAllDone.
  rewrite bool_decide_eq_true_2 by done. cbn [err_detail].
  split; intros Hsays; rewrite Hsays; [done|].
  split; [done|]. cbn [error setError]. unfold Js.str_or at 1.
  destruct (String.eqb_spec (Js.str_or detail "") ""); done.
Qed.

Section WithBackend.
Context {Store : Type} (srv : Backend Store).

Lemma run_loadTask (categoryId index : Z) (s : State) (store : Store) :
  (run srv (loadTask categoryId index s) store).1.1
  = setLoading false
      (match (srv _ (GetTask categoryId index) store).1 with
       | Ok data =>
           loadTaskArrived index data
             (setAllDone false (setError "" (setLoading true s)))
       | Fail e =>
           loadTaskFailed e (setAllDone false (setError "" (setLoading true s)))
       end).
Proof.
  unfold loadTask. cbn.
  by destruct (srv _ (GetTask categoryId index) store) as [[data|e] store'].
Qed.

Lemma run_resumeOrFinish (categoryId : Z) (s : State) (store : Store) :
  (run srv (resumeOrFinish categoryId s) store).1.1
  = match srv _ (GetResumeIndex categoryId) store with
    | (Ok r, store') =>
        if queue_size r =? 0 then setAllDone true s
        else (run srv (loadTask categoryId (index r) s) store').1.1
    | (Fail _, _) => navigate "/annotator" s
    end.
Proof.
  unfold resumeOrFinish. rewrite run_bind, run_call.
  destruct (srv _ (GetResumeIndex categoryId) store) as [[r|e] store'];
    cbn [fst snd]; [|done].
  destruct (queue_size r =? 0); [done|].
  by destruct (run srv (loadTask categoryId (index r) s) store')
    as [[s' store''] log].
Qed.

End WithBackend.

(** *** The page against the resolver *)

Lemma authoritative_entryOf (sl : Backends.Slot) :
  Engine.authoritative (Backends.entryOf sl) = Backends.slotStatus sl.
Proof. reflexivity. Qed.

(** An exhausted queue: the resume index is the sentinel. *)
Lemma ResumeIndex_exhausted (queue : list Backends.Slot) :
  Forall (λ sl, Backends.slotStatus sl = Some completed) queue →
  Engine.ResumeIndex (Backends.entryOf <$> queue) = length queue.
Proof.
  intros Hall.
  rewrite <- (length_fmap Backends.entryOf queue).
  apply ResumeIndex_sentinel, Forall_fmap.
  by apply (Forall_impl _ _ _ Hall).
Qed.

Section WithDetail.
Variable notFound : list Backends.Slot → Z → option string.

Lemma serveQueue_task_outside (categoryId index : Z)
    (queue : list Backends.Slot) :
  ¬ (0 ≤ index < Z.of_nat (length queue)) →
  Backends.serveQueue notFound _ (GetTask categoryId index) queue
  = (Fail (mkHttpError (Some 404) (notFound queue index)), queue).
Proof.
  intros Hout. cbn. rewrite TaskAt_outside; [done|].
  unfold Engine.QueueSize. by rewrite length_fmap.
Qed.

Lemma serveQueue_task_inside (categoryId index : Z)
    (queue : list Backends.Slot) :
  0 ≤ index < Z.of_nat (length queue) →
  ∃ sl, queue !! Z.to_nat index = Some sl ∧
        Backends.serveQueue notFound _ (GetTask categoryId index) queue
        = (Ok (mkTask (Backends.slot_image sl) (Z.of_nat (length queue))
                      (Backends.slot_annotation sl)), queue).
Proof.
  intros Hin.
  destruct (lookup_lt_is_Some_2 queue (Z.to_nat index)) as [sl Hsl]; [lia|].
  exists sl. split; [done|]. cbn.
  destruct (TaskAt_inside (Backends.entryOf <$> queue) index) as (e & -> & _).
  { unfold Engine.QueueSize. by rewrite length_fmap. }
  by rewrite Hsl.
Qed.

Lemma serveQueue_completed (categoryId imageId : Z) (body : AnnotateBody)
    (queue : list Backends.Slot) :
  body_status body = completed →
  Backends.serveQueue notFound _ (PutAnnotate categoryId imageId body) queue
  = (Ok tt, Backends.submit imageId body queue).
Proof.
  intros Hst. cbn. unfold Backends.skipRefused. by rewrite Hst.
Qed.

Lemma serveQueue_size (categoryId : Z) (queue : list Backends.Slot) :
  Backends.serveQueue notFound _ (GetQueueSize categoryId) queue
  = (Ok (Z.of_nat (length queue)), queue).
Proof. reflexivity. Qed.

(** The task asked for outside the queue: the page keeps its task and
    shows completion or an error, as the detail of the 404 has it. *)
Lemma loadTask_outside (categoryId index : Z) (s : State)
    (queue : list Backends.Slot) :
  ¬ (0 ≤ index < Z.of_nat (length queue)) →
  let s' := (run (Backends.serveQueue notFound)
               (loadTask categoryId index s) queue).1.1 in
  task s' = task s ∧
  if saysAllDone (Js.str_or (notFound queue index) "")
  then allDone s' = true ∧ error s' = ""
  else allDone s' = false ∧ error s' ≠ "".
Proof.
  intros Hout s'. subst s'.
  rewrite run_loadTask, serveQueue_task_outside by done. cbn [fst].
  pose proof (loadTaskFailed_404 (notFound queue index)
                (setAllDone false (setError "" (setLoading true s)))) as H404.
  cbv zeta in H404. destruct H404 as [Hdone Herr]. split.
  - unfold loadTaskFailed. cbn. destruct (bool_decide _); [|done].
    by destruct (_ || _).
  - destruct (saysAllDone _); [by destruct (Hdone eq_refl)|].
    by destruct (Herr eq_refl).
Qed.

(** C5.  On a queue whose images are all completed, [ResumeIndex]
    returns the queue size, a value and not an error, while [TaskAt]
    answers that index, like every index outside the queue, with
    [NotFoundError]: the caller can tell the two apart.  The page does
    not read the sentinel.  On mount it asks for the task at the
    index it is given, and [handleNext], on the last image, does the
    same unless the queue size is 0; the request fails with a 404, and
    the page shows the completion screen, with no error, exactly when
    the detail of that 404 says "all completed" or "No images", and an
    error and no completion otherwise.  Short of the last image
    [handleNext] loads the next one, completed though it is. *)
Theorem exhausted_queue_is_completion
    (queue : list Backends.Slot) (categoryId : Z) (s : State) :
  Forall (λ sl, Backends.slotStatus sl = Some completed) queue →
  let entries := Backends.entryOf <$> queue in
  let size := Z.of_nat (length queue) in
  let srv := Backends.serveQueue notFound in
  let said := saysAllDone (Js.str_or (notFound queue size) "") in
  (* the resolver *)
  Engine.GetResumeIndex entries = inr (mkResume size size) ∧
  Engine.TaskAt entries size = inl Engine.NotFoundError ∧
  (∀ index, ¬ (0 ≤ index < size) →
            Engine.TaskAt entries index = inl Engine.NotFoundError) ∧
  (* what reaches the page *)
  (srv _ (GetResumeIndex categoryId) queue).1 = Ok (mkResume size size) ∧
  (srv _ (GetTask categoryId size) queue).1
  = Fail (mkHttpError (Some 404) (notFound queue size)) ∧
  (* the page when it mounts *)
  (let s' := (run srv (mount categoryId s) queue).1.1 in
   if said then allDone s' = true ∧ error s' = ""
   else allDone s' = false ∧ error s' ≠ "") ∧
  (* the page after [handleNext] has completed the queue *)
  (∀ before t,
     task s = Some t → savingRef s = false →
     Backends.submit (image_id t)
       (mkAnnotateBody (selectedOptions s) (isDuplicate s) completed
                       (elapsedSeconds s)) before = queue →
     let s' := (run srv (handleNext categoryId s) before).1.1 in
     (size ≤ queueIndex s + 1 →
      task s' = Some t ∧
      if size =? 0 then allDone s' = true
      else if said then allDone s' = true ∧ error s' = ""
           else allDone s' = false ∧ error s' ≠ "") ∧
     (0 ≤ queueIndex s + 1 < size →
      allDone s' = false ∧ error s' = "" ∧
      queueIndex s' = queueIndex s + 1 ∧
      ∃ sl, queue !! Z.to_nat (queueIndex s + 1) = Some sl ∧
            task s' = Some (mkTask (Backends.slot_image sl) size
                                   (Backends.slot_annotation sl)))).
Proof.
  intros Hall entries size srv said.
  pose proof (ResumeIndex_exhausted queue Hall) as Hidx.
  assert (Engine.GetResumeIndex entries = inr (mkResume size size)) as Hres.
  { unfold Engine.GetResumeIndex, Engine.QueueSize. subst entries size.
    by rewrite Hidx, length_fmap. }
  assert (∀ index, ¬ (0 ≤ index < size) →
            Engine.TaskAt entries index = inl Engine.NotFoundError) as Hout.
  { intros index Hindex. apply TaskAt_outside.
    unfold Engine.QueueSize. subst entries. by rewrite length_fmap. }
  assert ((srv _ (GetResumeIndex categoryId) queue)
          = (Ok (mkResume size size), queue)) as Hget.
  { subst srv. unfold Backends.serveQueue. fold entries. by rewrite Hres. }
  split_and!; [done|apply Hout; lia|done|by rewrite Hget| | |].
  - subst srv. rewrite serveQueue_task_outside by lia. done.
  - cbv zeta. unfold mount. rewrite run_bind, run_call, Hget.
    cbn [fst snd index].
    pose proof (loadTask_outside categoryId size s queue ltac:(lia)) as Hload.
    cbv zeta in Hload. destruct Hload as [_ Hload]. fold srv in Hload.
    destruct (run srv (loadTask categoryId size s) queue)
      as [[s' store'] log]. cbn [fst snd] in Hload |- *. exact Hload.
  - intros before t Ht Href Hsaved s'. subst s'.
    set (s1 := setSavingRef false (setSaving false
                 (setSaving true (setSavingRef true s)))).
    assert ((run srv (handleNext categoryId s) before).1.1
            = (run srv
                 (if (size =? 0) || (size <=? queueIndex s + 1)
                  then resumeOrFinish categoryId s1
                  else loadTask categoryId (queueIndex s + 1) s1) queue).1.1)
      as Hrun.
    { unfold handleNext, saveAnnotation. rewrite Ht, Href. subst srv.
      cbn [run mbind Prog_bind bind call].
      rewrite serveQueue_completed by done.
      cbn [selectedOptions isDuplicate elapsedSeconds setSaving setSavingRef].
      rewrite Hsaved. cbn [run bind negb]. rewrite serveQueue_size.
      fold size. fold s1. cbn [queueIndex s1 setSaving setSavingRef].
      by destruct (run (Backends.serveQueue notFound)
                     (if (size =? 0) || (size <=? queueIndex s + 1)
                      then resumeOrFinish categoryId s1
                      else loadTask categoryId (queueIndex s + 1) s1) queue)
        as [[s' store'] log]. }
    rewrite Hrun. clear Hrun. split.
    + intros Hlast.
      assert ((size =? 0) || (size <=? queueIndex s + 1) = true) as ->.
      { destruct (Z.leb_spec size (queueIndex s + 1)); [|lia].
        apply orb_true_r. }
      rewrite run_resumeOrFinish, Hget. cbn [queue_size index].
      destruct (Z.eqb_spec size 0) as [Hzero|Hpos]; [by split|].
      assert (¬ (0 ≤ size < Z.of_nat (length queue))) as Hsentinel by lia.
      pose proof (loadTask_outside categoryId size s1 queue Hsentinel) as Hload.
      cbv zeta in Hload. destruct Hload as [Htask Hshow].
      split; [exact (eq_trans Htask Ht)|exact Hshow].
    + intros Hshort.
      assert ((size =? 0) || (size <=? queueIndex s + 1) = false) as ->.
      { destruct (Z.eqb_spec size 0); [lia|].
        by destruct (Z.leb_spec size (queueIndex s + 1)); [lia|]. }
      destruct (serveQueue_task_inside categoryId (queueIndex s + 1) queue)
        as (sl & Hsl & Htask); [lia|].
      rewrite run_loadTask. subst srv. rewrite Htask. cbn [fst].
      unfold loadTaskArrived. fold size.
      destruct (Backends.slot_annotation sl) eqn:Ea; cbn; split_and!;
        try done; exists sl; by rewrite Ea.
Qed.

End WithDetail.

(** C5, as written, fails on the last part: the resolver answers as
    the specification says, the 404 for the sentinel index says that
    the index is out of range, and the page that mounts on the
    exhausted queue shows an error and no completion. *)
Lemma exhausted_queue_shown_as_error :
  Engine.ResumeIndex (Backends.entryOf <$> [Backends.mkSlot 7 (Some doneSeven)])
  = length [Backends.mkSlot 7 (Some doneSeven)] ∧
  allDone (run (Backends.serveQueue (λ _ _, Some "Task index out of range"))
             (mount 1 initial) [Backends.mkSlot 7 (Some doneSeven)]).1.1
  = false ∧
  error (run (Backends.serveQueue (λ _ _, Some "Task index out of range"))
           (mount 1 initial) [Backends.mkSlot 7 (Some doneSeven)]).1.1
  = "Task index out of range".
Proof. split_and!; reflexivity. Qed.

Lemma exhausted_queue_is_completion_witness :
  allDone (run (Backends.serveQueue
                  (λ _ _, Some "No images available or all completed"))
             (mount 1 initial)
             (Backends.submit 8 (mkAnnotateBody [21] None completed 12)
                              oneLeft)).1.1
  = true ∧
  allDone (run (Backends.serveQueue
                  (λ _ _, Some "No images available or all completed"))
             (handleNext 1 onEight) oneLeft).1.1
  = true ∧
  error (run (Backends.serveQueue (λ _ _, Some "Task index out of range"))
           (handleNext 1 onEight) oneLeft).1.1
  ≠ "".
Proof.
  assert (Forall (λ sl, Backends.slotStatus sl = Some completed)
            (Backends.submit 8 (mkAnnotateBody [21] None completed 12)
                             oneLeft)) as Hall.
  { by repeat constructor. }
  split_and!.
  - pose proof (exhausted_queue_is_completion
                  (λ _ _, Some "No images available or all completed")
                  _ 1 initial Hall) as H.
    cbv zeta in H. destruct H as (_ & _ & _ & _ & _ & Hmount & _).
    exact (proj1 Hmount).
  - pose proof (exhausted_queue_is_completion
                  (λ _ _, Some "No images available or all completed")
                  _ 1 onEight Hall) as H.
    cbv zeta in H. destruct H as (_ & _ & _ & _ & _ & _ & Hnext).
    destruct (Hnext oneLeft (mkTask 8 2 None) eq_refl eq_refl eq_refl)
      as [Hlast _].
    destruct Hlast as [_ Hshown]; [cbn; lia|].
    exact (proj1 Hshown).
  - pose proof (exhausted_queue_is_completion
                  (λ _ _, Some "Task index out of range")
                  _ 1 onEight Hall) as H.
    cbv zeta in H. destruct H as (_ & _ & _ & _ & _ & _ & Hnext).
    destruct (Hnext oneLeft (mkTask 8 2 None) eq_refl eq_refl eq_refl)
      as [Hlast _].
    destruct Hlast as [_ Hshown]; [cbn; lia|].
    exact (proj2 Hshown).
Defined.

End EndOfQueue.

(** ** Saving does not look at the clock *)

Section TimeBlindSave.
Import ImageWire ImageAnnotationPage Notions TimeBlind Samples.

(** Forgetting the times commutes with the setters of the page, and
    swallows those of the timer and of its warning. *)
Lemma blind_setData v s :
  blindState (setData v s) = setData (blindImage <$> v) (blindState s).
Proof. reflexivity. Qed.
Lemma blind_setLoading v s :
  blindState (setLoading v s) = setLoading v (blindState s).
Proof. reflexivity. Qed.
Lemma blind_setSaving v s :
  blindState (setSaving v s) = setSaving v (blindState s).
Proof. reflexivity. Qed.
Lemma blind_setError v s :
  blindState (setError v s) = setError v (blindState s).
Proof. reflexivity. Qed.
Lemma blind_setPendingChanges v s :
  blindState (setPendingChanges v s) = setPendingChanges v (blindState s).
Proof. reflexivity. Qed.
Lemma blind_setIsAIGenerated v s :
  blindState (setIsAIGenerated v s) = setIsAIGenerated v (blindState s).
Proof. reflexivity. Qed.
Lemma blind_setIsReworkMode v s :
  blindState (setIsReworkMode v s) = setIsReworkMode v (blindState s).
Proof. reflexivity. Qed.
Lemma blind_setElapsedSeconds v s :
  blindState (setElapsedSeconds v s) = blindState s.
Proof. reflexivity. Qed.
Lemma blind_setShowTimeWarning v s :
  blindState (setShowTimeWarning v s) = blindState s.
Proof. reflexivity. Qed.

(** Push the forgetting inwards. *)
Ltac push_blind :=
  repeat first
    [ rewrite blind_setData | rewrite blind_setLoading
    | rewrite blind_setSaving | rewrite blind_setError
    | rewrite blind_setPendingChanges | rewrite blind_setIsAIGenerated
    | rewrite blind_setIsReworkMode | rewrite blind_setElapsedSeconds
    | rewrite blind_setShowTimeWarning ].

(** ... then use that the inner pages agree. *)
Ltac blind_with H := push_blind; rewrite ?H; reflexivity.

(** Awaiting a call and going on is one node of the handler. *)
Lemma call_bind {X A} (r : Request X) (k : X → Prog A) :
  call r ≫= k = Await r k.
Proof. reflexivity. Qed.

Lemma Alike_bind {A B} (same : A → A → Prop) (same' : B → B → Prop)
    (p1 p2 : Prog A) (f1 f2 : A → Prog B) :
  Alike same p1 p2 →
  (∀ a1 a2, same a1 a2 → Alike same' (f1 a1) (f2 a2)) →
  Alike same' (p1 ≫= f1) (p2 ≫= f2).
Proof.
  intros Hp Hf. induction Hp as [a1 a2 Ha|X r1 r2 k1 k2 Hr Hk IH].
  - by apply Hf.
  - change (Alike same' (Await r1 (λ x, k1 x ≫= f1))
                        (Await r2 (λ x, k2 x ≫= f2))).
    constructor; [done|]. intros x1 x2 Hx. by apply IH.
Qed.

(** A handler and its time-blind twin start by writing, or not,
    together. *)
Lemma is_write_blind {X} (r : Request X) : is_write (blindRequest r) = is_write r.
Proof. by destruct r. Qed.

Lemma Alike_submits {A} (same : A → A → Prop) (p1 p2 : Prog A) :
  Alike same p1 p2 → submits p1 = submits p2.
Proof.
  intros [a1 a2 _|X r1 r2 k1 k2 Hr _]; [done|]. cbn.
  by rewrite <- (is_write_blind r1), <- (is_write_blind r2), Hr.
Qed.

Lemma lacksSelection_blind (pc : gmap Z Pending) (cat : Category) :
  lacksSelection pc (blindCategory cat) = lacksSelection pc cat.
Proof. reflexivity. Qed.

Lemma lacking_blind (pc : gmap Z Pending) (cats : list Category) :
  name <$> List.filter (lacksSelection pc) (blindCategory <$> cats)
  = name <$> List.filter (lacksSelection pc) cats.
Proof.
  induction cats as [|cat cats IH]; [done|].
  cbn [fmap list_fmap List.filter]. rewrite lacksSelection_blind.
  destruct (lacksSelection pc cat); [|done].
  cbn [fmap list_fmap]. by f_equal.
Qed.

Lemma validate_blind (s : State) :
  validateAllCategoriesSelected (blindState s) = validateAllCategoriesSelected s.
Proof.
  unfold validateAllCategoriesSelected. destruct s as [[d|] ? ? ? pc ? ? ? ? ? ?];
    cbn [data blindState fmap option_fmap option_map pendingChanges]; [|done].
  cbn [categories blindImage]. rewrite !missing_loop. cbn [app].
  by rewrite lacking_blind.
Qed.

Lemma saveRefused_blind (s : State) : saveRefused (blindState s) = saveRefused s.
Proof. unfold saveRefused. by destruct s as [[d|] ? ? ? ? ? ? ? ? ? ?]. Qed.

Lemma loadCategories_blind (cats : list Category)
    (acc acc' : gmap Z Pending * Z) :
  acc.1 = acc'.1 →
  (fold_left loadCategory (blindCategory <$> cats) acc).1
  = (fold_left loadCategory cats acc').1.
Proof.
  revert acc acc'. induction cats as [|cat cats IH]; intros acc acc' Hacc;
    [done|].
  cbn [fmap list_fmap fold_left]. apply IH. unfold loadCategory.
  cbn [annotation blindCategory id].
  destruct (annotation cat) as [a|]; cbn; by rewrite ?Hacc.
Qed.

Lemma hasRework_blind (d : ImageData) : hasRework (blindImage d) = hasRework d.
Proof.
  unfold hasRework. cbn [data_is_rework blindImage categories]. f_equal.
  induction (categories d) as [|cat cats IH]; [done|].
  cbn [fmap list_fmap existsb]. rewrite <- IH. f_equal.
  by destruct cat as [? ? [a|] ?].
Qed.

(** What [loadImage] makes of the page depends on the times only in
    the timer and its warning. *)
Lemma loadImageArrived_blind (d1 d2 : ImageData) (ai : Http (option bool))
    (s1 s2 : State) :
  blindImage d1 = blindImage d2 → blindState s1 = blindState s2 →
  blindState (loadImageArrived d1 ai s1) = blindState (loadImageArrived d2 ai s2).
Proof.
  intros Hd Hs. unfold loadImageArrived.
  pose proof (loadCategories_blind (categories d1) (∅, 0) (∅, 0) eq_refl) as H1.
  pose proof (loadCategories_blind (categories d2) (∅, 0) (∅, 0) eq_refl) as H2.
  change (blindCategory <$> categories d1) with (categories (blindImage d1)) in H1.
  change (blindCategory <$> categories d2) with (categories (blindImage d2)) in H2.
  rewrite Hd in H1. rewrite H1 in H2. unfold loadCategories.
  destruct (fold_left loadCategory (categories d1) (∅, 0)) as [pc1 t1].
  destruct (fold_left loadCategory (categories d2) (∅, 0)) as [pc2 t2].
  cbn [fst] in H2. subst pc2.
  rewrite <- (hasRework_blind d1), <- (hasRework_blind d2), Hd.
  push_blind. cbn [fmap option_fmap option_map].
  by rewrite Hd, Hs.
Qed.

Lemma loadImage_Alike (imgId : Z) (s1 s2 : State) :
  blindState s1 = blindState s2 →
  Alike (λ t1 t2, blindState t1 = blindState t2)
        (loadImage imgId s1) (loadImage imgId s2).
Proof.
  intros Hs. unfold loadImage. rewrite !call_bind.
  constructor; [done|].
  intros [d1|e1] [d2|e2] Hres; [|by cbn in Hres|by cbn in Hres|].
  - pose proof (f_equal (λ res, match res with
                                | Ok d => d
                                | Fail _ => blindImage d1
                                end) Hres) as Hd.
    change (blindImage d1 = blindImage d2) in Hd. clear Hres.
    rewrite !call_bind.
    constructor; [done|]. intros ai ai' Hai. cbn in Hai. subst ai'.
    constructor.
    rewrite !blind_setLoading. f_equal.
    apply loadImageArrived_blind; [done|]. blind_with Hs.
  - cbn in Hres. injection Hres as <-. constructor. blind_with Hs.
Qed.

Lemma handleSave_Alike (imageId : Z) (s1 s2 : State) :
  blindState s1 = blindState s2 →
  Alike sameSave (handleSave imageId s1) (handleSave imageId s2).
Proof.
  intros Hs. unfold handleSave.
  rewrite <- (saveRefused_blind s1), <- (saveRefused_blind s2), Hs.
  destruct (saveRefused (blindState s2)).
  { constructor. by split. }
  rewrite <- (validate_blind s1), <- (validate_blind s2), Hs.
  destruct (valid (validateAllCategoriesSelected (blindState s2))); cbn [negb].
  - rewrite !call_bind. constructor.
    + cbn. by rewrite (f_equal pendingChanges Hs : pendingChanges s1 = _).
    + intros res res' Hres. cbn in Hres. subst res'. destruct res as [[]|e].
      * apply Alike_bind with (same := λ t1 t2, blindState t1 = blindState t2).
        { apply loadImage_Alike. blind_with Hs. }
        intros t1 t2 Ht. constructor. split; [done|]. cbn [snd].
        blind_with Ht.
      * constructor. split; [done|]. cbn [snd]. blind_with Hs.
  - constructor. split; [done|]. cbn [snd]. blind_with Hs.
Qed.

Lemma saveAnnotation_Alike (categoryId : Z) (status : Status)
    (p1 p2 : AnnotationPage.State) :
  blindPage p1 = blindPage p2 →
  Alike sameSaved (AnnotationPage.saveAnnotation categoryId status p1)
                  (AnnotationPage.saveAnnotation categoryId status p2).
Proof.
  intros Hp. destruct p1, p2. unfold blindPage in Hp; cbn in Hp; simplify_eq.
  unfold AnnotationPage.saveAnnotation. cbn [AnnotationPage.task].
  destruct task0 as [t|]; [|constructor; by split].
  cbn [AnnotationPage.savingRef]. destruct savingRef0; [constructor; by split|].
  rewrite !call_bind.
  constructor; [done|]. intros res res' Hres. cbn in Hres. subst res'.
  destruct res as [[]|e]; constructor; by split.
Qed.

(** C7.  Two saves that start from pages which differ in nothing but
    the elapsed time (and the warning drawn from it) take the same
    decision to submit and go the same way: the same refusal or the
    same validation error without a request, or the same request up to
    its time field and, on answers that agree up to the times, the
    same result and page up to the timer.  The same holds for the save
    of the category page.  Reaching the limit only raises the warning
    flag, and a tick of the timer only moves the timer. *)
Theorem elapsed_time_never_gates_save
    (imageId categoryId : Z) (status : Status) (s1 s2 : State)
    (p1 p2 : AnnotationPage.State) :
  blindState s1 = blindState s2 → blindPage p1 = blindPage p2 →
  saveRefused s1 = saveRefused s2 ∧
  validateAllCategoriesSelected s1 = validateAllCategoriesSelected s2 ∧
  submits (handleSave imageId s1) = submits (handleSave imageId s2) ∧
  Alike sameSave (handleSave imageId s1) (handleSave imageId s2) ∧
  submits (AnnotationPage.saveAnnotation categoryId status p1)
  = submits (AnnotationPage.saveAnnotation categoryId status p2) ∧
  Alike sameSaved (AnnotationPage.saveAnnotation categoryId status p1)
                  (AnnotationPage.saveAnnotation categoryId status p2) ∧
  blindState (checkTimeWarning s1) = blindState s1 ∧
  blindState (tick s1) = blindState s1.
Proof.
  intros Hs Hp.
  pose proof (handleSave_Alike imageId s1 s2 Hs) as Hsave.
  pose proof (saveAnnotation_Alike categoryId status p1 p2 Hp) as Hsaved.
  split_and!; try done.
  - by rewrite <- (saveRefused_blind s1), <- (saveRefused_blind s2), Hs.
  - by rewrite <- (validate_blind s1), <- (validate_blind s2), Hs.
  - by apply Alike_submits in Hsave.
  - by apply Alike_submits in Hsaved.
  - unfold checkTimeWarning. by destruct (_ && _).
Qed.

Lemma elapsed_time_never_gates_save_witness :
  submits (handleSave 9 (readyToSave 5)) = true ∧
  submits (handleSave 9 (readyToSave 500)) = true.
Proof.
  destruct (elapsed_time_never_gates_save 9 1 completed
              (readyToSave 5) (readyToSave 500)
              onSeven (AnnotationPage.tick onSeven) eq_refl eq_refl)
    as (_ & _ & Hsame & _).
  split; [reflexivity|]. rewrite <- Hsame. reflexivity.
Defined.

End TimeBlindSave.

(* ===================================================================== *)
(** * More properties of the client *)
(* ===================================================================== *)

(** ** Pagination *)

Section PaginationFacts.
Import Pagination.

Lemma window_spec (currentPage totalPages : Z) :
  1 ≤ currentPage ≤ totalPages →
  let '(start, end_) := window currentPage totalPages in
  1 ≤ start ≤ currentPage ∧ currentPage ≤ end_ ≤ totalPages ∧
  end_ - start + 1 = Z.min maxVisible totalPages.
Proof.
  intros Hc. unfold window, maxVisible.
  change (5 / 2) with 2.
  destruct (Z.ltb_spec
              (Z.min totalPages (Z.max 1 (currentPage - 2) + 5 - 1)
               - Z.max 1 (currentPage - 2) + 1) 5); lia.
Qed.

Lemma seqZ_sorted (m n : Z) : StronglySorted Z.lt (seqZ m n).
Proof.
  destruct (Z.le_gt_cases n 0) as [Hn|Hn]; [rewrite seqZ_nil by done; constructor|].
  rewrite <- (Z2Nat.id n) by lia. generalize (Z.to_nat n) as k. clear.
  intros k. revert m. induction k as [|k IH]; intros m; [constructor|].
  rewrite seqZ_cons by lia. apply StronglySorted_cons. split.
  - apply Forall_forall. intros x Hx%elem_of_seqZ. lia.
  - replace (Z.pred (Z.of_nat (S k))) with (Z.of_nat k) by lia. apply IH.
Qed.

Lemma pageNumbers_getPages (currentPage totalPages : Z) :
  pageNumbers (getPages currentPage totalPages)
  = let '(start, end_) := window currentPage totalPages in
    (if 1 <? start then [1] else [])
    ++ seqZ start (end_ - start + 1)
    ++ (if end_ <? totalPages then [totalPages] else []).
Proof.
  unfold getPages, pageNumbers.
  destruct (window currentPage totalPages) as [start end_].
  rewrite !omap_app. f_equal; [|f_equal].
  - by destruct (1 <? start), (2 <? start).
  - induction (seqZ start (end_ - start + 1)) as [|x l IH]; [done|].
    csimpl. by rewrite IH.
  - by destruct (end_ <? totalPages), (end_ <? totalPages - 1).
Qed.

Lemma elem_of_pageNumbers (currentPage totalPages n : Z) :
  1 ≤ currentPage ≤ totalPages →
  n ∈ pageNumbers (getPages currentPage totalPages) ↔
  n = 1 ∨ n = totalPages ∨
  ((window currentPage totalPages).1 ≤ n ≤ (window currentPage totalPages).2).
Proof.
  intros Hc. rewrite pageNumbers_getPages.
  pose proof (window_spec currentPage totalPages Hc) as Hw.
  destruct (window currentPage totalPages) as [start end_]. cbn [fst snd].
  rewrite !elem_of_app, elem_of_seqZ.
  destruct (Z.ltb_spec 1 start), (Z.ltb_spec end_ totalPages);
    rewrite ?list_elem_of_singleton, ?elem_of_nil; lia.
Qed.

Lemma ellipsis_getPages (currentPage totalPages : Z) :
  Ellipsis ∈ getPages currentPage totalPages ↔
  2 < (window currentPage totalPages).1 ∨
  (window currentPage totalPages).2 < totalPages - 1.
Proof.
  unfold getPages. destruct (window currentPage totalPages) as [start end_].
  cbn [fst snd]. rewrite !elem_of_app, list_elem_of_fmap.
  assert (¬ ∃ y, Ellipsis = PageNo y ∧ y ∈ seqZ start (end_ - start + 1))
    as Hno by (by intros (? & ? & _)).
  destruct (Z.ltb_spec 1 start), (Z.ltb_spec 2 start),
    (Z.ltb_spec end_ totalPages), (Z.ltb_spec end_ (totalPages - 1));
    rewrite ?elem_of_app, ?elem_of_cons, ?elem_of_nil;
    intuition (try lia; try discriminate; auto).
Qed.

(** X1.  For a current page between 1 and the number of pages,
    [getPages] shows page buttons in strictly increasing order, all
    between 1 and the last page, among them the first, the last and
    the current page and a window of min(5, pages) consecutive pages
    around the current one; there are at most 9 items, and an
    ellipsis is shown exactly when some page has no button. *)
Theorem getPages_shows_current (currentPage totalPages : Z) :
  1 ≤ currentPage ≤ totalPages →
  let items := getPages currentPage totalPages in
  let '(start, end_) := window currentPage totalPages in
  StronglySorted Z.lt (pageNumbers items) ∧
  Forall (λ n, 1 ≤ n ≤ totalPages) (pageNumbers items) ∧
  1 ∈ pageNumbers items ∧ totalPages ∈ pageNumbers items ∧
  currentPage ∈ pageNumbers items ∧
  (start ≤ currentPage ≤ end_ ∧ end_ - start + 1 = Z.min 5 totalPages ∧
   ∀ n, start ≤ n ≤ end_ → n ∈ pageNumbers items) ∧
  (length items ≤ 9)%nat ∧
  (Ellipsis ∈ items ↔
   ∃ n, 1 ≤ n ≤ totalPages ∧ n ∉ pageNumbers items).
Proof.
  intros Hc items. subst items.
  pose proof (window_spec currentPage totalPages Hc) as Hw.
  pose proof (λ n, elem_of_pageNumbers currentPage totalPages n Hc) as Hin.
  pose proof (pageNumbers_getPages currentPage totalPages) as Hnum.
  pose proof (ellipsis_getPages currentPage totalPages) as Hell.
  unfold getPages in *. unfold maxVisible in Hw.
  destruct (window currentPage totalPages) as [start end_].
  cbn [fst snd] in *.
  split_and!.
  - rewrite Hnum. apply StronglySorted_app_2; [| |apply StronglySorted_app_2].
    + intros x1 x2 Hx1 Hx2. rewrite elem_of_app, elem_of_seqZ in Hx2.
      destruct (Z.ltb_spec 1 start), (Z.ltb_spec end_ totalPages);
        rewrite ?list_elem_of_singleton, ?elem_of_nil in *; lia.
    + destruct (1 <? start); repeat constructor.
    + intros x1 x2 Hx1%elem_of_seqZ Hx2.
      destruct (Z.ltb_spec end_ totalPages);
        rewrite ?list_elem_of_singleton, ?elem_of_nil in *; lia.
    + apply seqZ_sorted.
    + destruct (end_ <? totalPages); repeat constructor.
  - apply Forall_forall. intros n Hn%Hin. lia.
  - apply Hin. lia.
  - apply Hin. lia.
  - apply Hin. lia.
  - lia.
  - lia.
  - lia.
  - intros n Hn. apply Hin. lia.
  - rewrite !length_app, length_fmap, length_seqZ.
    destruct (1 <? start), (2 <? start), (end_ <? totalPages),
      (end_ <? totalPages - 1); cbn [length app]; lia.
  - rewrite Hell. split.
    + intros [Hs|He].
      * exists 2. split; [lia|]. rewrite Hin. lia.
      * exists (totalPages - 1). split; [lia|]. rewrite Hin. lia.
    + intros (n & Hn & Hout). rewrite Hin in Hout. lia.
Qed.

Lemma getPages_shows_current_witness :
  getPages 7 20
  = [PageNo 1; Ellipsis; PageNo 5; PageNo 6; PageNo 7; PageNo 8; PageNo 9;
     Ellipsis; PageNo 20]
  ∧ 7 ∈ pageNumbers (getPages 7 20)
  ∧ StronglySorted Z.lt (pageNumbers (getPages 7 20)).
Proof.
  split; [reflexivity|].
  pose proof (getPages_shows_current 7 20 ltac:(lia)) as H.
  cbv zeta in H. change (window 7 20) with (5, 9) in H.
  destruct H as (Hsorted & _ & _ & _ & Hcurrent & _). by split.
Defined.

End PaginationFacts.

(** ** Routes *)

Section RoutesFacts.
Import Routes.

Lemma ProtectedRoute_children (auth : Auth) (required : option string)
    (children page : Page) :
  ProtectedRoute auth required children = Show page → page = children.
Proof.
  unfold ProtectedRoute. destruct (loading auth); [done|].
  destruct (user auth) as [u|]; [|done].
  destruct required as [r|]; [destruct (_ && _)|]; congruence.
Qed.

Lemma ProtectedRoute_shows (auth : Auth) (required : string) (page : Page) :
  required ≠ "" →
  ProtectedRoute auth (Some required) page = Show page →
  loading auth = false ∧ ∃ u, user auth = Some u ∧ role u = required.
Proof.
  intros Hreq. unfold ProtectedRoute. destruct (loading auth); [done|].
  destruct (user auth) as [u|]; [|done].
  destruct (String.eqb_spec required ""); [done|].
  destruct (String.eqb_spec (role u) required); cbn; [|done].
  intros _. split; [done|]. by exists u.
Qed.

(** X2.  A page behind [ProtectedRoute] is rendered only once the
    session has loaded, for a logged-in user whose role is the one the
    route asks for: the admin dashboard for admins, the annotator
    pages for annotators.  While the session loads nothing but the
    login page is rendered, and without a user every other path
    navigates to the login page. *)
Theorem App_shows_to_role (auth : Auth) (path : Path) (page : Page) :
  (App auth path = Show page →
   match audience page with
   | Some r => loading auth = false ∧ ∃ u, user auth = Some u ∧ role u = r
   | None => path = Login
   end) ∧
  (loading auth = true → path ≠ Login →
   App auth path = Spinner ∨ App auth path = Nothing) ∧
  (loading auth = false → user auth = None → path ≠ Login →
   App auth path = Navigate Login).
Proof.
  split_and!.
  - destruct path; cbn [App]; try (intros [= <-]; done).
    + unfold RootRedirect. destruct (loading auth); [done|].
      destruct (user auth) as [u|]; [|done]. by destruct (String.eqb _ _).
    + intros Hshow.
      pose proof (ProtectedRoute_children _ _ _ _ Hshow) as ->.
      by apply ProtectedRoute_shows in Hshow.
    + intros Hshow.
      pose proof (ProtectedRoute_children _ _ _ _ Hshow) as ->.
      by apply ProtectedRoute_shows in Hshow.
    + intros Hshow.
      pose proof (ProtectedRoute_children _ _ _ _ Hshow) as ->.
      by apply ProtectedRoute_shows in Hshow.
    + intros Hshow.
      pose proof (ProtectedRoute_children _ _ _ _ Hshow) as ->.
      by apply ProtectedRoute_shows in Hshow.
  - intros Hload Hpath.
    destruct path; cbn [App]; unfold RootRedirect, ProtectedRoute;
      rewrite ?Hload; auto. done.
  - intros Hload Huser Hpath.
    destruct path; cbn [App]; unfold RootRedirect, ProtectedRoute;
      rewrite ?Hload, ?Huser; auto. done.
Qed.

Lemma App_shows_to_role_witness :
  ∃ u, user (mkAuth (Some (mkUser "admin")) false) = Some u ∧ role u = "admin".
Proof.
  destruct (App_shows_to_role (mkAuth (Some (mkUser "admin")) false) Admin
              AdminDashboard) as [Hshow _].
  apply Hshow. reflexivity.
Defined.

(** X3.  With the session loaded, following the redirects of the route
    table from any path ends, after at most two of them, on a page
    when there is no user (the login page) or the user is an admin
    (the dashboard, or the login page if asked for) or an annotator
    (the annotator page asked for, else the annotator home).  For a
    user with any other role the redirects from the root never end:
    the root sends to the annotator home, which sends back to the
    root. *)
Theorem redirects_settle (auth : Auth) (path : Path) :
  loading auth = false →
  (user auth = None → settle 2 auth path = Show LoginPage) ∧
  (∀ u, user auth = Some u → role u = "admin" →
     settle 2 auth path
     = Show match path with Login => LoginPage | _ => AdminDashboard end) ∧
  (∀ u, user auth = Some u → role u = "annotator" →
     settle 2 auth path
     = Show match path with
            | Login => LoginPage
            | AnnotatorCategory c => AnnotationPage c
            | AnnotatorImage i => ImageAnnotationPage i
            | _ => AnnotatorHomePage
            end) ∧
  (∀ u, user auth = Some u → role u ≠ "admin" → role u ≠ "annotator" →
     ∀ hops, ∃ to, settle hops auth Root = Navigate to).
Proof.
  intros Hload. split_and!.
  - intros Huser.
    destruct path;
      repeat (cbn; unfold RootRedirect, ProtectedRoute; rewrite ?Hload, ?Huser);
      reflexivity.
  - intros u Huser Hrole.
    destruct path;
      repeat (cbn; unfold RootRedirect, ProtectedRoute;
              rewrite ?Hload, ?Huser, ?Hrole);
      reflexivity.
  - intros u Huser Hrole.
    destruct path;
      repeat (cbn; unfold RootRedirect, ProtectedRoute;
              rewrite ?Hload, ?Huser, ?Hrole);
      reflexivity.
  - intros u Huser Hadmin Hannotator.
    assert (App auth Root = Navigate AnnotatorHome) as Hroot.
    { cbn. unfold RootRedirect. rewrite Hload, Huser.
      by destruct (String.eqb_spec (role u) "admin"). }
    assert (App auth AnnotatorHome = Navigate Root) as Hhome.
    { cbn. unfold ProtectedRoute. rewrite Hload, Huser.
      by destruct (String.eqb_spec (role u) "annotator"). }
    assert (∀ hops,
              (∃ to, settle hops auth Root = Navigate to) ∧
              (∃ to, settle hops auth AnnotatorHome = Navigate to)) as Hloop.
    { induction hops as [|hops [IHroot IHhome]]; cbn [settle];
        rewrite Hroot, Hhome; eauto. }
    intros hops. apply Hloop.
Qed.

Lemma redirects_settle_witness :
  settle 2 (mkAuth (Some (mkUser "annotator")) false) Admin
  = Show AnnotatorHomePage ∧
  ∃ to, settle 7 (mkAuth (Some (mkUser "guest")) false) Root = Navigate to.
Proof.
  destruct (redirects_settle (mkAuth (Some (mkUser "annotator")) false) Admin
              eq_refl) as (_ & _ & Hann & _).
  destruct (redirects_settle (mkAuth (Some (mkUser "guest")) false) Root
              eq_refl) as (_ & _ & _ & Hother).
  split.
  - by apply (Hann (mkUser "annotator")).
  - by apply (Hother (mkUser "guest")).
Defined.

End RoutesFacts.

(** ** Outcomes of handlers *)

Section OutcomeFacts.
Import Outcomes.

Lemma Ends_bind {A B} (P : A → Prop) (Q : B → Prop) (p : Prog A)
    (f : A → Prog B) :
  Ends P p → (∀ a, P a → Ends Q (f a)) → Ends Q (p ≫= f).
Proof.
  intros Hp Hf. induction Hp as [a Ha|X r k Hk IH]; [by apply Hf|].
  change (Await r k ≫= f) with (Await r (λ x, k x ≫= f)).
  by constructor.
Qed.

Lemma Ends_impl {A} (P Q : A → Prop) (p : Prog A) :
  (∀ a, P a → Q a) → Ends P p → Ends Q p.
Proof. intros HPQ. induction 1; constructor; auto. Qed.

Lemma run_Ends {Store A} (srv : Backend Store) (P : A → Prop) (p : Prog A)
    (store : Store) :
  Ends P p → P (run srv p store).1.1.
Proof.
  intros Hp. revert store. induction Hp as [a Ha|X r k Hk IH]; intros store;
    [done|].
  cbn [run]. destruct (srv X r store) as [x store1].
  specialize (IH x store1).
  by destruct (run srv (k x) store1) as [[a store2] log].
Qed.

End OutcomeFacts.

(** ** More of the category page *)

Section AnnotationPageMore.
Import TaskWire AnnotationPage Notions Outcomes.

Lemma str_or_nonempty (x : option string) (d : string) :
  d ≠ "" → Js.str_or x d ≠ "".
Proof.
  intros Hd. unfold Js.str_or. destruct x as [s|]; [|done].
  by destruct (String.eqb_spec s "").
Qed.

(** X4.  [saveAnnotation] sends nothing and returns false while there
    is no task or a save is under way.  Otherwise it sends one request,
    the page's selection, duplicate flag, status and timer for the
    image of the task, and whatever the answer the page comes out of
    it with [saving] and the save guard released and its task, index
    and selection untouched; it returns true exactly when the request
    succeeded, and a failure leaves a non-empty error message. *)
Theorem saveAnnotation_settles
    (categoryId : Z) (st : Status) (s : State) (t : Task) :
  ((task s = None ∨ savingRef s = true) →
   saveAnnotation categoryId st s = Ret (false, s)) ∧
  (task s = Some t → savingRef s = false →
   ∃ k, saveAnnotation categoryId st s
        = Await (PutAnnotate categoryId (image_id t)
                   (mkAnnotateBody (selectedOptions s) (isDuplicate s) st
                                   (elapsedSeconds s))) k ∧
        ∀ res, ∃ ok s',
          k res = Ret (ok, s') ∧
          saving s' = false ∧ savingRef s' = false ∧
          task s' = task s ∧ queueIndex s' = queueIndex s ∧
          selectedOptions s' = selectedOptions s ∧
          elapsedSeconds s' = elapsedSeconds s ∧
          match res with
          | Ok _ => ok = true ∧ error s' = error s
          | Fail e => ok = false ∧ error s' ≠ "" ∧
                      error s' = Js.str_or (err_detail e) "Failed to save"
          end).
Proof.
  split.
  - unfold saveAnnotation. intros [-> | Href]; [done|].
    rewrite Href. by destruct (task s).
  - intros Ht Href. unfold saveAnnotation. rewrite Ht, Href.
    eexists. split; [reflexivity|].
    intros [[]|e]; do 2 eexists; (split; [reflexivity|]); cbn;
      split_and!; try done.
    by apply str_or_nonempty.
Qed.

Lemma saveAnnotation_settles_witness :
  ∃ k, saveAnnotation 1 completed Samples.onEight
       = Await (PutAnnotate 1 8 (mkAnnotateBody [21] None completed 12)) k.
Proof.
  destruct (saveAnnotation_settles 1 completed Samples.onEight
              (mkTask 8 2 None)) as [_ Hsend].
  destruct (Hsend eq_refl eq_refl) as (k & Hk & _). by exists k.
Defined.

(** X5.  [loadTask] asks for one task and always ends with [loading]
    off.  When the task arrives the page shows it at the index asked
    for, with the selection, the duplicate flag and the timer of the
    annotator's own record (or empty, unset and 0) and no error.  When
    the request fails the page keeps the task, the index, the
    selection and the timer it had, and shows either the completion
    screen or a non-empty error, never both and never neither. *)
Theorem loadTask_settles (categoryId index : Z) (s : State) :
  ∃ k, loadTask categoryId index s = Await (GetTask categoryId index) k ∧
  ∀ res, ∃ s',
    k res = Ret s' ∧ loading s' = false ∧
    match res with
    | Ok data =>
        task s' = Some data ∧ queueIndex s' = index ∧
        error s' = "" ∧ allDone s' = false ∧
        selectedOptions s'
        = default [] (current_annotation data ≫= selected_option_ids) ∧
        isDuplicate s' = current_annotation data ≫= is_duplicate ∧
        elapsedSeconds s'
        = Js.num_or (current_annotation data ≫= time_spent_seconds) 0
    | Fail e =>
        task s' = task s ∧ queueIndex s' = queueIndex s ∧
        selectedOptions s' = selectedOptions s ∧
        isDuplicate s' = isDuplicate s ∧
        elapsedSeconds s' = elapsedSeconds s ∧
        ((allDone s' = true ∧ error s' = "") ∨
         (allDone s' = false ∧ error s' ≠ ""))
    end.
Proof.
  eexists. split; [reflexivity|].
  intros [data|e]; eexists; (split; [reflexivity|]); (split; [reflexivity|]).
  - unfold loadTaskArrived. by destruct (current_annotation data) as [a|].
  - unfold loadTaskFailed.
    destruct (bool_decide (err_status e = Some 404)).
    + destruct (_ || _); cbn; split_and!; try done; [by left|right].
      split; [done|].
      by apply (str_or_nonempty (Some (Js.str_or (err_detail e) ""))).
    + cbn. split_and!; try done. right.
      split; [done|]. by apply str_or_nonempty.
Qed.

(** X6.  [handleNext] does nothing while there is no task or a save is
    under way.  Otherwise its first request is the record of the image
    with status completed and it is the only write: whatever the
    answers, everything that follows is a read.  When that save fails
    nothing follows, and the page stays on the image with a non-empty
    error. *)
Theorem handleNext_saves_once (categoryId : Z) (s : State) (t : Task) :
  ((task s = None ∨ savingRef s = true) → handleNext categoryId s = Ret s) ∧
  (task s = Some t → savingRef s = false →
   ∃ k, handleNext categoryId s
        = Await (PutAnnotate categoryId (image_id t)
                   (mkAnnotateBody (selectedOptions s) (isDuplicate s)
                                   completed (elapsedSeconds s))) k ∧
        (∀ res, ReadOnly (k res)) ∧
        ∀ e, ∃ s', k (Fail e) = Ret s' ∧
                   task s' = task s ∧ queueIndex s' = queueIndex s ∧
                   saving s' = false ∧ error s' ≠ "").
Proof.
  split.
  - intros Hno. unfold handleNext, saveAnnotation.
    destruct Hno as [->|Href]; [done|].
    rewrite Href. by destruct (task s).
  - intros Ht Href. unfold handleNext, saveAnnotation. rewrite Ht, Href.
    eexists. split; [reflexivity|]. split.
    + intros [[]|e]; cbn; [|constructor].
      constructor; [done|]. intros [newSize|e]; cbn; [|constructor].
      destruct (_ || _);
        [apply resumeOrFinish_ReadOnly|apply loadTask_ReadOnly].
    + intros e. eexists. split; [reflexivity|]. cbn. split_and!; try done.
      by apply str_or_nonempty.
Qed.

Lemma handleNext_saves_once_witness :
  ∃ k, handleNext 1 Samples.onEight
       = Await (PutAnnotate 1 8 (mkAnnotateBody [21] None completed 12)) k
       ∧ ∀ res, ReadOnly (k res).
Proof.
  destruct (handleNext_saves_once 1 Samples.onEight (mkTask 8 2 None))
    as [_ Hsend].
  destruct (Hsend eq_refl eq_refl) as (k & Hk & Hro & _). by exists k.
Defined.

(** X7.  Going back and mounting never write.  [handleBack] does
    nothing on the first image and otherwise asks for the task before
    the current one; the mount effect asks the resume index and then
    the task at that index, or the first task when the resume index
    fails.  A key pressed in an input or while a save is under way
    does nothing. *)
Theorem navigation_only_reads (categoryId : Z) (s : State) (key : Key) :
  ReadOnly (handleBack categoryId s) ∧
  (queueIndex s ≤ 0 → handleBack categoryId s = Ret s) ∧
  (0 < queueIndex s →
   handleBack categoryId s = loadTask categoryId (queueIndex s - 1) s) ∧
  ReadOnly (mount categoryId s) ∧
  (∃ k, mount categoryId s = Await (GetResumeIndex categoryId) k ∧
        (∀ r, k (Ok r) = loadTask categoryId (index r) s) ∧
        (∀ e, k (Fail e) = loadTask categoryId 0 s)) ∧
  onKeyDown categoryId true key s = Ret s ∧
  (savingRef s = true → onKeyDown categoryId false key s = Ret s).
Proof.
  split_and!.
  - unfold handleBack. destruct (_ <? _); [apply loadTask_ReadOnly|constructor].
  - intros Hidx. unfold handleBack. by destruct (Z.ltb_spec 0 (queueIndex s)); [lia|].
  - intros Hidx. unfold handleBack. by destruct (Z.ltb_spec 0 (queueIndex s)); [|lia].
  - unfold mount. apply ReadOnly_bind; [by apply ReadOnly_call|].
    intros [r|e]; apply loadTask_ReadOnly.
  - eexists. split; [reflexivity|]. split; intros; reflexivity.
  - reflexivity.
  - intros Href. unfold onKeyDown. by rewrite Href.
Qed.

Lemma navigation_only_reads_witness :
  handleBack 1 Samples.onSeven = Ret Samples.onSeven ∧
  handleBack 1 Samples.onEight = loadTask 1 0 Samples.onEight.
Proof.
  destruct (navigation_only_reads 1 Samples.onSeven Enter)
    as (_ & Hfirst & _).
  destruct (navigation_only_reads 1 Samples.onEight Enter)
    as (_ & _ & Hlater & _).
  split; [apply Hfirst|apply Hlater]; cbn; lia.
Defined.

End AnnotationPageMore.

(** ** More of the image page *)

Section ImagePageMore.
Import ImageWire ImageAnnotationPage ImagePageView Notions Outcomes.

Lemma browser_eta (b : Browser) : mkBrowser (page b) (navigated b) = b.
Proof. by destruct b. Qed.

(** X8.  The [Save] buttons are disabled exactly when [handleSave]
    refuses to start.  On such a page (a save under way, an image that
    cannot be edited or is marked improper) [handleSave] sends nothing
    and returns false, [handleSaveAndNext] leaves the browser where it
    is, and no key does anything, the arrow keys included, although
    [handleNavigate] itself would go to another image. *)
Theorem disabled_save_does_nothing (imageId : Z) (b : Browser) :
  saveDisabled (page b) = saveRefused (page b) ∧
  (saveDisabled (page b) = true →
   handleSave imageId (page b) = Ret (false, page b) ∧
   handleSaveAndNext imageId b = Ret b ∧
   (∀ inInput key ctrlKey, onKeyDown imageId inInput key ctrlKey b = Ret b) ∧
   (∀ i, i ≠ 0 →
         Ends (λ b', navigated b' = Some (ToImage i))
              (handleNavigate imageId (Some i) b))).
Proof.
  assert (saveDisabled (page b) = saveRefused (page b)) as Heq.
  { unfold saveDisabled, saveRefused, canEdit, isImproper.
    destruct (saving (page b)), (data (page b)) as [d|]; cbn; [done..| |done].
    by destruct (can_edit d), (is_improper d). }
  split; [done|]. rewrite Heq. intros Href. split_and!.
  - unfold handleSave. by rewrite Href.
  - unfold handleSaveAndNext, handleSave. rewrite Href. cbn.
    by rewrite browser_eta.
  - intros inInput key ctrlKey. unfold onKeyDown. rewrite Href.
    by destruct inInput.
  - intros i Hi. unfold handleNavigate, Js.truthy_num.
    destruct (Z.eqb_spec i 0) as [|_]; [done|]. cbn.
    destruct (_ <=? _); cbn; repeat constructor.
Qed.

Lemma disabled_save_does_nothing_witness :
  handleSave 9 (setSaving true initial) = Ret (false, setSaving true initial).
Proof.
  destruct (disabled_save_does_nothing 9
              (mkBrowser (setSaving true initial) None)) as [_ Hoff].
  by destruct (Hoff eq_refl) as [Hsave _].
Defined.

Lemma filter_cover {A} (f g : A → bool) (l : list A) :
  (∀ x, x ∈ l → f x = false → g x = true) →
  (length l ≤ length (List.filter f l) + length (List.filter g l))%nat.
Proof.
  induction l as [|x l IH]; intros Hfg; [done|]. cbn.
  assert (length l ≤ length (List.filter f l) + length (List.filter g l))%nat
    as Hl.
  { apply IH. intros y Hy. apply Hfg. by apply elem_of_cons; right. }
  specialize (Hfg x (list_elem_of_here _ _)).
  destruct (f x); cbn; [destruct (g x); cbn; lia|].
  rewrite Hfg by done. cbn. lia.
Qed.

Lemma filter_length_le' {A} (f : A → bool) (l : list A) :
  (length (List.filter f l) ≤ length l)%nat.
Proof. induction l as [|x l IH]; cbn; [done|]. destruct (f x); cbn; lia. Qed.

Lemma counted_unless_lacking (pc : gmap Z Pending) (cat : Category) :
  lacksSelection pc cat = false →
  hasPendingSelection pc (id cat) || completed_by_other cat = true.
Proof.
  unfold lacksSelection, hasPendingSelection.
  destruct (pc !! id cat) as [pending|]; cbn.
  - rewrite andb_false_r.
    destruct (pending_selected_option_ids pending) as [ids|]; [|done].
    destruct ids; cbn; [done|]. intros _. by rewrite bool_decide_true by lia.
  - rewrite andb_true_r. by destruct (completed_by_other cat).
Qed.

(** X9.  The counter of the header and the validation of [handleSave]
    agree in one direction: every category is either counted as done
    or named as missing (possibly both), so when the validation passes
    the counter shows all the categories.  The counter never exceeds
    the number of categories. *)
Theorem completedCount_covers (s : State) (d : ImageData) :
  data s = Some d →
  (completedCount s ≤ length (categories d))%nat ∧
  (length (categories d)
   ≤ length (missing (validateAllCategoriesSelected s)) + completedCount s)%nat ∧
  (valid (validateAllCategoriesSelected s) = true →
   completedCount s = length (categories d)).
Proof.
  intros Hd. destruct (validate_loaded s d Hd) as [Hmiss Hvalid].
  assert (completedCount s ≤ length (categories d))%nat as Hle.
  { unfold completedCount. rewrite Hd. apply filter_length_le'. }
  assert (length (categories d)
          ≤ length (missing (validateAllCategoriesSelected s))
            + completedCount s)%nat as Hcover.
  { rewrite Hmiss, length_fmap. unfold completedCount. rewrite Hd.
    apply filter_cover. intros cat _. apply counted_unless_lacking. }
  split_and!; [done..|].
  intros Hv. rewrite Hvalid in Hv. apply bool_decide_eq_true in Hv.
  rewrite Hv in Hcover. cbn in Hcover. lia.
Qed.

Lemma completedCount_covers_witness :
  completedCount (Samples.readyToSave 40) = 3%nat.
Proof.
  destruct (completedCount_covers (Samples.readyToSave 40)
              Samples.threeCategories eq_refl) as (_ & _ & Hall).
  rewrite Hall; [reflexivity|]. vm_compute. reflexivity.
Defined.

Lemma checkTimeWarning_effect (s : State) :
  elapsedSeconds (checkTimeWarning s) = elapsedSeconds s ∧
  currentMaxTime (checkTimeWarning s) = currentMaxTime s ∧
  showTimeWarning (checkTimeWarning s)
  = showTimeWarning s || (currentMaxTime s <=? elapsedSeconds s).
Proof.
  unfold checkTimeWarning.
  destruct (currentMaxTime s <=? elapsedSeconds s), (showTimeWarning s) eqn:Hw;
    cbn; by rewrite ?Hw.
Qed.

Lemma countdownTone_red (s : State) :
  countdownTone s = red ↔ currentMaxTime s ≤ elapsedSeconds s.
Proof.
  unfold countdownTone, remainingSeconds.
  destruct (Z.leb_spec (currentMaxTime s - elapsedSeconds s) 0);
    [intuition lia|].
  destruct (_ <=? 30); split; (done || lia).
Qed.

Lemma secondsPass_effect (n : nat) (s : State) :
  elapsedSeconds (secondsPass n s) = elapsedSeconds s + Z.of_nat n ∧
  currentMaxTime (secondsPass n s) = currentMaxTime s ∧
  showTimeWarning (secondsPass n s)
  = showTimeWarning s
    || (bool_decide (0 < n)%nat
        && (currentMaxTime s <=? elapsedSeconds s + Z.of_nat n)).
Proof.
  revert s. induction n as [|n IH]; intros s.
  - cbn. split_and!; [lia|done|]. by rewrite orb_false_r.
  - cbn [secondsPass].
    destruct (IH (checkTimeWarning (tick s))) as (He & Hm & Hw).
    destruct (checkTimeWarning_effect (tick s)) as (He1 & Hm1 & Hw1).
    rewrite He, Hm, Hw, He1, Hm1, Hw1.
    change (elapsedSeconds (tick s)) with (elapsedSeconds s + 1).
    change (currentMaxTime (tick s)) with (currentMaxTime s).
    change (showTimeWarning (tick s)) with (showTimeWarning s).
    split_and!; [lia|done|].
    replace (elapsedSeconds s + 1 + Z.of_nat n)
      with (elapsedSeconds s + Z.of_nat (S n)) by lia.
    rewrite (bool_decide_true (0 < S n)%nat) by lia.
    destruct (showTimeWarning s); [done|]. cbn [orb andb].
    destruct (Z.leb_spec (currentMaxTime s) (elapsedSeconds s + 1)),
             (Z.leb_spec (currentMaxTime s) (elapsedSeconds s + Z.of_nat (S n)));
      try (exfalso; lia); cbn; [done| |by rewrite andb_false_r].
    rewrite bool_decide_true by lia. done.
Qed.

(** X10.  Seconds passing on the image page: the timer counts them,
    the limit does not move, and the warning is on afterwards exactly
    when it was on before or the timer has reached the limit; it is
    never taken back.  So, after at least one second, a red countdown
    comes with the warning. *)
Theorem warning_follows_countdown (n : nat) (s : State) :
  elapsedSeconds (secondsPass n s) = elapsedSeconds s + Z.of_nat n ∧
  currentMaxTime (secondsPass n s) = currentMaxTime s ∧
  showTimeWarning (secondsPass n s)
  = showTimeWarning s
    || (bool_decide (0 < n)%nat
        && (currentMaxTime s <=? elapsedSeconds s + Z.of_nat n)) ∧
  ((0 < n)%nat → countdownTone (secondsPass n s) = red →
   showTimeWarning (secondsPass n s) = true).
Proof.
  destruct (secondsPass_effect n s) as (He & Hm & Hw).
  split_and!; [done..|].
  intros Hn Hred. apply countdownTone_red in Hred.
  rewrite Hm, He in Hred. rewrite Hw, bool_decide_true by done.
  destruct (Z.leb_spec (currentMaxTime s) (elapsedSeconds s + Z.of_nat n));
    [|lia].
  apply orb_true_r.
Qed.

Lemma warning_follows_countdown_witness :
  showTimeWarning (secondsPass 5 (Samples.readyToSave 117)) = true.
Proof.
  destruct (warning_follows_countdown 5 (Samples.readyToSave 117))
    as (_ & _ & _ & Hred).
  apply Hred; [lia|reflexivity].
Defined.

Lemma num_or_nonzero (x : option Z) (d : Z) : d ≠ 0 → Js.num_or x d ≠ 0.
Proof.
  intros Hd. unfold Js.num_or. destruct x as [n|]; [|done].
  by destruct (Z.eqb_spec n 0).
Qed.

(** X11.  [loadImage] decides the warning against the limit of the
    first render, 120, whatever limits the settings request has set
    or will set: the two answers can arrive in either order with the
    same page as result.  With a configured limit above 120 an image
    resumed between the two shows the warning under a countdown that
    is not red, and keeps it; with one below 120 the loaded page has
    a red countdown and no warning until the effect adds it. *)
Theorem loadImage_warning_uses_first_limit
    (d : ImageData) (ai : Http (option bool))
    (limits : Http (option Z * option Z)) (s : State) :
  let loaded := loadImageArrived d ai (timeLimitsArrived limits s) in
  loaded = timeLimitsArrived limits (loadImageArrived d ai s) ∧
  showTimeWarning loaded = (120 <=? elapsedSeconds loaded) ∧
  maxAnnotationTime loaded ≠ 0 ∧ maxReworkTime loaded ≠ 0 ∧
  (∀ e, limits = Fail e → currentMaxTime loaded = 120) ∧
  (120 ≤ elapsedSeconds loaded < currentMaxTime loaded →
   countdownTone loaded ≠ red ∧
   ∀ n, showTimeWarning (secondsPass n loaded) = true) ∧
  (currentMaxTime loaded ≤ elapsedSeconds loaded < 120 →
   countdownTone loaded = red ∧ showTimeWarning loaded = false ∧
   showTimeWarning (checkTimeWarning loaded) = true).
Proof.
  intros loaded.
  assert (loaded = timeLimitsArrived limits (loadImageArrived d ai s)) as Hcomm.
  { subst loaded. unfold loadImageArrived, timeLimitsArrived.
    destruct (loadCategories (categories d)) as [pc saved].
    by destruct limits as [[a r]|e]. }
  assert (showTimeWarning loaded = (120 <=? elapsedSeconds loaded)) as Hw.
  { subst loaded. unfold loadImageArrived.
    destruct (loadCategories (categories d)) as [pc saved]. cbn.
    by destruct (hasRework d). }
  assert (maxAnnotationTime loaded ≠ 0 ∧ maxReworkTime loaded ≠ 0) as [Ha Hr].
  { rewrite Hcomm. unfold timeLimitsArrived.
    destruct limits as [[a r]|e]; cbn; [|done].
    split; by apply num_or_nonzero. }
  split_and!; try done.
  - intros e ->. rewrite Hcomm.
    unfold currentMaxTime. cbn. by destruct (isReworkMode _).
  - intros [Hlo Hhi]. split.
    + intros Hred%countdownTone_red. lia.
    + intros n. destruct (secondsPass_effect n loaded) as (_ & _ & ->).
      rewrite Hw. by destruct (Z.leb_spec 120 (elapsedSeconds loaded)); [|lia].
  - intros [Hlo Hhi]. split_and!.
    + by apply countdownTone_red.
    + rewrite Hw. by destruct (Z.leb_spec 120 (elapsedSeconds loaded)); [lia|].
    + destruct (checkTimeWarning_effect loaded) as (_ & _ & ->).
      destruct (Z.leb_spec (currentMaxTime loaded) (elapsedSeconds loaded));
        [apply orb_true_r|lia].
Qed.

Lemma loadImage_warning_uses_first_limit_witness :
  showTimeWarning
    (secondsPass 30
       (loadImageArrived (MoreSamples.savedFor 150) (Ok None)
          (timeLimitsArrived (Ok (Some 300, Some 300)) initial)))
  = true.
Proof.
  destruct (loadImage_warning_uses_first_limit (MoreSamples.savedFor 150)
              (Ok None) (Ok (Some 300, Some 300)) initial)
    as (_ & _ & _ & _ & _ & Hup & _).
  apply Hup. vm_compute. split; [discriminate|reflexivity].
Defined.

Lemma loadCategories_entry (cats : list Category) (acc : gmap Z Pending * Z)
    (k : Z) (p : Pending) :
  (fold_left loadCategory cats acc).1 !! k = Some p →
  acc.1 !! k = Some p ∨
  ∃ cat a, cat ∈ cats ∧ id cat = k ∧ annotation cat = Some a ∧
           p = mkPending (selected_option_ids a).
Proof.
  revert acc. induction cats as [|c cats IH]; intros acc H; [by left|].
  cbn in H. apply IH in H as [H|(cat & a & Hin & Hrest)].
  - unfold loadCategory in H. destruct (annotation c) as [a|] eqn:Ea; [|by left].
    cbn in H. apply lookup_insert_Some in H as [[<- <-]|[_ H]]; [right|by left].
    exists c, a. split_and!; try done. apply elem_of_cons; by left.
  - right. exists cat, a. split; [|done]. apply elem_of_cons; by right.
Qed.

Lemma find_by_id (cats : list Category) (cat : Category) :
  NoDup (id <$> cats) → cat ∈ cats →
  List.find (λ c, bool_decide (id c = id cat)) cats = Some cat.
Proof.
  induction cats as [|c cats IH]; intros Hnd Hin; [by apply elem_of_nil in Hin|].
  rewrite fmap_cons in Hnd. apply NoDup_cons in Hnd as [Hc Hnd].
  cbn. case_bool_decide as Hid.
  - apply elem_of_cons in Hin as [->|Hin]; [done|].
    exfalso. apply Hc. rewrite Hid. apply list_elem_of_fmap. by exists cat.
  - apply elem_of_cons in Hin as [->|Hin]; [done|]. by apply IH.
Qed.

Lemma sets_differ (E P : gset Z) :
  (if bool_decide (size E ≠ size P) then true
   else existsb (λ i, bool_decide (i ∉ P)) (elements E))
  = bool_decide (E ≠ P).
Proof.
  symmetry. destruct (bool_decide (size E ≠ size P)) eqn:Hsz.
  - apply bool_decide_eq_true in Hsz. apply bool_decide_eq_true. by intros ->.
  - apply bool_decide_eq_false in Hsz. destruct (existsb _ _) eqn:Hex.
    + apply bool_decide_eq_true.
      apply existsb_exists in Hex as (i & Hi & Hni).
      apply bool_decide_eq_true in Hni.
      apply list_elem_of_In, elem_of_elements in Hi. by intros <-.
    + apply bool_decide_eq_false. intros Hne. apply Hne.
      apply set_subseteq_size_eq.
      * intros i Hi. destruct (decide (i ∈ P)) as [|Hni]; [done|].
        assert (existsb (λ i, bool_decide (i ∉ P)) (elements E) = true)
          as Hyes; [|congruence].
        apply existsb_exists. exists i.
        split; [by apply list_elem_of_In, elem_of_elements|].
        by apply bool_decide_eq_true.
      * destruct (decide (size E = size P)) as [->|]; [done|].
        by destruct Hsz.
Qed.

Lemma changedEntry_found (d : ImageData) (cat : Category) (v : Pending) :
  NoDup (id <$> categories d) → cat ∈ categories d →
  changedEntry (Some d) (id cat) v
  = match annotation cat with
    | None => bool_decide (default [] (pending_selected_option_ids v) ≠ [])
    | Some a =>
        bool_decide
          (list_to_set (default [] (selected_option_ids a))
           ≠@{gset Z} list_to_set (default [] (pending_selected_option_ids v)))
    end.
Proof.
  intros Hnd Hin. unfold changedEntry. cbn.
  rewrite (find_by_id _ _ Hnd Hin).
  destruct (annotation cat) as [a|]; [apply sets_differ|].
  by destruct (pending_selected_option_ids v) as [[|i ids]|].
Qed.

Lemma loadImageArrived_page (d : ImageData) (ai : Http (option bool))
    (s : State) :
  data (loadImageArrived d ai s) = Some d ∧
  pendingChanges (loadImageArrived d ai s) = (loadCategories (categories d)).1.
Proof.
  unfold loadImageArrived. by destruct (loadCategories (categories d)).
Qed.

Lemma loaded_entry_unchanged (d : ImageData) (k : Z) (p : Pending) :
  NoDup (id <$> categories d) →
  (loadCategories (categories d)).1 !! k = Some p →
  changedEntry (Some d) k p = false.
Proof.
  intros Hnd Hk. apply loadCategories_entry in Hk as [Hk|Hk]; [done|].
  destruct Hk as (cat & a & Hin & <- & Ha & ->).
  rewrite (changedEntry_found d cat _ Hnd Hin), Ha. cbn.
  by apply bool_decide_eq_false; intros Hne.
Qed.

(** X12.  When the categories of an image have distinct ids, the page
    [loadImage] builds has no unsaved changes.  After one
    [handleCategoryChange] on a category of the image it has some
    exactly when the set of options handed over differs from the set
    saved for the category (or is not empty, when nothing was saved):
    the order and the repetitions of the options do not count. *)
Theorem hasChanges_tracks_edits
    (d : ImageData) (ai : Http (option bool)) (s : State) :
  NoDup (id <$> categories d) →
  hasChanges (loadImageArrived d ai s) = false ∧
  ∀ cat v, cat ∈ categories d →
    hasChanges (handleCategoryChange (id cat) v (loadImageArrived d ai s))
    = match annotation cat with
      | None => bool_decide (default [] (pending_selected_option_ids v) ≠ [])
      | Some a =>
          bool_decide
            (list_to_set (default [] (selected_option_ids a))
             ≠@{gset Z} list_to_set (default [] (pending_selected_option_ids v)))
      end.
Proof.
  intros Hnd. destruct (loadImageArrived_page d ai s) as [Hd Hpc]. split.
  - unfold hasChanges. rewrite Hd, Hpc.
    destruct (existsb _ _) eqn:Hex; [|done].
    apply existsb_exists in Hex as ([k p] & Hin & Hch).
    apply list_elem_of_In, elem_of_map_to_list in Hin. cbn [fst snd] in Hch.
    by rewrite (loaded_entry_unchanged d k p Hnd Hin) in Hch.
  - intros cat v Hin. rewrite <- (changedEntry_found d cat v Hnd Hin).
    unfold hasChanges, handleCategoryChange.
    change (data (setPendingChanges ?pc ?s)) with (data s).
    change (pendingChanges (setPendingChanges ?pc ?s)) with pc.
    rewrite Hd, Hpc.
    destruct (changedEntry (Some d) (id cat) v) eqn:Hch.
    + apply existsb_exists. exists (id cat, v). split; [|done].
      apply list_elem_of_In, elem_of_map_to_list, lookup_insert_eq.
    + destruct (existsb _ _) eqn:Hex; [|done].
      apply existsb_exists in Hex as ([k p] & Hkp & Hyes).
      apply list_elem_of_In, elem_of_map_to_list in Hkp.
      cbn [fst snd] in Hyes.
      apply lookup_insert_Some in Hkp as [[<- <-]|[_ Hkp]]; [congruence|].
      by rewrite (loaded_entry_unchanged d k p Hnd Hkp) in Hyes.
Qed.

Lemma hasChanges_tracks_edits_witness :
  hasChanges (loadImageArrived Samples.threeCategories (Ok None) initial) = false.
Proof.
  refine (proj1 (hasChanges_tracks_edits Samples.threeCategories (Ok None)
                   initial _)).
  apply (bool_decide_unpack _). vm_compute. exact I.
Defined.

(** X13.  A category another annotator has completed needs no
    selection while this annotator has not touched it.  Choosing an
    option in its empty dropdown and clicking the same option again
    leaves the dropdown as it was, but the category is now required
    and without a selection: the validation of [handleSave] fails and
    names it.  The other categories are judged as before. *)
Theorem touched_category_becomes_required
    (cat : Category) (optionId : Z) (dd : Dropdown) (s : State)
    (d : ImageData) :
  completed_by_other cat = true →
  pendingChanges s !! id cat = None →
  optionId ≠ 0 → selectedOption dd = None →
  data s = Some d → cat ∈ categories d →
  ∃ v1 v2,
    selectOption false (id cat) optionId dd
    = (mkDropdown (isOpen dd) (Some optionId), Some (id cat, v1)) ∧
    selectOption false (id cat) optionId (mkDropdown (isOpen dd) (Some optionId))
    = (dd, Some (id cat, v2)) ∧
    let s1 := handleCategoryChange (id cat) v1 s in
    let s2 := handleCategoryChange (id cat) v2 s1 in
    lacksSelection (pendingChanges s) cat = false ∧
    lacksSelection (pendingChanges s1) cat = false ∧
    lacksSelection (pendingChanges s2) cat = true ∧
    name cat ∈ missing (validateAllCategoriesSelected s2) ∧
    valid (validateAllCategoriesSelected s2) = false ∧
    ∀ other, id other ≠ id cat →
      lacksSelection (pendingChanges s2) other
      = lacksSelection (pendingChanges s) other.
Proof.
  intros Hother Hnone Hopt Hdd Hd Hin.
  exists (mkPending (Some [optionId])), (mkPending (Some [])).
  assert (lacksSelection
            (<[id cat := mkPending (Some [])]>
               (<[id cat := mkPending (Some [optionId])]> (pendingChanges s)))
            cat = true) as Hlacks.
  { unfold lacksSelection. rewrite lookup_insert_eq. cbn.
    by rewrite andb_false_r. }
  split; [|split; [|cbv zeta; split_and!]].
  - unfold selectOption. rewrite Hdd. cbn.
    rewrite bool_decide_false by done. cbn. unfold Js.truthy_num.
    by destruct (Z.eqb_spec optionId 0).
  - unfold selectOption. cbn. rewrite bool_decide_true by done. cbn.
    destruct dd as [open sel]. cbn in Hdd. by subst sel.
  - unfold lacksSelection. rewrite Hnone, Hother.
    by rewrite bool_decide_true by done.
  - unfold lacksSelection. cbn. rewrite lookup_insert_eq. cbn.
    by rewrite andb_false_r.
  - done.
  - match goal with |- _ ∈ missing (validateAllCategoriesSelected ?s2) =>
      destruct (validate_loaded s2 d Hd) as [-> _] end.
    apply list_elem_of_fmap. exists cat. split; [done|].
    apply list_elem_of_In, filter_In. split; [by apply list_elem_of_In|done].
  - match goal with |- valid (validateAllCategoriesSelected ?s2) = _ =>
      destruct (validate_loaded s2 d Hd) as [Hmiss ->] end.
    apply bool_decide_eq_false. rewrite Hmiss. intros Hnil.
    apply fmap_nil_inv in Hnil.
    assert (In cat []) as []. rewrite <- Hnil.
    apply filter_In. split; [by apply list_elem_of_In|done].
  - intros other Hne. unfold lacksSelection. cbn.
    by rewrite !lookup_insert_ne by done.
Qed.

Lemma touched_category_becomes_required_witness :
  valid (validateAllCategoriesSelected
           (handleCategoryChange 2 (mkPending (Some []))
              (handleCategoryChange 2 (mkPending (Some [21]))
                 (loadImageArrived (MoreSamples.savedFor 40) (Ok None) initial))))
  = false.
Proof.
  destruct (touched_category_becomes_required
              (mkCategory 2 "Angle" None true) 21 (mkDropdown false None)
              (loadImageArrived (MoreSamples.savedFor 40) (Ok None) initial)
              (MoreSamples.savedFor 40))
    as (v1 & v2 & H1 & H2 & Hrest);
    [reflexivity|reflexivity|lia|reflexivity|reflexivity| |].
  - apply list_elem_of_further, list_elem_of_here.
  - injection H1 as <-. injection H2 as <-.
    by destruct Hrest as (_ & _ & _ & _ & Hvalid & _).
Defined.

Lemma persistTime_Ends (imgId : option Z) (seconds : Z) :
  Ends (λ _, True) (persistTime imgId seconds).
Proof.
  unfold persistTime. destruct imgId; [|by constructor].
  destruct (_ <=? _); cbn; repeat constructor.
Qed.

(** X14.  Leaving the image page.  [handleBack] always ends on the
    annotator home and [handleNavigate] on the image asked for, or
    nowhere when there is none; both report the time first, in one
    request, exactly when the timer is positive, and leave the page
    alone.  [handleSaveAndNext] stays where it is when the save is
    refused or fails validation; otherwise it sends the save, stays
    with a non-empty error if that fails, and if it succeeds always
    goes on: to the next image the page had before the save, or home
    when there was none. *)
Theorem leaving_the_image_page (imageId : Z) (b : Browser) :
  handleBack imageId b
  = (let gone := Ret (mkBrowser (page b) (Some ToAnnotatorHome)) in
     if 0 <? elapsedSeconds (page b)
     then Await (PatchTime imageId (elapsedSeconds (page b))) (λ _, gone)
     else gone) ∧
  (∀ target,
     handleNavigate imageId target b
     = if Js.truthy_num target then
         let gone := Ret (mkBrowser (page b) (ToImage <$> target)) in
         if 0 <? elapsedSeconds (page b)
         then Await (PatchTime imageId (elapsedSeconds (page b))) (λ _, gone)
         else gone
       else Ret b) ∧
  (saveRefused (page b) = true
   ∨ valid (validateAllCategoriesSelected (page b)) = false →
   Ends (λ b', navigated b' = navigated b) (handleSaveAndNext imageId b) ∧
   silent (handleSaveAndNext imageId b) = true) ∧
  (saveRefused (page b) = false →
   valid (validateAllCategoriesSelected (page b)) = true →
   ∃ k, handleSaveAndNext imageId b
        = Await (PutAnnotations imageId
                   (mkSaveBody (pendingChanges (page b))
                               (elapsedSeconds (page b)))) k ∧
        (∀ e, ∃ b', k (Fail e) = Ret b' ∧ navigated b' = navigated b ∧
                    error (page b') ≠ "" ∧ saving (page b') = false) ∧
        ∀ u, Ends (λ b', saving (page b') = false ∧
                         navigated b'
                         = Some (match data (page b) ≫= next_image_id with
                                 | Some next => if next =? 0
                                                then ToAnnotatorHome
                                                else ToImage next
                                 | None => ToAnnotatorHome
                                 end))
                  (k (Ok u))).
Proof.
  split_and!.
  - unfold handleBack. rewrite persistTime_sends. by destruct (0 <? _).
  - intros [i|]; [|done]. unfold handleNavigate.
    destruct (Js.truthy_num (Some i)); [|done].
    rewrite persistTime_sends. by destruct (0 <? _).
  - intros Hno. unfold handleSaveAndNext, handleSave.
    destruct (saveRefused (page b)).
    + cbn. split; [by constructor|done].
    + destruct Hno as [Hno|Hno]; [done|]. rewrite Hno. cbn.
      split; [by constructor|done].
  - intros Href Hvalid. unfold handleSaveAndNext, handleSave.
    rewrite Href, Hvalid. cbn [negb]. eexists. split; [reflexivity|]. split.
    + intros e. cbn. eexists. split; [reflexivity|]. cbn.
      split_and!; try done. by apply str_or_nonempty.
    + intros u. cbn. unfold loadImage. cbn.
      assert (∀ s', saving s' = false →
                Ends (λ b', saving (page b') = false ∧
                            navigated b'
                            = Some (match data (page b) ≫= next_image_id with
                                    | Some next => if next =? 0
                                                   then ToAnnotatorHome
                                                   else ToImage next
                                    | None => ToAnnotatorHome
                                    end))
                  (match data (page b) ≫= next_image_id with
                   | Some next =>
                       if Js.truthy_num (Some next)
                       then Ret (mkBrowser s' (Some (ToImage next)))
                       else b' ← handleBack imageId b;
                            Ret (mkBrowser s' (navigated b'))
                   | None => b' ← handleBack imageId b;
                             Ret (mkBrowser s' (navigated b'))
                   end)) as Hgo.
      { intros s' Hs'.
        assert (Ends (λ b', saving (page b') = false ∧
                            navigated b' = Some ToAnnotatorHome)
                  (b' ← handleBack imageId b;
                   Ret (mkBrowser s' (navigated b')))) as Hback.
        { unfold handleBack.
          apply (Ends_bind (λ b', navigated b' = Some ToAnnotatorHome)).
          - apply (Ends_bind (λ _, True)); [apply persistTime_Ends|].
            intros _ _. by constructor.
          - intros b' Hb'. by constructor. }
        destruct (data (page b) ≫= next_image_id) as [next|]; [|done].
        unfold Js.truthy_num. destruct (next =? 0); [done|].
        by constructor. }
      constructor. intros [d|e]; cbn.
      * constructor. intros ai. cbn. by apply Hgo.
      * by apply Hgo.
Qed.

Lemma leaving_the_image_page_witness :
  silent (handleSaveAndNext 9 (mkBrowser (setSaving true initial) None)) = true.
Proof.
  destruct (leaving_the_image_page 9 (mkBrowser (setSaving true initial) None))
    as (_ & _ & Hno & _).
  apply Hno. by left.
Defined.

End ImagePageMore.

(** ** More of the review tab *)

Section ReviewMore.
Import ReviewWire AdminReview ReviewTable Notions Outcomes.

Lemma count_pending_cells (row : Row) (cats : list Z) (count : nat) :
  fold_left (λ count cat, if isPendingCell row cat then S count else count)
            cats count
  = (count +
     length (omap (λ cat,
                     match annotations row !! cat with
                     | Some cell =>
                         match review_status cell with
                         | None => Some (annotation_id cell)
                         | Some _ => None
                         end
                     | None => None
                     end) cats))%nat.
Proof.
  revert count. induction cats as [|cat cats IH]; intros count; [cbn; lia|].
  cbn [fold_left]. rewrite IH. unfold isPendingCell. csimpl.
  destruct (annotations row !! cat) as [cell|]; [|cbn; lia].
  destruct (review_status cell); cbn; lia.
Qed.

Lemma selectedPendingCount_targets (s : State) (td : TableData) :
  tableData s = Some td →
  selectedPendingCount s = length (bulkTargets td (selectedRows s)).
Proof.
  intros Htd. unfold selectedPendingCount, bulkTargets. rewrite Htd.
  generalize (selectedRows s) as sel. intros sel.
  rewrite <- (Nat.add_0_l (length _)). generalize 0%nat as count.
  induction sel as [|imgId sel IH]; intros count; [cbn; lia|].
  cbn [fold_left flat_map]. rewrite IH, length_app.
  destruct (List.find _ (images td)) as [row|]; [|cbn; lia].
  rewrite count_pending_cells. lia.
Qed.

(** X15.  The number on the bulk button is the number of requests it
    makes: [selectedPendingCount] counts the cells [handleBulkApprove]
    approves, and against any backend the handler issues that many
    requests, one approve per counted cell, whatever the answers.
    When the count is 0 it issues none, clears the selection and
    refreshes. *)
Theorem bulk_button_counts_requests {Store : Type} (srv : Backend Store)
    (s : State) (td : TableData) (store : Store) :
  tableData s = Some td →
  selectedPendingCount s = length (bulkTargets td (selectedRows s)) ∧
  (run srv (handleBulkApprove s) store).2
  = approveRequests (bulkTargets td (selectedRows s)) ∧
  length (run srv (handleBulkApprove s) store).2 = selectedPendingCount s ∧
  (selectedPendingCount s = 0%nat →
   (run srv (handleBulkApprove s) store).2 = [] ∧
   selectedRows (run srv (handleBulkApprove s) store).1.1 = [] ∧
   refreshes (run srv (handleBulkApprove s) store).1.1 = S (refreshes s) ∧
   alerts (run srv (handleBulkApprove s) store).1.1 = alerts s).
Proof.
  intros Htd. pose proof (selectedPendingCount_targets s td Htd) as Hcount.
  assert ((run srv (handleBulkApprove s) store).2
          = approveRequests (bulkTargets td (selectedRows s))) as Hlog.
  { rewrite (run_handleBulkApprove srv s td store Htd).
    destruct (run_startAll srv (bulkTargets td (selectedRows s)) store)
      as [Hlog _].
    by destruct (run srv (startAll _) store) as [[results store'] log]. }
  split_and!; [done|done| |].
  - rewrite Hlog, Hcount. unfold approveRequests. by rewrite length_fmap.
  - intros Hzero. rewrite Hcount in Hzero.
    apply nil_length_inv in Hzero.
    rewrite (run_handleBulkApprove srv s td store Htd), Hzero. by cbn.
Qed.

Lemma bulk_button_counts_requests_witness :
  selectedPendingCount Samples.twoPending = 2%nat.
Proof.
  destruct (bulk_button_counts_requests Backends.serveReview
              Samples.twoPending Samples.twoPendingTable ∅ eq_refl)
    as (-> & _).
  reflexivity.
Defined.

Lemma approvedSome_refl (s : State) : approvedSome 0 s s.
Proof. unfold approvedSome. split_and!; try done; lia. Qed.

Lemma approvedSome_trans (n m : nat) (s1 s2 s3 : State) :
  approvedSome n s1 s2 → approvedSome m s2 s3 → approvedSome (n + m) s1 s3.
Proof.
  unfold approvedSome.
  intros (? & ? & ? & ? & ?) (? & ? & ? & ? & ?).
  split_and!; try congruence; lia.
Qed.

Section WithBackend.
Context {Store : Type} (srv : Backend Store).

Lemma run_handleApprove (annotationId : Z) (s : State) (store : Store) :
  ∃ s' store',
    run srv (handleApprove annotationId s) store
    = (s', store', [issued (PutApprove annotationId)]) ∧
    (s' = s ∨ ∃ msg, s' = alert msg s).
Proof.
  unfold handleApprove. rewrite run_bind, run_call.
  destruct (srv _ (PutApprove annotationId) store) as [[u|e] store'];
    cbn; do 2 eexists; (split; [reflexivity|]); [by left|right; by eexists].
Qed.

Lemma run_onApprove (row : Row) (annotationId : Z) (s : State)
    (store : Store) :
  ∃ s' store',
    run srv (onApprove (Some row) annotationId s) store
    = (s', store', [issued (PutApprove annotationId)]) ∧
    approvedSome 1 s s' ∧
    modalRow s' = Some (showApproved annotationId row).
Proof.
  unfold onApprove. rewrite run_bind.
  destruct (run_handleApprove annotationId s store)
    as (s1 & store1 & -> & Hs1).
  cbn. do 2 eexists. split; [reflexivity|]. split; [|done].
  unfold approvedSome.
  destruct Hs1 as [->|[msg ->]]; cbn; rewrite ?length_app; cbn;
    split_and!; try done; lia.
Qed.

(** The open row after the walk: rewritten from [row] by the approval
    made last, or untouched when none was made. *)
Lemma run_approveEach (row : Row) (edits : gmap Z Edit) (cells : list Cell)
    (s : State) (store : Store) :
  ∃ s' store',
    run srv (approveEach row edits cells s) store
    = (s', store',
       approveRequests (annotation_id <$> notPassedOver row edits cells)) ∧
    approvedSome (length (notPassedOver row edits cells)) s s' ∧
    modalRow s'
    = match last (notPassedOver row edits cells) with
      | Some cell => Some (showApproved (annotation_id cell) row)
      | None => modalRow s
      end.
Proof.
  revert s store. induction cells as [|cell cells IH]; intros s store.
  - cbn. do 2 eexists. split; [reflexivity|]. split; [|done].
    apply approvedSome_refl.
  - cbn [approveEach notPassedOver List.filter].
    destruct (hasChangesForCat row edits (annotation_id cell)); cbn [negb];
      [apply IH|].
    rewrite run_bind.
    destruct (run_onApprove row (annotation_id cell) s store)
      as (s1 & store1 & -> & Hs1 & Hrow1).
    destruct (IH s1 store1) as (s2 & store2 & -> & Hs2 & Hrow2).
    do 2 eexists. split; [reflexivity|]. split.
    + apply (approvedSome_trans 1 _ s s1 s2 Hs1 Hs2).
    + rewrite Hrow2, last_cons. fold (notPassedOver row edits cells).
      by destruct (last (notPassedOver row edits cells)).
Qed.

(** What one reload makes of the board: nothing when it fails or in
    the cards view; in the table view a table that arrives replaces
    the old one, empties the selection, takes the highlight away, and
    the open row becomes the first row of the new table with its
    image id, or is closed. *)
Lemma reload_effect (res : Http TableData) (b : Board) :
  (tableView b = false → reload res b = b) ∧
  (∀ e, res = Fail e → reload res b = b) ∧
  (tableView b = true → ∀ td', res = Ok td' →
   tableData (page (reload res b)) = Some td' ∧
   selectedRows (page (reload res b)) = [] ∧
   highlightedIdx (reload res b) = -1 ∧
   modalRow (page (reload res b))
   = (modalRow (page b) ≫= λ row,
        List.find (λ img, bool_decide (image_id img = image_id row))
                  (images td')) ∧
   refreshes (page (reload res b)) = refreshes (page b) ∧
   alerts (page (reload res b)) = alerts (page b)).
Proof.
  unfold reload. split_and!.
  - by intros ->.
  - intros e ->. by destruct (tableView b).
  - intros -> td' ->. unfold syncModalRow. cbn.
    by destruct (modalRow (page b)) eqn:Hopen; cbn; rewrite ?Hopen.
Qed.

(** X16.  [handleApproveAll] walks the cells of the row that are not
    yet approved, in the order of the categories, and approves each
    one unless [hasChangesForCat] answers true for the annotation id
    of the cell, read as a category id.  Every approval starts one
    reload, a failure adds an alert and does not stop the walk, and
    [saving] is off at the end.  Each approval rewrites the open row
    from the row the modal was rendered with, so when the handler
    returns the open row is that row with the cell approved last shown
    as approved, and no other cell changed; it is left alone when
    nothing was approved.  A reload that arrives after that and
    brings a table replaces the table, empties the selection, takes
    the highlight away and puts in the place of the open row the
    first row of the new table with its image id, or closes it.  When
    no edit is stored under the annotation id of a walked cell, every
    one of them is approved, edited or not. *)
Theorem handleApproveAll_walks_pending
    (categories : list Z) (row : Row) (edits : gmap Z Edit) (s : State)
    (store : Store) :
  let result := run srv (handleApproveAll categories row edits s) store in
  let approvedCells :=
    notPassedOver row edits (pendingAnnotations categories row) in
  result.2 = approveRequests (annotation_id <$> approvedCells) ∧
  saving result.1.1 = false ∧
  refreshes result.1.1 = (refreshes s + length approvedCells)%nat ∧
  (length (alerts s) ≤ length (alerts result.1.1)
   ≤ length (alerts s) + length approvedCells)%nat ∧
  modalRow result.1.1
  = match last approvedCells with
    | Some cell => Some (showApproved (annotation_id cell) row)
    | None => modalRow s
    end ∧
  (∀ b td', page b = result.1.1 → tableView b = true →
     tableData (page (reload (Ok td') b)) = Some td' ∧
     selectedRows (page (reload (Ok td') b)) = [] ∧
     highlightedIdx (reload (Ok td') b) = -1 ∧
     modalRow (page (reload (Ok td') b))
     = match last approvedCells with
       | Some _ =>
           List.find (λ img, bool_decide (image_id img = image_id row))
                     (images td')
       | None =>
           modalRow s ≫= λ shown,
             List.find (λ img, bool_decide (image_id img = image_id shown))
                       (images td')
       end) ∧
  (∀ cell, cell ∈ approvedCells → review_status cell ≠ Some approved) ∧
  ((∀ cell, cell ∈ pendingAnnotations categories row →
            edits !! annotation_id cell = None) →
   approvedCells = pendingAnnotations categories row).
Proof.
  intros result approvedCells. subst result. unfold handleApproveAll.
  rewrite run_bind.
  destruct (run_approveEach row edits (pendingAnnotations categories row)
              (setSaving true s) store) as (s' & store' & -> & Hs' & Hrow).
  fold approvedCells in Hs', Hrow |- *. cbn. rewrite app_nil_r.
  destruct Hs' as (Hsel & Hbulk & Hsav & Href & Hal).
  cbn in Href, Hal, Hrow. split_and!; try done; try lia.
  - intros b td' Hpage Hview.
    destruct (reload_effect (Ok td') b) as (_ & _ & Hok).
    destruct (Hok Hview td' eq_refl) as (-> & -> & -> & -> & _).
    split_and!; try done. rewrite Hpage. cbn [modalRow setSaving].
    rewrite Hrow. by destruct (last approvedCells).
  - intros cell Hcell. unfold approvedCells, notPassedOver in Hcell.
    apply list_elem_of_In, filter_In in Hcell as [Hcell _].
    apply list_elem_of_In in Hcell.
    by apply pendingAnnotations_not_approved in Hcell as [Hrs _].
  - intros Hkeys. unfold approvedCells, notPassedOver.
    apply forallb_filter_id, forallb_forall. intros cell Hcell.
    apply list_elem_of_In in Hcell. unfold hasChangesForCat.
    rewrite (Hkeys cell Hcell). by destruct (annotations row !! _).
Qed.

Lemma run_approveCells (cells : list Cell) (s : State) (store : Store) :
  ∃ s' store',
    run srv (approveCells cells s) store
    = (s', store', approveRequests (annotation_id <$> cells)) ∧
    tableData s' = tableData s ∧ modalRow s' = modalRow s ∧
    selectedRows s' = selectedRows s ∧
    refreshes s' = refreshes s ∧
    (length (alerts s') ≤ length (alerts s) + length cells)%nat.
Proof.
  revert s store. induction cells as [|cell cells IH]; intros s store.
  - cbn. do 2 eexists. split; [reflexivity|]. split_and!; try done; lia.
  - cbn [approveCells]. rewrite run_bind.
    destruct (run_handleApprove (annotation_id cell) s store)
      as (s1 & store1 & -> & Hs1).
    destruct (IH s1 store1)
      as (s2 & store2 & -> & Htd & Hrow & Hsel & Href & Hal).
    do 2 eexists. split; [reflexivity|].
    destruct Hs1 as [->|[msg ->]]; cbn in *; [split_and!; try done; lia|].
    rewrite length_app in Hal. cbn in Hal. split_and!; try done; lia.
Qed.

Lemma shortcutPending_elem_of (td : TableData) (row : Row) (cell : Cell) :
  cell ∈ shortcutPending td row ↔
  cell ∈ pendingAnnotations (categories td) row ∧ review_status cell = None.
Proof.
  unfold shortcutPending, pendingAnnotations.
  rewrite list_elem_of_In, filter_In, <- !list_elem_of_In, !list_elem_of_omap.
  rewrite bool_decide_eq_true. split.
  - intros [(cat & Hcat & Hcell) Hrs]. split; [|done].
    exists cat. split; [|done].
    apply list_elem_of_In, filter_In. split; [by apply list_elem_of_In|].
    rewrite Hcell. apply bool_decide_eq_true. by rewrite Hrs.
  - intros [(cat & Hcat & Hcell) Hrs]. split; [|done].
    exists cat. split; [|done].
    by apply list_elem_of_In, filter_In in Hcat as [Hcat%list_elem_of_In _].
Qed.

(** X17.  The [A] shortcut of the open row approves the cells that
    were never reviewed: all its requests are made, in the order of
    the categories, and nothing is sent when there is no such cell.
    These are the cells of [pendingAnnotations] without a review
    status, so cells in or back from rework, which Approve All
    approves, are left out by the shortcut.  Once every approval is
    answered one reload is started.  When that reload brings a table
    (in the table view) the table is replaced, the selection emptied,
    the highlight taken away, and the open row becomes the first row
    of the new table with its image id or is closed when there is
    none; when the reload fails the board stays as the approvals left
    it, with the row open and the table, selection and highlight it
    had. *)
Theorem shortcut_approves_unreviewed
    (b : Board) (row : Row) (td : TableData) (store : Store)
    (answer : Http TableData) :
  modalRow (page b) = Some row → tableData (page b) = Some td →
  let result := run srv (handleKeyDown false KeyA b) store in
  let reloaded := reload answer result.1.1 in
  result.2 = approveRequests (annotation_id <$> shortcutPending td row) ∧
  (∀ cell, cell ∈ shortcutPending td row ↔
           cell ∈ pendingAnnotations (categories td) row
           ∧ review_status cell = None) ∧
  refreshes (page result.1.1)
  = (refreshes (page b)
     + if bool_decide (shortcutPending td row = []) then 0 else 1)%nat ∧
  (length (alerts (page result.1.1))
   ≤ length (alerts (page b)) + length (shortcutPending td row))%nat ∧
  (tableView b = true → ∀ td', answer = Ok td' →
   tableData (page reloaded) = Some td' ∧
   selectedRows (page reloaded) = [] ∧
   highlightedIdx reloaded = -1 ∧
   modalRow (page reloaded)
   = List.find (λ img, bool_decide (image_id img = image_id row))
               (images td')) ∧
  ((tableView b = false ∨ ∃ e, answer = Fail e) →
   reloaded = result.1.1 ∧
   modalRow (page reloaded) = Some row ∧
   tableData (page reloaded) = Some td ∧
   selectedRows (page reloaded) = selectedRows (page b) ∧
   highlightedIdx reloaded = highlightedIdx b).
Proof.
  intros Hrow Htd result reloaded. subst reloaded result.
  assert (∃ s' store' log,
            run srv (handleKeyDown false KeyA b) store
            = (setPage s' b, store', log) ∧
            log = approveRequests (annotation_id <$> shortcutPending td row) ∧
            tableData s' = Some td ∧ modalRow s' = Some row ∧
            selectedRows s' = selectedRows (page b) ∧
            refreshes s'
            = (refreshes (page b)
               + if bool_decide (shortcutPending td row = []) then 0 else 1)%nat ∧
            (length (alerts s')
             ≤ length (alerts (page b)) + length (shortcutPending td row))%nat)
    as (s' & store' & log & -> & -> & Htd' & Hrow' & Hsel' & Href' & Hal').
  { unfold handleKeyDown. rewrite Hrow, Htd.
    destruct (shortcutPending td row) as [|cell cells] eqn:Hp.
    - exists (page b), store, []. cbn. destruct b as [pg hi sh tv]. cbn in *.
      split_and!; try done; lia.
    - rewrite run_bind.
      destruct (run_approveCells (cell :: cells) (page b) store)
        as (s' & store' & -> & Htd' & Hsame & Hsel & Href & Hal).
      do 3 eexists. cbn. rewrite app_nil_r.
      split; [reflexivity|]. cbn in Hal |- *.
      split_and!; try done; try congruence; lia. }
  cbn [fst snd]. split_and!; try done.
  - apply shortcutPending_elem_of.
  - intros Hview td' ->.
    destruct (reload_effect (Ok td') (setPage s' b)) as (_ & _ & Hok).
    destruct (Hok Hview td' eq_refl) as (-> & -> & -> & -> & _).
    cbn. by rewrite Hrow'.
  - intros Hsame.
    assert (reload answer (setPage s' b) = setPage s' b) as ->.
    { destruct (reload_effect answer (setPage s' b)) as (Hcards & Hfail & _).
      destruct Hsame as [Hview|[e ->]]; [by apply Hcards|by apply (Hfail e)]. }
    by cbn.
Qed.

End WithBackend.

Lemma handleApproveAll_walks_pending_witness :
  notPassedOver MoreSamples.reworkedRow ∅
    (pendingAnnotations [1; 2] MoreSamples.reworkedRow)
  = pendingAnnotations [1; 2] MoreSamples.reworkedRow.
Proof.
  pose proof (handleApproveAll_walks_pending Backends.serveReview [1; 2]
                MoreSamples.reworkedRow ∅ Samples.twoPending ∅) as H.
  cbv zeta in H. destruct H as (_ & _ & _ & _ & _ & _ & _ & Hall).
  apply Hall. intros cell _. apply lookup_empty.
Defined.

Lemma shortcut_approves_unreviewed_witness :
  (run Backends.serveReview
     (handleKeyDown false KeyA
        (MoreSamples.reviewing (Some MoreSamples.reworkedRow))) ∅).2
  = [issued (PutApprove 101)] ∧
  modalRow
    (page (reload (Ok (mkTableData [mkRow 8 ∅] [1; 2]))
             (run Backends.serveReview
                (handleKeyDown false KeyA
                   (MoreSamples.reviewing (Some MoreSamples.reworkedRow)))
                ∅).1.1))
  = None.
Proof.
  pose proof (shortcut_approves_unreviewed Backends.serveReview
                (MoreSamples.reviewing (Some MoreSamples.reworkedRow))
                MoreSamples.reworkedRow MoreSamples.reworkedTable ∅
                (Ok (mkTableData [mkRow 8 ∅] [1; 2]))
                eq_refl eq_refl) as H.
  cbv zeta in H. destruct H as (Hlog & _ & _ & _ & Hload & _).
  split; [by rewrite Hlog|].
  by destruct (Hload eq_refl _ eq_refl) as (_ & _ & _ & ->).
Defined.

Lemma rowAt_inside (rows : list Row) (i : Z) :
  0 ≤ i < Z.of_nat (length rows) → is_Some (rowAt rows i).
Proof.
  intros Hi. unfold rowAt. destruct (Z.ltb_spec i 0); [lia|].
  apply lookup_lt_is_Some. lia.
Qed.

(** X18.  Keys on the table, with no row open.  Whatever the key, no
    request is made, the table stays, and a highlight between -1 (no
    row) and the last row stays between them.  A row opens only on
    [Enter] outside a field, and then it is the highlighted row of the
    table; with a row highlighted in the table view [Enter] does open
    one. *)
Theorem table_keys_keep_highlight
    (inField : bool) (key : Key) (b : Board) (td : TableData) :
  tableData (page b) = Some td → modalRow (page b) = None →
  -1 ≤ highlightedIdx b < Z.of_nat (length (images td)) →
  ∃ b', handleKeyDown inField key b = Ret b' ∧
    tableData (page b') = Some td ∧
    -1 ≤ highlightedIdx b' < Z.of_nat (length (images td)) ∧
    (∀ row, modalRow (page b') = Some row →
            key = Enter ∧ inField = false ∧ 0 ≤ highlightedIdx b ∧
            images td !! Z.to_nat (highlightedIdx b) = Some row) ∧
    (key = Enter → inField = false → tableView b = true →
     0 ≤ highlightedIdx b → is_Some (modalRow (page b'))).
Proof.
  intros Htd Hrow Hidx. unfold handleKeyDown.
  assert (tableData (page b) = Some td ∧
          -1 ≤ highlightedIdx b < Z.of_nat (length (images td)) ∧
          (∀ row, modalRow (page b) = Some row →
                  key = Enter ∧ inField = false ∧ 0 ≤ highlightedIdx b ∧
                  images td !! Z.to_nat (highlightedIdx b) = Some row))
    as Hstay.
  { split_and!; try done; try lia. intros row. by rewrite Hrow. }
  destruct inField.
  { exists b. destruct Hstay as (? & ? & ?). split_and!; try done; lia. }
  destruct key.
  1: { eexists. split; [reflexivity|]. cbn. rewrite Htd, Hrow.
       split_and!; try done; lia. }
  all: rewrite Hrow, Htd.
  all: destruct (tableView b) eqn:Hview; cbn [andb];
    [|exists b; destruct Hstay as (? & ? & ?); split_and!; try done; lia].
  all: case_bool_decide as Hlen;
    [|exists b; destruct Hstay as (? & ? & ?);
      split_and!; try done; try lia; intros; lia].
  all: try (exists b; destruct Hstay as (? & ? & ?);
            split_and!; try done; lia).
  - (* Escape *)
    eexists. split; [reflexivity|]. cbn. rewrite Htd, Hrow.
    split_and!; try done; lia.
  - (* ArrowUp *)
    eexists. split; [reflexivity|]. cbn. rewrite Htd, Hrow.
    split_and!; try done; lia.
  - (* ArrowDown *)
    eexists. split; [reflexivity|]. cbn. rewrite Htd, Hrow.
    split_and!; try done; lia.
  - (* Enter *)
    destruct (Z.leb_spec 0 (highlightedIdx b)) as [Hpos|Hneg].
    + eexists. split; [reflexivity|]. cbn. rewrite Htd.
      split_and!; try done; try lia.
      * intros row Hopen. split_and!; try done.
        unfold rowAt in Hopen.
        by destruct (Z.ltb_spec (highlightedIdx b) 0); [lia|].
      * intros _ _ _ _. apply rowAt_inside. lia.
    + exists b. destruct Hstay as (? & ? & ?).
      split_and!; try done; try lia.
Qed.

Lemma table_keys_keep_highlight_witness :
  ∃ b', handleKeyDown false ArrowDown (MoreSamples.reviewing None) = Ret b' ∧
        -1 ≤ highlightedIdx b' < 2.
Proof.
  destruct (table_keys_keep_highlight false ArrowDown
              (MoreSamples.reviewing None) MoreSamples.reworkedTable
              eq_refl eq_refl) as (b' & Hb' & _ & Hidx & _).
  - cbn. lia.
  - exists b'. split; [exact Hb'|exact Hidx].
Defined.

Lemma findIndex_at (rows : list Row) (i : nat) (r : Row) :
  NoDup (image_id <$> rows) → rows !! i = Some r →
  findIndex (image_id r) rows = Z.of_nat i.
Proof.
  revert i. induction rows as [|r0 rows IH]; intros i Hnd Hi; [done|].
  rewrite fmap_cons in Hnd. apply NoDup_cons in Hnd as [Hr0 Hnd].
  cbn [findIndex]. destruct i as [|i]; cbn in Hi.
  - injection Hi as ->. by rewrite bool_decide_true.
  - rewrite bool_decide_false.
    + rewrite (IH i Hnd Hi). destruct (Z.ltb_spec (Z.of_nat i) 0); lia.
    + intros Heq. apply Hr0. rewrite Heq. apply list_elem_of_fmap.
      exists r. split; [done|]. by apply list_elem_of_lookup_2 in Hi.
Qed.

Lemma rowAt_nat (rows : list Row) (i : nat) : rowAt rows (Z.of_nat i) = rows !! i.
Proof.
  unfold rowAt. destruct (Z.ltb_spec (Z.of_nat i) 0); [lia|].
  by rewrite Nat2Z.id.
Qed.

(** X19.  Keys on an open row.  When the images of the table have
    distinct ids and the open row is the one at position [i], the
    right arrow opens the row at [i + 1] and the left arrow the row at
    [i - 1], each doing nothing at its end of the table; [Escape]
    closes the row.  None of them makes a request or moves the
    highlight, and right then left is back on the row at [i]. *)
Theorem modal_arrows_walk_table
    (b : Board) (td : TableData) (shown row : Row) (i : nat) :
  tableData (page b) = Some td → modalRow (page b) = Some shown →
  NoDup (image_id <$> images td) →
  images td !! i = Some row → image_id shown = image_id row →
  handleKeyDown false ArrowRight b
  = Ret (if bool_decide (S i < length (images td))%nat
         then setPage (setModalRow (images td !! S i) (page b)) b else b) ∧
  handleKeyDown false ArrowLeft b
  = Ret (if bool_decide (0 < i)%nat
         then setPage (setModalRow (images td !! pred i) (page b)) b else b) ∧
  handleKeyDown false Escape b = Ret (setPage (setModalRow None (page b)) b) ∧
  ((S i < length (images td))%nat →
   ∃ b1 b2, handleKeyDown false ArrowRight b = Ret b1 ∧
            is_Some (modalRow (page b1)) ∧
            handleKeyDown false ArrowLeft b1 = Ret b2 ∧
            modalRow (page b2) = Some row ∧
            highlightedIdx b2 = highlightedIdx b).
Proof.
  intros Htd Hshown Hnd Hi Hid.
  pose proof (findIndex_at (images td) i row Hnd Hi) as Hidx.
  assert (handleKeyDown false ArrowRight b
          = Ret (if bool_decide (S i < length (images td))%nat
                 then setPage (setModalRow (images td !! S i) (page b)) b
                 else b)) as Hright.
  { unfold handleKeyDown. rewrite Hshown, Htd, Hid, Hidx.
    destruct (decide (S i < length (images td))%nat) as [Hlt|Hlt].
    - rewrite bool_decide_true by done.
      destruct (Z.ltb_spec (Z.of_nat i) (Z.of_nat (length (images td)) - 1));
        [|lia].
      replace (Z.of_nat i + 1) with (Z.of_nat (S i)) by lia.
      by rewrite rowAt_nat.
    - rewrite bool_decide_false by done.
      by destruct (Z.ltb_spec (Z.of_nat i) (Z.of_nat (length (images td)) - 1));
        [lia|]. }
  split_and!; [done| |by unfold handleKeyDown; rewrite Hshown, Htd|].
  - unfold handleKeyDown. rewrite Hshown, Htd, Hid, Hidx.
    destruct i as [|i'].
    + by rewrite bool_decide_false by lia.
    + rewrite bool_decide_true by lia.
      destruct (Z.ltb_spec 0 (Z.of_nat (S i'))); [|lia]. cbn [pred].
      replace (Z.of_nat (S i') - 1) with (Z.of_nat i') by lia.
      by rewrite rowAt_nat.
  - intros Hlt. rewrite Hright, bool_decide_true by done.
    destruct (lookup_lt_is_Some_2 (images td) (S i) Hlt) as [next Hnext].
    do 2 eexists. split; [reflexivity|]. split; [by rewrite Hnext|].
    unfold handleKeyDown. cbn. rewrite Htd, Hnext.
    rewrite (findIndex_at (images td) (S i) next Hnd Hnext).
    destruct (Z.ltb_spec 0 (Z.of_nat (S i))); [|lia].
    split; [reflexivity|]. cbn.
    replace (Z.of_nat (S i) - 1) with (Z.of_nat i) by lia.
    by rewrite rowAt_nat.
Qed.

Lemma modal_arrows_walk_table_witness :
  handleKeyDown false Escape
    (MoreSamples.reviewing (Some MoreSamples.reworkedRow))
  = Ret (MoreSamples.reviewing None).
Proof.
  destruct (modal_arrows_walk_table
              (MoreSamples.reviewing (Some MoreSamples.reworkedRow))
              MoreSamples.reworkedTable MoreSamples.reworkedRow
              MoreSamples.reworkedRow 0 eq_refl eq_refl)
    as (_ & _ & Hesc & _); [|reflexivity|reflexivity|exact Hesc].
  apply (bool_decide_unpack _). vm_compute. exact I.
Defined.

Lemma toggleRow_elem_of (imageId x : Z) (prev : list Z) :
  x ∈ toggleRow imageId prev ↔
  (x ≠ imageId ∧ x ∈ prev) ∨ (x = imageId ∧ imageId ∉ prev).
Proof.
  unfold toggleRow. case_bool_decide as Hin.
  - rewrite list_elem_of_filter. split; [intros [? ?]; by left|].
    by intros [[? ?]|[_ ?]].
  - rewrite elem_of_app, list_elem_of_singleton. split.
    + intros [Hx| ->]; [left|by right]. split; [|done]. by intros ->.
    + intros [[_ ?]|[-> _]]; [by left|by right].
Qed.

Lemma toggleRow_NoDup (imageId : Z) (prev : list Z) :
  NoDup prev → NoDup (toggleRow imageId prev).
Proof.
  intros Hnd. unfold toggleRow. case_bool_decide as Hin.
  - by apply NoDup_filter.
  - apply NoDup_app. split_and!; [done| |apply NoDup_singleton].
    intros x Hx Hx'%list_elem_of_singleton. by subst.
Qed.

Lemma newSet_from (ids acc : list Z) :
  NoDup acc →
  let set := fold_left (λ set i, if bool_decide (i ∈ set) then set
                                 else set ++ [i]) ids acc in
  NoDup set ∧ (∀ x, x ∈ set ↔ x ∈ acc ∨ x ∈ ids) ∧
  (NoDup (acc ++ ids) → set = acc ++ ids).
Proof.
  revert acc. induction ids as [|i ids IH]; intros acc Hacc; cbn.
  - split_and!; [done| |by rewrite app_nil_r].
    intros x. rewrite elem_of_nil. tauto.
  - case_bool_decide as Hin.
    + destruct (IH acc Hacc) as (Hnd & Hel & Heq). split_and!; [done| |].
      * intros x. rewrite Hel, elem_of_cons.
        split; [tauto|]. intros [?|[->|?]]; tauto.
      * intros Hall. apply NoDup_app in Hall as (_ & Hdisj & _).
        exfalso. apply (Hdisj i Hin). apply elem_of_cons. by left.
    + assert (NoDup (acc ++ [i])) as Hacc'.
      { apply NoDup_app. split_and!; [done| |apply NoDup_singleton].
        intros x Hx Hx'%list_elem_of_singleton. by subst. }
      destruct (IH (acc ++ [i]) Hacc') as (Hnd & Hel & Heq).
      split_and!; [done| |].
      * intros x. rewrite Hel, elem_of_app, list_elem_of_singleton, elem_of_cons.
        tauto.
      * intros Hall.
        replace (acc ++ i :: ids) with ((acc ++ [i]) ++ ids) in *
          by (by rewrite <- app_assoc).
        by apply Heq.
Qed.

(** X20.  The selection of rows is a set.  [toggleRowSelect] flips
    the membership of its row and of no other, keeps the selection
    free of repetitions, and two of them leave the same rows selected.
    [toggleSelectAll] compares only sizes: it empties the selection
    when it has as many ids as the table has rows, whichever ids they
    are, and otherwise selects each id of the table once, in the order
    of the rows, so that with distinct ids a second call empties it. *)
Theorem row_selection_is_a_set (imageId : Z) (s : State) (td : TableData) :
  tableData s = Some td → NoDup (selectedRows s) →
  NoDup (selectedRows (toggleRowSelect imageId s)) ∧
  (imageId ∈ selectedRows (toggleRowSelect imageId s)
   ↔ imageId ∉ selectedRows s) ∧
  (∀ other, other ≠ imageId →
            other ∈ selectedRows (toggleRowSelect imageId s)
            ↔ other ∈ selectedRows s) ∧
  selectedRows (toggleRowSelect imageId (toggleRowSelect imageId s))
  ≡ₚ selectedRows s ∧
  NoDup (selectedRows (toggleSelectAll s)) ∧
  (length (selectedRows s) = length (images td) →
   selectedRows (toggleSelectAll s) = []) ∧
  (length (selectedRows s) ≠ length (images td) →
   (∀ x, x ∈ selectedRows (toggleSelectAll s) ↔ x ∈ image_id <$> images td) ∧
   (NoDup (image_id <$> images td) →
    selectedRows (toggleSelectAll s) = image_id <$> images td ∧
    selectedRows (toggleSelectAll (toggleSelectAll s)) = [])).
Proof.
  intros Htd Hnd.
  pose proof (newSet_from (image_id <$> images td) [] (NoDup_nil_2 (A:=Z))) as Hnew.
  cbv zeta in Hnew. fold (newSet (image_id <$> images td)) in Hnew.
  destruct Hnew as (Hnew_nd & Hnew_el & Hnew_eq). cbn [app] in Hnew_eq.
  split_and!.
  - by apply toggleRow_NoDup.
  - cbn. rewrite toggleRow_elem_of. tauto.
  - intros other Hne. cbn. rewrite toggleRow_elem_of. tauto.
  - cbn. apply NoDup_Permutation; [by do 2 apply toggleRow_NoDup|done|].
    intros x. rewrite !toggleRow_elem_of.
    destruct (decide (x = imageId)) as [->|],
             (decide (imageId ∈ selectedRows s));
      intuition congruence.
  - unfold toggleSelectAll. rewrite Htd. case_bool_decide; cbn; [|done].
    apply NoDup_nil_2.
  - intros Hall. unfold toggleSelectAll. rewrite Htd.
    by rewrite bool_decide_true.
  - intros Hsome.
    assert (selectedRows (toggleSelectAll s) = newSet (image_id <$> images td))
      as Hsel.
    { unfold toggleSelectAll. rewrite Htd. by rewrite bool_decide_false. }
    split.
    + intros x. rewrite Hsel, Hnew_el, elem_of_nil. tauto.
    + intros Hids. rewrite Hsel, (Hnew_eq Hids). split; [done|].
      unfold toggleSelectAll at 1.
      assert (tableData (toggleSelectAll s) = Some td) as ->.
      { unfold toggleSelectAll. rewrite Htd. by case_bool_decide. }
      rewrite Hsel, (Hnew_eq Hids), length_fmap.
      by rewrite bool_decide_true.
Qed.

Lemma row_selection_is_a_set_witness :
  selectedRows (toggleSelectAll Samples.twoPending) = [].
Proof.
  destruct (row_selection_is_a_set 7 Samples.twoPending Samples.twoPendingTable
              eq_refl) as (_ & _ & _ & _ & _ & Hall & _).
  - apply NoDup_singleton.
  - by apply Hall.
Defined.

Lemma toggled_twice (optId : Z) (sel : list Z) :
  NoDup sel →
  AnnotationPage.toggleOption optId (AnnotationPage.toggleOption optId sel)
  ≡ₚ sel.
Proof.
  intros Hnd.
  apply NoDup_Permutation; [by do 2 apply toggleOption_NoDup|done|].
  intros x. rewrite !toggleOption_elem_of.
  destruct (decide (x = optId)) as [->|], (decide (optId ∈ sel));
    intuition congruence.
Qed.

Lemma toggled_once_length (optId : Z) (sel : list Z) :
  NoDup sel → length (AnnotationPage.toggleOption optId sel) ≠ length sel.
Proof.
  intros Hnd. destruct (decide (optId ∈ sel)) as [Hin|Hout].
  - rewrite toggleOption_present by done.
    pose proof (Permutation_length (filter_out_present optId sel Hnd Hin)) as H.
    rewrite length_app in H. cbn in H. lia.
  - rewrite toggleOption_absent by done. rewrite length_app. cbn. lia.
Qed.

Lemma modal_toggle_edit (row : Row) (catId optId : Z) (edits : gmap Z Edit)
    (current : Edit) :
  getEditsForCat row edits catId = Some current →
  ReviewTable.toggleOption row catId optId edits
  = <[catId := mkEdit (AnnotationPage.toggleOption optId (selections current))
                      (isDuplicate current)]> edits.
Proof.
  intros Hcur. unfold ReviewTable.toggleOption, setEditForCat. by rewrite Hcur.
Qed.

(** X21.  Edits in the detail modal, on a cell whose saved options are
    distinct and which has no edit yet: nothing counts as changed;
    one [toggleOption] makes the category count as changed, whichever
    option it is; the same [toggleOption] again makes it count as
    unchanged, although an edit is now stored for it; the edits of the
    other categories are untouched.  Without a cell and without an
    edit [toggleOption] does nothing, where [setEditForCat] alone
    would throw. *)
Theorem modal_toggle_registers_change
    (row : Row) (catId optId : Z) (cell : Cell) (edits : gmap Z Edit) :
  edits !! catId = None →
  (annotations row !! catId = Some cell → NoDup (selected_options cell) →
   let once := ReviewTable.toggleOption row catId optId edits in
   let twice := ReviewTable.toggleOption row catId optId once in
   hasChangesForCat row edits catId = false ∧
   hasChangesForCat row once catId = true ∧
   hasChangesForCat row twice catId = false ∧
   is_Some (twice !! catId) ∧
   ∀ other, other ≠ catId → twice !! other = edits !! other) ∧
  (annotations row !! catId = None →
   ReviewTable.toggleOption row catId optId edits = edits ∧
   ∀ field, setEditForCat row catId field edits = None).
Proof.
  intros Hnone. split.
  - intros Hcell Hnd once twice.
    assert (once = <[catId := mkEdit (AnnotationPage.toggleOption optId
                                         (selected_options cell))
                                      (is_duplicate cell)]> edits) as Honce.
    { apply (modal_toggle_edit row catId optId edits (editOfCell cell)).
      unfold getEditsForCat. by rewrite Hnone, Hcell. }
    assert (twice
            = <[catId := mkEdit (AnnotationPage.toggleOption optId
                                   (AnnotationPage.toggleOption optId
                                      (selected_options cell)))
                                (is_duplicate cell)]> once) as Htwice.
    { apply (modal_toggle_edit row catId optId once
               (mkEdit (AnnotationPage.toggleOption optId
                          (selected_options cell)) (is_duplicate cell))).
      unfold getEditsForCat. by rewrite Honce, lookup_insert_eq. }
    split_and!.
    + unfold hasChangesForCat. by rewrite Hcell, Hnone.
    + unfold hasChangesForCat. rewrite Hcell, Honce, lookup_insert_eq.
      cbn [selections]. rewrite size_list_to_set by done.
      rewrite bool_decide_true; [done|]. by apply toggled_once_length.
    + unfold hasChangesForCat. rewrite Hcell, Htwice, lookup_insert_eq.
      cbn [selections AdminReview.isDuplicate].
      pose proof (toggled_twice optId (selected_options cell) Hnd) as Hperm.
      rewrite size_list_to_set by done.
      rewrite bool_decide_false by (rewrite (Permutation_length Hperm); auto).
      destruct (existsb _ _) eqn:Hex.
      * apply existsb_exists in Hex as (x & Hx & Hout).
        apply bool_decide_eq_true in Hout. exfalso. apply Hout.
        apply elem_of_list_to_set. rewrite <- Hperm. by apply list_elem_of_In.
      * apply bool_decide_eq_false. auto.
    + rewrite Htwice, lookup_insert_eq. by eexists.
    + intros other Hne. rewrite Htwice, Honce.
      by rewrite !lookup_insert_ne by done.
  - intros Hcell.
    assert (getEditsForCat row edits catId = None) as Hcur.
    { unfold getEditsForCat. by rewrite Hnone, Hcell. }
    split.
    + unfold ReviewTable.toggleOption. by rewrite Hcur.
    + intros field. unfold setEditForCat. by rewrite Hcur.
Qed.

Lemma modal_toggle_registers_change_witness :
  hasChangesForCat MoreSamples.reworkedRow
    (ReviewTable.toggleOption MoreSamples.reworkedRow 1 12 ∅) 1 = true.
Proof.
  destruct (modal_toggle_registers_change MoreSamples.reworkedRow 1 12
              (mkCell 101 None [11] None) ∅ (lookup_empty _)) as [Hcell _].
  apply Hcell; [reflexivity|apply NoDup_singleton].
Defined.

(** X22.  After a refresh the open row follows the table: the effect
    replaces it by the first row of the table with its image id, and
    closes it when the table has none.  Running the effect again
    changes nothing, it touches nothing but the open row, and it
    changes nothing at all when the open row is a row of a table
    whose images have distinct ids. *)
Theorem syncModalRow_follows_table (s : State) (row : Row) (td : TableData) :
  modalRow s = Some row → tableData s = Some td →
  (∀ r, modalRow (syncModalRow s) = Some r →
        r ∈ images td ∧ image_id r = image_id row) ∧
  (modalRow (syncModalRow s) = None ↔
   image_id row ∉ image_id <$> images td) ∧
  syncModalRow (syncModalRow s) = syncModalRow s ∧
  syncModalRow s = setModalRow (modalRow (syncModalRow s)) s ∧
  (row ∈ images td → NoDup (image_id <$> images td) → syncModalRow s = s).
Proof.
  intros Hrow Htd.
  assert (syncModalRow s
          = setModalRow
              (List.find (λ img, bool_decide (image_id img = image_id row))
                         (images td)) s) as Hsync.
  { unfold syncModalRow. by rewrite Hrow, Htd. }
  split_and!.
  - intros r. rewrite Hsync. cbn. intros [Hin Hid]%find_some.
    apply bool_decide_eq_true in Hid. by apply list_elem_of_In in Hin.
  - rewrite Hsync. cbn. split.
    + intros Hno (r & Hid & Hin)%list_elem_of_fmap.
      apply list_elem_of_In in Hin.
      pose proof (find_none _ _ Hno r Hin) as Hr. cbn in Hr.
      by apply bool_decide_eq_false in Hr.
    + intros Hout. destruct (List.find _ _) as [r|] eqn:Hfind; [|done].
      apply find_some in Hfind as [Hin Hid].
      apply bool_decide_eq_true in Hid. exfalso. apply Hout.
      apply list_elem_of_fmap. exists r. by apply list_elem_of_In in Hin.
  - rewrite Hsync.
    destruct (List.find _ _) as [r|] eqn:Hfind; [|done].
    unfold syncModalRow. cbn. rewrite Htd.
    pose proof (find_some _ _ Hfind) as [_ Hid].
    apply bool_decide_eq_true in Hid. by rewrite Hid, Hfind.
  - by rewrite Hsync.
  - intros Hin Hnd. rewrite Hsync.
    assert (List.find (λ img, bool_decide (image_id img = image_id row))
                      (images td) = Some row) as ->.
    { apply list_elem_of_lookup in Hin as [i Hi].
      clear Hsync Htd. revert i Hi Hnd.
      induction (images td) as [|r rows IH]; intros i Hi Hnd; [done|].
      rewrite fmap_cons in Hnd. apply NoDup_cons in Hnd as [Hr Hnd]. cbn.
      destruct i as [|i]; cbn in Hi.
      - injection Hi as ->. by rewrite bool_decide_true.
      - rewrite bool_decide_false; [by apply (IH i)|].
        intros Heq. apply Hr. rewrite Heq. apply list_elem_of_fmap.
        exists row. split; [done|]. by apply list_elem_of_lookup_2 in Hi. }
    destruct s. cbn in Hrow. by subst.
Qed.

Lemma syncModalRow_follows_table_witness :
  syncModalRow (page (MoreSamples.reviewing (Some MoreSamples.reworkedRow)))
  = page (MoreSamples.reviewing (Some MoreSamples.reworkedRow)).
Proof.
  destruct (syncModalRow_follows_table
              (page (MoreSamples.reviewing (Some MoreSamples.reworkedRow)))
              MoreSamples.reworkedRow MoreSamples.reworkedTable
              eq_refl eq_refl) as (_ & _ & _ & _ & Hsame).
  apply Hsame; [apply list_elem_of_here|].
  apply (bool_decide_unpack _). vm_compute. exact I.
Defined.

End ReviewMore.

(** ** The edit popover of a cell *)

Section PopoverFacts.
Import ReviewWire CellEditPopover.

Lemma popover_unchanged (cell : Cell) (s : State) :
  NoDup (selected_options cell) →
  selections s ≡ₚ selected_options cell →
  hasChanges cell s = bool_decide (isDuplicate s ≠ is_duplicate cell).
Proof.
  intros Hnd Hperm. unfold hasChanges.
  rewrite size_list_to_set by done.
  rewrite bool_decide_false by (rewrite (Permutation_length Hperm); auto).
  destruct (existsb _ _) eqn:Hex; [|done].
  apply existsb_exists in Hex as (x & Hx & Hout).
  apply bool_decide_eq_true in Hout. exfalso. apply Hout.
  apply elem_of_list_to_set. rewrite <- Hperm. by apply list_elem_of_In.
Qed.

(** X23.  The green button of the popover, on a cell whose saved
    options are distinct.  It approves as long as nothing was touched,
    and again after the same option was toggled twice; after one
    toggle of an option it saves.  Ticking and unticking "Is
    Duplicate?" on a cell where the flag is a boolean brings the
    popover back to where it started; on a cell where the flag is
    null the box looks as before but the flag is now false, and the
    button saves that instead of approving. *)
Theorem popover_button_follows_edits (cell : Cell) (optId : Z) :
  NoDup (selected_options cell) →
  greenButton cell (mount cell) = onApprove (annotation_id cell) ∧
  hasChanges cell (toggleOpt optId (mount cell)) = true ∧
  greenButton cell (toggleOpt optId (toggleOpt optId (mount cell)))
  = onApprove (annotation_id cell) ∧
  hasChanges cell (toggleDuplicate (mount cell)) = true ∧
  duplicateChecked (toggleDuplicate (toggleDuplicate (mount cell)))
  = duplicateChecked (mount cell) ∧
  (is_Some (is_duplicate cell) →
   toggleDuplicate (toggleDuplicate (mount cell)) = mount cell) ∧
  (is_duplicate cell = None →
   greenButton cell (toggleDuplicate (toggleDuplicate (mount cell)))
   = onSave (annotation_id cell) (selected_options cell) (Some false)).
Proof.
  intros Hnd.
  assert (∀ s, selections s ≡ₚ selected_options cell →
               isDuplicate s = is_duplicate cell →
               greenButton cell s = onApprove (annotation_id cell)) as Hsame.
  { intros s Hperm Hdup. unfold greenButton.
    rewrite (popover_unchanged cell s Hnd Hperm), Hdup.
    by rewrite bool_decide_false by auto. }
  split_and!.
  - by apply Hsame.
  - unfold hasChanges. cbn [toggleOpt mount selections].
    rewrite size_list_to_set by done.
    rewrite bool_decide_true; [done|].
    apply (toggled_once_length optId (selected_options cell) Hnd).
  - apply Hsame; [|done]. cbn [toggleOpt mount selections].
    apply (toggled_twice optId (selected_options cell) Hnd).
  - rewrite popover_unchanged by done. cbn.
    apply bool_decide_eq_true. by destruct (is_duplicate cell) as [[]|].
  - unfold duplicateChecked. cbn. by destruct (is_duplicate cell) as [[]|].
  - intros [v Hv]. unfold toggleDuplicate, mount. cbn. rewrite Hv. cbn.
    by rewrite negb_involutive.
  - intros Hnull. unfold greenButton.
    rewrite popover_unchanged by done. cbn. rewrite Hnull. cbn.
    by rewrite bool_decide_true.
Qed.

Lemma popover_button_follows_edits_witness :
  greenButton (mkCell 101 None [11] None)
    (toggleDuplicate (toggleDuplicate (mount (mkCell 101 None [11] None))))
  = onSave 101 [11] (Some false).
Proof.
  destruct (popover_button_follows_edits (mkCell 101 None [11] None) 11
              (NoDup_singleton 11)) as (_ & _ & _ & _ & _ & _ & Hnull).
  by apply Hnull.
Defined.

End PopoverFacts.

(** ** The bell of the annotator home *)

Section NotificationFacts.
Import AnnotatorHome.

Lemma unread_markRead_all (ns : list Notification) :
  unread (markRead <$> ns) = [].
Proof. induction ns as [|n ns IH]; [done|]. by cbn. Qed.

Lemma unread_mark_absent (notificationId : Z) (ns : list Notification) :
  (∀ n, n ∈ ns → is_read n = false → id n ≠ notificationId) →
  length (unread ((λ n, if bool_decide (id n = notificationId)
                        then markRead n else n) <$> ns))
  = length (unread ns).
Proof.
  induction ns as [|n ns IH]; intros Hnone; [done|].
  assert (length (unread ((λ n, if bool_decide (id n = notificationId)
                                then markRead n else n) <$> ns))
          = length (unread ns)) as Hrest.
  { apply IH. intros m Hm. apply Hnone. by apply elem_of_cons; right. }
  specialize (Hnone n (list_elem_of_here _ _)).
  unfold unread in *. cbn. case_bool_decide as Hid.
  - cbn. destruct (is_read n) eqn:Hr; cbn; [done|]. by destruct Hnone.
  - destruct (is_read n); cbn; by rewrite ?Hrest.
Qed.

Lemma unread_mark_present (notificationId : Z) (ns : list Notification) :
  NoDup (id <$> ns) →
  (∃ n, n ∈ ns ∧ id n = notificationId ∧ is_read n = false) →
  S (length (unread ((λ n, if bool_decide (id n = notificationId)
                           then markRead n else n) <$> ns)))
  = length (unread ns).
Proof.
  induction ns as [|n ns IH]; intros Hnd (m & Hm & Hid & Hr);
    [by apply elem_of_nil in Hm|].
  rewrite fmap_cons in Hnd. apply NoDup_cons in Hnd as [Hn Hnd].
  apply elem_of_cons in Hm as [->|Hm].
  - unfold unread. cbn. rewrite bool_decide_true by done. cbn. rewrite Hr. cbn.
    f_equal. apply unread_mark_absent. intros k Hk _ Hkid. apply Hn.
    rewrite Hid, <- Hkid. apply list_elem_of_fmap. by exists k.
  - assert (id n ≠ notificationId) as Hne.
    { intros Heq. apply Hn. rewrite Heq, <- Hid. apply list_elem_of_fmap.
      by exists m. }
    specialize (IH Hnd (ex_intro _ m (conj Hm (conj Hid Hr)))).
    unfold unread in *. cbn. rewrite bool_decide_false by done.
    destruct (is_read n); cbn; by rewrite <- IH.
Qed.

Lemma onClick_marks (n : Notification) (notificationId : Z) :
  (onClick n).1 = Some notificationId ↔
  id n = notificationId ∧ is_read n = false.
Proof.
  unfold onClick. cbn. destruct (is_read n); cbn; [by intuition|].
  split; [by intros [= ->]|by intros [-> _]].
Qed.

Lemma unread_mark_le (notificationId : Z) (ns : list Notification) :
  (length (unread ns)
   ≤ S (length (unread ((λ n, if bool_decide (id n = notificationId)
                              then markRead n else n) <$> ns))))%nat ∨
  ¬ NoDup (id <$> ns).
Proof.
  destruct (decide (NoDup (id <$> ns))) as [Hnd|]; [left|by right].
  destruct (decide (Exists (λ n, id n = notificationId ∧ is_read n = false) ns))
    as [Hex|Hno].
  - apply Exists_exists in Hex as (n & Hn & Hid & Hr).
    rewrite (unread_mark_present notificationId ns Hnd); [done|].
    by exists n.
  - rewrite unread_mark_absent; [lia|].
    intros n Hn Hr Hid. apply Hno, Exists_exists. by exists n.
Qed.

(** X24.  The count on the bell against the list it stands for.
    [loadNotifications] makes it the number of unread notifications.
    From there, with distinct notification ids, [markAsRead] after a
    click on a notification that is unread in the list keeps it so,
    and so does [markAllAsRead], which leaves none unread; a failed
    request changes nothing.  Whichever notification is marked, even
    one already read or unknown, the count stays between 0 and the
    number of unread notifications. *)
Theorem bell_counts_unread
    (s : State) (notificationId : Z) (res : Http unit) :
  NoDup (id <$> notifications s) →
  0 ≤ unreadCount s ≤ Z.of_nat (length (unread (notifications s))) →
  let marked := markAsRead notificationId res s in
  0 ≤ unreadCount marked ≤ Z.of_nat (length (unread (notifications marked))) ∧
  id <$> notifications marked = id <$> notifications s ∧
  (unreadCount s = Z.of_nat (length (unread (notifications s))) →
   (∃ n, n ∈ notifications s ∧ (onClick n).1 = Some notificationId) →
   unreadCount marked = Z.of_nat (length (unread (notifications marked)))) ∧
  (∀ e, markAsRead notificationId (Fail e) s = s
        ∧ markAllAsRead (Fail e) s = s) ∧
  (∀ u, unread (notifications (markAllAsRead (Ok u) s)) = [] ∧
        unreadCount (markAllAsRead (Ok u) s) = 0) ∧
  (∀ data e,
     unreadCount (loadNotifications (Ok data) s)
     = Z.of_nat (length (unread (notifications (loadNotifications (Ok data) s))))
     ∧ loadNotifications (Fail e) s = s).
Proof.
  intros Hnd Hcount marked. subst marked. split_and!.
  - destruct res as [u|e]; cbn [markAsRead unreadCount]; lia.
  - destruct res as [u|e]; cbn [markAsRead unreadCount notifications]; [|lia].
    destruct (unread_mark_le notificationId (notifications s)) as [Hle|Hdup];
      [lia|done].
  - destruct res as [u|e]; [|done]. cbn. rewrite <- list_fmap_compose.
    apply list_fmap_ext. intros i n _. cbn. by case_bool_decide.
  - intros Heq (n & Hn & Hclick). apply onClick_marks in Hclick as [Hid Hr].
    destruct res as [u|e]; [|done].
    cbn [markAsRead unreadCount notifications].
    pose proof (unread_mark_present notificationId (notifications s) Hnd
                  (ex_intro _ n (conj Hn (conj Hid Hr)))) as Hone.
    lia.
  - done.
  - intros u. cbn. by rewrite unread_markRead_all.
  - done.
Qed.

Lemma bell_counts_unread_witness :
  unreadCount
    (markAsRead 5 (Ok tt)
       (loadNotifications
          (Ok [mkNotification 5 false None; mkNotification 6 false (Some 9)])
          initial))
  = 1.
Proof.
  pose proof (bell_counts_unread
                (loadNotifications
                   (Ok [mkNotification 5 false None;
                        mkNotification 6 false (Some 9)]) initial)
                5 (Ok tt)) as H.
  cbv zeta in H. destruct H as (_ & _ & -> & _); try reflexivity.
  - apply (bool_decide_unpack _). vm_compute. exact I.
  - cbn. lia.
  - eexists. split; [apply list_elem_of_here|reflexivity].
Defined.

End NotificationFacts.

(** ** The auto-save of the timer *)

Section AutoSaveFacts.
Import ImageWire ImageAnnotationPage ImagePageView Notions.

(** X25.  What the auto-save reports: [n] seconds after [loadImage]
    got the image, the time it sends is the largest stored time of
    the image, counted from 0, plus [n]; so it is never below a time
    already stored for one of the categories, it grows with [n], and
    from the first second on a request is sent. *)
Theorem autoSave_reports_resumed_time
    (imageId : Z) (d : ImageData) (ai : Http (option bool)) (s : State)
    (n : nat) :
  let resumed := fold_left Z.max (savedTimes d) 0 in
  let now := secondsPass n (loadImageArrived d ai s) in
  elapsedSeconds now = resumed + Z.of_nat n ∧
  0 ≤ resumed ∧
  Forall (λ t, t ≤ elapsedSeconds now) (savedTimes d) ∧
  autoSave imageId now
  = (if 0 <? resumed + Z.of_nat n
     then Await (PatchTime imageId (resumed + Z.of_nat n)) (λ _, Ret tt)
     else Ret tt) ∧
  ((0 < n)%nat → submits (autoSave imageId now) = true).
Proof.
  intros resumed now.
  assert (elapsedSeconds now = resumed + Z.of_nat n) as He.
  { subst now resumed.
    destruct (secondsPass_effect n (loadImageArrived d ai s)) as (-> & _).
    by rewrite loadImageArrived_elapsed. }
  assert (0 ≤ resumed) as Hpos by apply fold_max_ge_start.
  split_and!; [done|done| | |].
  - apply (Forall_impl _ _ _ (fold_max_upper (savedTimes d) 0)).
    intros t Ht. fold resumed in Ht. lia.
  - unfold autoSave. by rewrite persistTime_sends, He.
  - intros Hn. unfold autoSave. rewrite persistTime_sends, He.
    by destruct (Z.ltb_spec 0 (resumed + Z.of_nat n)); [|lia].
Qed.

Lemma autoSave_reports_resumed_time_witness :
  submits (autoSave 9 (secondsPass 10
             (loadImageArrived Samples.threeCategories (Ok None) initial)))
  = true.
Proof.
  pose proof (autoSave_reports_resumed_time 9 Samples.threeCategories
                (Ok None) initial 10) as H.
  cbv zeta in H. destruct H as (_ & _ & _ & _ & Hsend).
  apply Hsend. lia.
Defined.

End AutoSaveFacts.

(** ** Skip on a page that is behind the backend *)

Section StaleSkip.
Import TaskWire AnnotationPage Notions Outcomes.

Lemma loadTask_keeps_guard (categoryId index : Z) (s : State) :
  Ends (λ s', savingRef s' = savingRef s) (loadTask categoryId index s).
Proof.
  unfold loadTask. constructor. intros [data|e]; constructor; cbn.
  - unfold loadTaskArrived. by destruct (current_annotation data).
  - unfold loadTaskFailed. destruct (bool_decide _); [|done].
    by destruct (_ || _).
Qed.

Lemma resumeOrFinish_keeps_guard (categoryId : Z) (s : State) :
  Ends (λ s', savingRef s' = savingRef s) (resumeOrFinish categoryId s).
Proof.
  unfold resumeOrFinish. constructor. intros [r|e]; cbn; [|by constructor].
  destruct (queue_size r =? 0); [by constructor|apply loadTask_keeps_guard].
Qed.

Lemma saveAnnotation_releases_guard (categoryId : Z) (st : Status)
    (s : State) :
  savingRef s = false →
  Ends (λ saved, savingRef saved.2 = false) (saveAnnotation categoryId st s).
Proof.
  intros Href. unfold saveAnnotation.
  destruct (task s) as [t|]; [|by constructor].
  rewrite Href. constructor. intros [[]|e]; by constructor.
Qed.

(** Whatever the answers, [handleNext] returns with the save guard
    released. *)
Lemma handleNext_releases_guard (categoryId : Z) (s : State) :
  savingRef s = false →
  Ends (λ s', savingRef s' = false) (handleNext categoryId s).
Proof.
  intros Href. unfold handleNext.
  apply (Ends_bind _ _ _ _ (saveAnnotation_releases_guard _ _ _ Href)).
  intros [ok s1] Hs1. cbn [snd] in Hs1.
  destruct ok; cbn [negb]; [|by constructor].
  constructor. intros [newSize|e]; [|by constructor].
  destruct (_ || _).
  - apply (Ends_impl (λ s', savingRef s' = savingRef s1));
      [congruence|apply resumeOrFinish_keeps_guard].
  - apply (Ends_impl (λ s', savingRef s' = savingRef s1));
      [congruence|apply loadTask_keeps_guard].
Qed.

(** C2.  [handleSkip] decides on the record the page holds, not on the
    record the backend holds.  [handleNext] saves the image as
    completed and, when no other task is loaded after it (the last
    image of the queue, or a load that fails), leaves the page on the
    task as it was loaded, without that record.  On this page
    [handleSkip] takes the image for one that is not completed and
    sends its record with status skipped: a skip over completed
    work, whatever the backend then makes of it. *)
Theorem handleSkip_skips_completed_when_stale
    {Store : Type} (srv : Backend Store) (categoryId : Z) (s : State)
    (t : Task) (store : Store) :
  task s = Some t → current_annotation t = None → savingRef s = false →
  (srv _ (PutAnnotate categoryId (image_id t)
            (mkAnnotateBody (selectedOptions s) (isDuplicate s) completed
                            (elapsedSeconds s))) store).1 = Ok tt →
  task (run srv (handleNext categoryId s) store).1.1 = Some t →
  let next := run srv (handleNext categoryId s) store in
  head next.2
  = Some (issued (PutAnnotate categoryId (image_id t)
                    (mkAnnotateBody (selectedOptions s) (isDuplicate s)
                                    completed (elapsedSeconds s)))) ∧
  alreadyCompleted next.1.1 = false ∧
  submits (handleSkip categoryId next.1.1) = true ∧
  ∃ k, handleSkip categoryId next.1.1
       = Await (PutAnnotate categoryId (image_id t)
                  (mkAnnotateBody (selectedOptions next.1.1)
                                  (isDuplicate next.1.1) skipped
                                  (elapsedSeconds next.1.1))) k.
Proof.
  intros Ht Hnone Href Hsaved Hstays next. subst next.
  pose proof (run_Ends srv _ _ store (handleNext_releases_guard categoryId s Href))
    as Hguard. cbn beta in Hguard.
  assert (alreadyCompleted (run srv (handleNext categoryId s) store).1.1 = false)
    as Hstale.
  { unfold alreadyCompleted. by rewrite Hstays, Hnone. }
  destruct (handleSkip_saves_otherwise categoryId _ t Hstays Hguard Hstale)
    as [k Hk].
  split_and!; [|done| |by exists k].
  - unfold handleNext, saveAnnotation. rewrite Ht, Href. cbn [run].
    cbn. destruct (srv _ _ store) as [res store1].
    by destruct (run srv _ store1) as [[s' store'] log].
  - by rewrite Hk.
Qed.

Lemma handleSkip_skips_completed_when_stale_witness :
  Backends.slotStatus
    <$> (run (Backends.serveQueue (λ _ _, None))
           (handleNext 1 Samples.onEight) Samples.oneLeft).1.2
  = [Some completed; Some completed] ∧
  ∃ k, handleSkip 1
         (run (Backends.serveQueue (λ _ _, None))
            (handleNext 1 Samples.onEight) Samples.oneLeft).1.1
       = Await (PutAnnotate 1 8 (mkAnnotateBody [21] None skipped 12)) k.
Proof.
  split; [reflexivity|].
  pose proof (handleSkip_skips_completed_when_stale
                (Backends.serveQueue (λ _ _, None)) 1 Samples.onEight
                (mkTask 8 2 None) Samples.oneLeft
                eq_refl eq_refl eq_refl eq_refl eq_refl) as H.
  cbv zeta in H. destruct H as (_ & _ & _ & k & Hk).
  exists k. exact Hk.
Defined.

End StaleSkip.
